(** * Comparable-sales aggregation pipeline: a shallow embedding

    The development follows [scripts/orchestrator.py]
    (class [EnhancedComparableSalesOrchestrator]) and the process entry point
    [scripts/enhanced_comp_scraper.py].

    Modelling conventions.
    - A Python [dict] is an insertion-ordered association list with unique
      keys ([Py.dict]); [d.get(k)], [d[k] = v] and [k in d] are [Py.get],
      [Py.set] and [Py.contains].
    - Field values are the JSON scalars of the data model: [None], [int]
      (unbounded, [Z]), [float] (IEEE binary64, Rocq's primitive floats) and
      [str].  Booleans and nested containers do not occur in records.
    - A [str] is a [string] of 8-bit characters; the case mapping, the regular
      expression classes [\w], [\s], [\d] and the ordering of strings are the
      ASCII ones.
    - A raised exception is the [Raise] branch of [Py.result]; [try/except]
      is a [match] on it.
    - The built-ins [float] and [repr] on floats are written out in
      [PyNum]; [sorted] and [list.sort] are a stable insertion sort, which
      agrees with Python's on keys that are mutually comparable and not NaN.
    - The wall clock ([datetime.now()]) and the four scraper back ends are
      explicit arguments. *)

From Stdlib Require Import String Ascii List ZArith Bool Lia Floats Permutation Sorted.
From Stdlib Require Import Decimal DecimalString.
From Stdlib Require Uint63 FloatLemmas.
Import ListNotations.
Set Warnings "-inexact-float".

Local Open Scope string_scope.
Local Open Scope Z_scope.

(* ================================================================== *)
(** * Python values, exceptions and dictionaries *)

Module Py.

Inductive value : Type :=
| VNone
| VInt (z : Z)
| VFloat (f : float)
| VStr (s : string).

Inductive exn_kind : Type :=
| TypeError | ValueError | NameError | AttributeError | KeyError
| IndexError | OverflowError | ZeroDivisionError | RuntimeError.

(** An exception object: its class and [str(e)]. *)
Record exn : Type := mk_exn { exn_class : exn_kind; exn_str : string }.

Inductive result (A : Type) : Type :=
| Ok (a : A)
| Raise (e : exn).
Arguments Ok {A} a.
Arguments Raise {A} e.

Definition bind {A B} (c : result A) (k : A -> result B) : result B :=
  match c with
  | Ok a => k a
  | Raise e => Raise e
  end.

Definition is_ok {A} (c : result A) : bool :=
  match c with Ok _ => true | Raise _ => false end.

(** [for x in l: f(x)] collecting the results; the first exception wins. *)
Fixpoint mapM {A B} (f : A -> result B) (l : list A) : result (list B) :=
  match l with
  | [] => Ok []
  | x :: l' =>
      bind (f x) (fun y => bind (mapM f l') (fun ys => Ok (y :: ys)))
  end.

Definition dict (V : Type) : Type := list (string * V).

Fixpoint get {V} (d : dict V) (k : string) : option V :=
  match d with
  | [] => None
  | (k', v) :: d' => if String.eqb k' k then Some v else get d' k
  end.

Definition get_default {V} (d : dict V) (k : string) (dflt : V) : V :=
  match get d k with Some v => v | None => dflt end.

Definition contains {V} (d : dict V) (k : string) : bool :=
  match get d k with Some _ => true | None => false end.

(** [d[k] = v]: an existing key keeps its position, a new key goes last. *)
Fixpoint set {V} (d : dict V) (k : string) (v : V) : dict V :=
  match d with
  | [] => [(k, v)]
  | (k', v') :: d' =>
      if String.eqb k' k then (k', v) :: d' else (k', v') :: set d' k v
  end.

Definition keys {V} (d : dict V) : list string := map fst d.
Definition values {V} (d : dict V) : list V := map snd d.

(** Keys of a Python dict are pairwise distinct. *)
Definition wf {V} (d : dict V) : Prop := NoDup (keys d).

Definition is_none (v : value) : bool :=
  match v with VNone => true | _ => false end.

(** [bool(v)]. *)
Definition truthy (v : value) : bool :=
  match v with
  | VNone => false
  | VInt z => negb (z =? 0)
  | VFloat f => negb (PrimFloat.eqb f 0%float)
  | VStr s => negb (String.eqb s "")
  end.

(** Truth value of the result of [d.get(k)]. *)
Definition truthy_opt (o : option value) : bool :=
  match o with Some v => truthy v | None => false end.

End Py.

Import Py.

Declare Scope py_scope.
Delimit Scope py_scope with py.
Notation "x <- c ;; k" := (Py.bind c (fun x => k))
  (at level 61, c at next level, right associativity) : py_scope.
Local Open Scope py_scope.

Definition record : Type := dict value.

(* ================================================================== *)
(** * Strings *)

Module PyStr.

Definition chr (n : nat) : ascii := ascii_of_nat n.
Definition ord (c : ascii) : nat := nat_of_ascii c.

Definition in_range (lo hi : nat) (c : ascii) : bool :=
  (Nat.leb lo (ord c) && Nat.leb (ord c) hi)%bool.

Definition is_upper (c : ascii) : bool := in_range 65 90 c.
Definition is_lower (c : ascii) : bool := in_range 97 122 c.
Definition is_digit (c : ascii) : bool := in_range 48 57 c.

(** [\w]: letters, digits and the underscore. *)
Definition is_word_char (c : ascii) : bool :=
  (is_upper c || is_lower c || is_digit c || Ascii.eqb c "_")%bool.

(** [\s]: the characters for which [str.isspace()] holds. *)
Definition is_space (c : ascii) : bool :=
  (in_range 9 13 c || in_range 28 32 c)%bool.

Definition lower_char (c : ascii) : ascii :=
  if is_upper c then chr (ord c + 32) else c.

Fixpoint map_chars (f : ascii -> ascii) (s : string) : string :=
  match s with
  | EmptyString => EmptyString
  | String c s' => String (f c) (map_chars f s')
  end.

Fixpoint filter_chars (p : ascii -> bool) (s : string) : string :=
  match s with
  | EmptyString => EmptyString
  | String c s' => if p c then String c (filter_chars p s') else filter_chars p s'
  end.

(** [s.lower()]. *)
Definition lower (s : string) : string := map_chars lower_char s.

Definition head_is (p : ascii -> bool) (s : string) : bool :=
  match s with
  | EmptyString => false
  | String c _ => p c
  end.

Fixpoint drop (n : nat) (s : string) : string :=
  match n, s with
  | O, _ => s
  | S n', String _ s' => drop n' s'
  | S _, EmptyString => EmptyString
  end.

(** [sep in s]. *)
Fixpoint has_substring (sep s : string) : bool :=
  if String.prefix sep s then true
  else match s with
       | EmptyString => false
       | String _ s' => has_substring sep s'
       end.

(** [s.split(sep)[0]] for a non-empty [sep]: the text before the first
    occurrence of [sep], the whole of [s] when there is none. *)
Fixpoint split_head (sep s : string) : string :=
  if String.prefix sep s then EmptyString
  else match s with
       | EmptyString => EmptyString
       | String c s' => String c (split_head sep s')
       end.

(** [sep.join(l)]. *)
Fixpoint join (sep : string) (l : list string) : string :=
  match l with
  | [] => ""
  | [x] => x
  | x :: l' => x ++ sep ++ join sep l'
  end.

(** [a < b] on strings: lexicographic on character codes. *)
Fixpoint ltb (a b : string) : bool :=
  match a, b with
  | _, EmptyString => false
  | EmptyString, String _ _ => true
  | String x a', String y b' =>
      if Nat.ltb (ord x) (ord y) then true
      else if Nat.ltb (ord y) (ord x) then false
      else ltb a' b'
  end.

Fixpoint insert_sorted (x : string) (l : list string) : list string :=
  match l with
  | [] => [x]
  | y :: l' => if ltb x y then x :: l else y :: insert_sorted x l'
  end.

(** [sorted(l)] on a list of strings. *)
Definition sorted (l : list string) : list string :=
  fold_right insert_sorted [] l.

(** [str(n)] for an [int]. *)
Definition of_Z (z : Z) : string := NilZero.string_of_int (Z.to_int z).

Definition of_nat (n : nat) : string := of_Z (Z.of_nat n).

End PyStr.

(* ================================================================== *)
(** * Record Normalizer: [_normalize_address_for_dedup] *)

Module Normalizer.
Import PyStr.

(** The character class of [re.sub(r'[.,#-/]', ' ', address)]: the literal
    [.], the literal [,], and the range from [#] (35) to [/] (47). *)
Definition separator_class (c : ascii) : bool :=
  (Ascii.eqb c "." || Ascii.eqb c "," || in_range (ord "#") (ord "/") c)%bool.

Definition replace_separators (s : string) : string :=
  map_chars (fun c => if separator_class c then " "%char else c) s.

(** The alternation of the second [re.sub], in source order. *)
Definition suffix_words : list string :=
  [ "street"; "st"; "avenue"; "ave"; "road"; "rd"; "boulevard"; "blvd";
    "drive"; "dr"; "lane"; "ln"; "way"; "place"; "pl"; "court"; "ct";
    "parkway"; "pkwy" ].

(** The first alternative of [\b(w1|w2|...)\b] that matches at the head of
    [s]: [w] is a prefix and a word boundary follows it.  Every alternative
    ends in a letter, so the closing [\b] asks for a non-word character or
    the end of the text. *)
Fixpoint match_alternative (alts : list string) (s : string) : option string :=
  match alts with
  | [] => None
  | w :: alts' =>
      if (String.prefix w s && negb (head_is is_word_char (drop (String.length w) s)))%bool
      then Some w
      else match_alternative alts' s
  end.

(** [re.sub(r'\b(...)\b', '', s)], scanning left to right.  [prev_word]
    tells whether the character before the cursor is a word character;
    [skip] counts the characters of the current match still to delete. *)
Fixpoint remove_words (alts : list string) (prev_word : bool) (skip : nat)
    (s : string) : string :=
  match s with
  | EmptyString => EmptyString
  | String c s' =>
      match skip with
      | S k => remove_words alts true k s'
      | O =>
          let at_boundary := xorb prev_word (is_word_char c) in
          match (if at_boundary then match_alternative alts s else None) with
          | Some w => remove_words alts true (Nat.pred (String.length w)) s'
          | None => String c (remove_words alts (is_word_char c) O s')
          end
      end
  end.

Definition remove_suffix_words (s : string) : string :=
  remove_words suffix_words false O s.

(** [re.sub(r'\s+', '', s)]. *)
Definition remove_whitespace (s : string) : string :=
  filter_chars (fun c => negb (is_space c)) s.

Definition AttributeError_lower : exn :=
  mk_exn AttributeError "object has no attribute 'lower'".

(** [_normalize_address_for_dedup(address)]; [None] stands for an absent
    argument value as well as for Python's [None]. *)
Definition _normalize_address_for_dedup (address : option value) : result string :=
  if negb (truthy_opt address) then Ok ""
  else match address with
       | Some (VStr a) =>
           let a1 := lower a in
           let a2 := replace_separators a1 in
           let a3 := remove_suffix_words a2 in
           Ok (remove_whitespace a3)
       | _ => Raise AttributeError_lower
       end.

(** [_is_same_address(addr1, addr2)]. *)
Definition _is_same_address (addr1 addr2 : option value) : result bool :=
  if (negb (truthy_opt addr1) || negb (truthy_opt addr2))%bool then Ok false
  else
    n1 <- _normalize_address_for_dedup addr1 ;;
    n2 <- _normalize_address_for_dedup addr2 ;;
    Ok (String.eqb n1 n2).

(** The normalizer as section 4.1 of the specification words it: exactly the
    five characters [. , # - /] become spaces. *)
Definition five_separators (c : ascii) : bool :=
  (Ascii.eqb c "." || Ascii.eqb c "," || Ascii.eqb c "#" || Ascii.eqb c "-"
   || Ascii.eqb c "/")%bool.

Definition normalize_as_specified (address : option string) : string :=
  match address with
  | None => ""
  | Some a =>
      remove_whitespace
        (remove_suffix_words
           (map_chars (fun c => if five_separators c then " "%char else c) (lower a)))
  end.

End Normalizer.

(* ================================================================== *)
(** * Numbers: the [int]/[float] operations the pipeline uses *)

Module PyNum.

Definition OverflowError_int : exn :=
  mk_exn OverflowError "int too large to convert to float".
Definition TypeError_order : exn :=
  mk_exn TypeError "'<' not supported between instances".
Definition TypeError_operand : exn :=
  mk_exn TypeError "unsupported operand type(s)".
Definition TypeError_float : exn :=
  mk_exn TypeError "float() argument must be a string or a real number".
Definition ValueError_nan_int : exn :=
  mk_exn ValueError "cannot convert float NaN to integer".
Definition OverflowError_inf_int : exn :=
  mk_exn OverflowError "cannot convert float infinity to integer".

(** The binary64 number nearest to [z] (ties to even). *)
Definition nearest_float (z : Z) : float :=
  SF2Prim (binary_normalize prec emax z 0 false).

(** [float(z)] for an [int]. *)
Definition float_of_Z (z : Z) : result float :=
  let f := nearest_float z in
  if is_infinity f then Raise OverflowError_int else Ok f.

(** [int(f)] for a [float]: truncation towards zero. *)
Definition Z_of_float (f : float) : result Z :=
  match Prim2SF f with
  | S754_nan => Raise ValueError_nan_int
  | S754_infinity _ => Raise OverflowError_inf_int
  | S754_zero _ => Ok 0
  | S754_finite s m e =>
      let a := if 0 <=? e then Z.pos m * 2 ^ e else Z.pos m / 2 ^ (- e) in
      Ok (if s then - a else a)
  end.

(** The exact order between an [int] and a [float]; [None] for a NaN. *)
Definition compare_Z_float (z : Z) (f : float) : option comparison :=
  match Prim2SF f with
  | S754_nan => None
  | S754_infinity s => Some (if s then Gt else Lt)
  | S754_zero _ => Some (z ?= 0)
  | S754_finite s m e =>
      let v := if s then Z.neg m else Z.pos m in
      Some (if 0 <=? e then z ?= v * 2 ^ e else z * 2 ^ (- e) ?= v)
  end.

Definition is_lt (c : option comparison) : bool :=
  match c with Some Lt => true | _ => false end.
Definition is_gt (c : option comparison) : bool :=
  match c with Some Gt => true | _ => false end.
Definition is_eq (c : option comparison) : bool :=
  match c with Some Eq => true | _ => false end.

(** [a < b]. *)
Definition lt (a b : value) : result bool :=
  match a, b with
  | VInt x, VInt y => Ok (x <? y)
  | VFloat x, VFloat y => Ok (PrimFloat.ltb x y)
  | VInt x, VFloat y => Ok (is_lt (compare_Z_float x y))
  | VFloat x, VInt y => Ok (is_gt (compare_Z_float y x))
  | VStr x, VStr y => Ok (PyStr.ltb x y)
  | _, _ => Raise TypeError_order
  end.

(** [a == b]; never raises. *)
Definition eq (a b : value) : bool :=
  match a, b with
  | VNone, VNone => true
  | VInt x, VInt y => x =? y
  | VFloat x, VFloat y => PrimFloat.eqb x y
  | VInt x, VFloat y => is_eq (compare_Z_float x y)
  | VFloat x, VInt y => is_eq (compare_Z_float y x)
  | VStr x, VStr y => String.eqb x y
  | _, _ => false
  end.

(** [min(a, b)]: the second argument replaces the first when it is smaller. *)
Definition min (a b : value) : result value :=
  c <- lt b a ;; Ok (if c then b else a).

(** [max(a, b)]: the second argument replaces the first when it is greater. *)
Definition max (a b : value) : result value :=
  c <- lt a b ;; Ok (if c then b else a).

(** The operand of a binary arithmetic operation whose other side is a
    [float]. *)
Definition as_float (v : value) : result float :=
  match v with
  | VFloat f => Ok f
  | VInt z => float_of_Z z
  | _ => Raise TypeError_operand
  end.

(** [a + b], [a - b], [a * b] on numbers: exact on two [int]s, binary64 as
    soon as one side is a [float]. *)
Definition arith (fz : Z -> Z -> Z) (ff : float -> float -> float)
    (a b : value) : result value :=
  match a, b with
  | VInt x, VInt y => Ok (VInt (fz x y))
  | VInt _, VFloat _ | VFloat _, VInt _ | VFloat _, VFloat _ =>
      x <- as_float a ;; y <- as_float b ;; Ok (VFloat (ff x y))
  | _, _ => Raise TypeError_operand
  end.

Definition add : value -> value -> result value := arith Z.add PrimFloat.add.
Definition sub : value -> value -> result value := arith Z.sub PrimFloat.sub.
Definition mul : value -> value -> result value := arith Z.mul PrimFloat.mul.

(** [abs(a)]. *)
Definition abs (a : value) : result value :=
  match a with
  | VInt x => Ok (VInt (Z.abs x))
  | VFloat x => Ok (VFloat (PrimFloat.abs x))
  | _ => Raise TypeError_operand
  end.

Definition ZeroDivisionError_float : exn :=
  mk_exn ZeroDivisionError "float division by zero".

(** [a / x] for a [float] divisor [x]. *)
Definition div_float (a : value) (x : float) : result float :=
  n <- as_float a ;;
  if PrimFloat.eqb x 0%float then Raise ZeroDivisionError_float
  else Ok (PrimFloat.div n x).

(** The binary64 number nearest to [p / q] for positive [p] and [q]. *)
Definition float_of_ratio (p q : Z) : float :=
  SF2Prim (SFdiv prec emax (S754_finite false (Z.to_pos p) 0)
                           (S754_finite false (Z.to_pos q) 0)).

(** The binary64 number nearest to [p * 10^x] for [p >= 0]. *)
Definition float_of_decimal (p x : Z) : float :=
  if p =? 0 then 0%float
  else if 0 <=? x then nearest_float (p * 10 ^ x)
  else float_of_ratio p (10 ^ (- x)).

Definition ValueError_float : exn :=
  mk_exn ValueError "could not convert string to float".

Fixpoint digits_value (acc : Z) (s : string) : Z :=
  match s with
  | EmptyString => acc
  | String c s' => digits_value (10 * acc + Z.of_nat (PyStr.ord c - 48)) s'
  end.

(** A [digitpart]: digits, single underscores allowed between them.  The
    digits read (underscores dropped) and the text after them; [after_digit]
    tells whether the previous character was a digit. *)
Fixpoint take_digitpart (after_digit : bool) (s : string) : string * string :=
  match s with
  | String c s' =>
      if PyStr.is_digit c then
        let (ds, r) := take_digitpart true s' in (String c ds, r)
      else if (after_digit && Ascii.eqb c "_" && PyStr.head_is PyStr.is_digit s')%bool
      then take_digitpart false s'
      else (EmptyString, s)
  | EmptyString => (EmptyString, s)
  end.

Definition take_sign (s : string) : bool * string :=
  match s with
  | String "-" r => (true, r)
  | String "+" r => (false, r)
  | _ => (false, s)
  end.

(** The exponent part [[eE][+-]digitpart]; [None] when what follows the
    number is neither empty nor an exponent. *)
Definition take_exponent (s : string) : option Z :=
  match s with
  | EmptyString => Some 0
  | String c r =>
      if (Ascii.eqb c "e" || Ascii.eqb c "E")%bool then
        let (neg, r1) := take_sign r in
        let (ds, r2) := take_digitpart false r1 in
        if (negb (String.eqb ds "") && String.eqb r2 "")%bool
        then Some (if neg then - digits_value 0 ds else digits_value 0 ds)
        else None
      else None
  end.

Fixpoint rstrip (s : string) : string :=
  match s with
  | EmptyString => EmptyString
  | String c s' =>
      let t := rstrip s' in
      if (PyStr.is_space c && String.eqb t "")%bool then EmptyString else String c t
  end.

Fixpoint lstrip (s : string) : string :=
  match s with
  | String c s' => if PyStr.is_space c then lstrip s' else s
  | EmptyString => EmptyString
  end.

(** [float(s)] for a [str]. *)
Definition float_of_str (s : string) : result float :=
  let (neg, body) := take_sign (lstrip (rstrip s)) in
  let signed (f : float) := if neg then (- f)%float else f in
  let word := PyStr.lower body in
  if (String.eqb word "inf" || String.eqb word "infinity")%bool then Ok (signed infinity)
  else if String.eqb word "nan" then Ok nan
  else
    let (ip, r1) := take_digitpart false body in
    let (fp, r2) :=
      match r1 with
      | String "." r => take_digitpart false r
      | _ => (EmptyString, r1)
      end in
    if (String.eqb ip "" && String.eqb fp "")%bool then Raise ValueError_float
    else
      match take_exponent r2 with
      | None => Raise ValueError_float
      | Some x =>
          let p := digits_value 0 (ip ++ fp) in
          Ok (signed (float_of_decimal p (x - Z.of_nat (String.length fp))))
      end.

(** The number of decimal digits of a positive integer. *)
Definition decimal_length (n : Z) : Z := Z.of_nat (String.length (PyStr.of_Z n)).

(** ** [repr] of a [float]: the shortest decimal that reads back as the
    same number *)

(** The exact value [num / den] of a positive finite float [m * 2^e]. *)
Definition exact_ratio (m : positive) (e : Z) : Z * Z :=
  if 0 <=? e then (Z.pos m * 2 ^ e, 1) else (Z.pos m, 2 ^ (- e)).

(** The least [j >= 1] with [num * 10^j >= den], for [num < den]. *)
Fixpoint places_below_one (fuel : nat) (num den j : Z) : Z :=
  match fuel with
  | O => j
  | S fuel' =>
      if den <=? num * 10 ^ j then j else places_below_one fuel' num den (j + 1)
  end.

(** [k] with [10^(k-1) <= num / den < 10^k]. *)
Definition decimal_exponent (num den : Z) : Z :=
  if den <=? num then Z.of_nat (String.length (PyStr.of_Z (num / den)))
  else 1 - places_below_one 400 num den 1.

(** The two [n]-digit decimals around [num / den], the nearer one first;
    both are mantissas to be scaled by [10^(k - n)]. *)
Definition candidates (num den k n : Z) : Z * Z :=
  let (a, b) := if 0 <=? n - k then (num * 10 ^ (n - k), den)
                else (num, den * 10 ^ (k - n)) in
  let lo := a / b in
  let r := a mod b in
  match 2 * r ?= b with
  | Lt => (lo, lo + 1)
  | Gt => (lo + 1, lo)
  | Eq => if Z.even lo then (lo, lo + 1) else (lo + 1, lo)
  end.

(** The shortest mantissa that reads back as [f], tried from [n] digits
    upwards, and the power of ten that scales it. *)
Fixpoint shortest_digits (fuel : nat) (f : float) (num den k n : Z) : Z * Z :=
  let (c1, c2) := candidates num den k n in
  match fuel with
  | O => (c1, k - n)
  | S fuel' =>
      if PrimFloat.eqb (float_of_decimal c1 (k - n)) f then (c1, k - n)
      else if PrimFloat.eqb (float_of_decimal c2 (k - n)) f then (c2, k - n)
      else shortest_digits fuel' f num den k (n + 1)
  end.

Fixpoint strip_trailing_zeros (s : string) : string :=
  match s with
  | EmptyString => EmptyString
  | String c s' =>
      let t := strip_trailing_zeros s' in
      if (Ascii.eqb c "0" && String.eqb t "")%bool then EmptyString else String c t
  end.

Fixpoint zeros (n : nat) : string :=
  match n with O => EmptyString | S n' => String "0" (zeros n') end.

(** The layout of [repr]: scientific notation when the decimal point falls
    outside the digits by more than the format allows. *)
Definition layout (ds : string) (decpt : Z) : string :=
  let len := Z.of_nat (String.length ds) in
  if ((decpt <=? -4) || (16 <? decpt))%bool then
    let x := decpt - 1 in
    let xs := PyStr.of_Z (Z.abs x) in
    let xs := if Z.abs x <? 10 then String "0" xs else xs in
    String.substring 0 1 ds
    ++ (if 1 <? len then "." ++ PyStr.drop 1 ds else "")
    ++ "e" ++ (if x <? 0 then "-" else "+") ++ xs
  else if decpt <=? 0 then "0." ++ zeros (Z.to_nat (- decpt)) ++ ds
  else if len <=? decpt then ds ++ zeros (Z.to_nat (decpt - len)) ++ ".0"
  else String.substring 0 (Z.to_nat decpt) ds ++ "." ++ PyStr.drop (Z.to_nat decpt) ds.

(** [repr(f)]. *)
Definition repr_float (f : float) : string :=
  match Prim2SF f with
  | S754_nan => "nan"
  | S754_infinity s => if s then "-inf" else "inf"
  | S754_zero s => if s then "-0.0" else "0.0"
  | S754_finite s m e =>
      let (num, den) := exact_ratio m e in
      let k := decimal_exponent num den in
      let (d, x) := shortest_digits 16 (PrimFloat.abs f) num den k 1 in
      let all := PyStr.of_Z d in
      let decpt := x + Z.of_nat (String.length all) in
      (if s then "-" else "") ++ layout (strip_trailing_zeros all) decpt
  end.

End PyNum.

(* ================================================================== *)
(** * Dates: the part of [datetime] the pipeline uses *)

Module DateTime.
Import PyStr.

Record date : Type := mk_date { year : Z; month : Z; day : Z }.

Definition is_leap (y : Z) : bool :=
  ((y mod 4 =? 0) && (negb (y mod 100 =? 0) || (y mod 400 =? 0)))%bool.

Definition days_in_month (y m : Z) : Z :=
  match m with
  | 1 | 3 | 5 | 7 | 8 | 10 | 12 => 31
  | 4 | 6 | 9 | 11 => 30
  | 2 => if is_leap y then 29 else 28
  | _ => 0
  end.

Definition days_before_year (y : Z) : Z :=
  let p := y - 1 in p * 365 + p / 4 - p / 100 + p / 400.

Fixpoint days_in_first_months (y : Z) (n : nat) : Z :=
  match n with
  | O => 0
  | S n' => days_in_first_months y n' + days_in_month y (Z.of_nat n)
  end.

(** [d.toordinal()]: day 1 is 0001-01-01. *)
Definition toordinal (d : date) : Z :=
  days_before_year (year d)
  + days_in_first_months (year d) (Z.to_nat (month d - 1))
  + day d.

(** [(a - b).days] for [a] at any time of day and [b] at midnight. *)
Definition days_between (a b : date) : Z := toordinal a - toordinal b.

Definition digit (c : ascii) : option Z :=
  if is_digit c then Some (Z.of_nat (ord c - 48)) else None.

Definition digit_in (lo hi : Z) (c : ascii) : option Z :=
  match digit c with
  | Some d => if ((lo <=? d) && (d <=? hi))%bool then Some d else None
  | None => None
  end.

(** One alternative of a directive's pattern: the number it reads and the
    text left over. *)
Definition alternative : Type := string -> option (Z * string).

Definition two_digits (lo1 hi1 lo2 hi2 : Z) : alternative := fun s =>
  match s with
  | String a (String b r) =>
      match digit_in lo1 hi1 a, digit_in lo2 hi2 b with
      | Some x, Some y => Some (10 * x + y, r)
      | _, _ => None
      end
  | _ => None
  end.

Definition one_digit (lo hi : Z) : alternative := fun s =>
  match s with
  | String a r =>
      match digit_in lo hi a with Some x => Some (x, r) | None => None end
  | _ => None
  end.

Definition space_digit (lo hi : Z) : alternative := fun s =>
  match s with
  | String " " r => one_digit lo hi r
  | _ => None
  end.

(** [%m] is [1[0-2]|0[1-9]|[1-9]]. *)
Definition month_alternatives : list alternative :=
  [ two_digits 1 1 0 2; two_digits 0 0 1 9; one_digit 1 9 ].

(** [%d] is [3[01]|[12]\d|0[1-9]|[1-9]| [1-9]]. *)
Definition day_alternatives : list alternative :=
  [ two_digits 3 3 0 1; two_digits 1 2 0 9; two_digits 0 0 1 9;
    one_digit 1 9; space_digit 1 9 ].

(** Backtracking over an alternation: the first alternative after which the
    rest of the pattern [k] also matches. *)
Fixpoint first_match {A} (alts : list alternative)
    (k : Z -> string -> option A) (s : string) : option A :=
  match alts with
  | [] => None
  | alt :: alts' =>
      match alt s with
      | Some (n, r) =>
          match k n r with
          | Some a => Some a
          | None => first_match alts' k s
          end
      | None => first_match alts' k s
      end
  end.

(** [%Y] is [\d\d\d\d]. *)
Definition match_year : alternative := fun s =>
  match s with
  | String a (String b (String c (String d r))) =>
      match digit a, digit b, digit c, digit d with
      | Some x, Some y, Some z, Some w => Some (1000 * x + 100 * y + 10 * z + w, r)
      | _, _, _, _ => None
      end
  | _ => None
  end.

Definition expect_dash {A} (k : string -> option A) (s : string) : option A :=
  match s with
  | String "-" r => k r
  | _ => None
  end.

(** The match of the compiled pattern for ['%Y-%m-%d'] at the start of the
    text: year, month, day and the unconverted remainder. *)
Definition match_Ymd (s : string) : option (Z * Z * Z * string) :=
  match match_year s with
  | Some (y, r) =>
      expect_dash (fun r1 =>
        first_match month_alternatives (fun m r2 =>
          expect_dash (fun r3 =>
            first_match day_alternatives (fun d r4 => Some (y, m, d, r4)) r3) r2) r1) r
  | None => None
  end.

Definition ValueError_format : exn :=
  mk_exn ValueError "time data does not match format '%Y-%m-%d'".
Definition ValueError_remains : exn :=
  mk_exn ValueError "unconverted data remains".
Definition ValueError_range : exn :=
  mk_exn ValueError "date value out of range".
Definition TypeError_strptime : exn :=
  mk_exn TypeError "strptime() argument 1 must be str".

(** [datetime.strptime(s, '%Y-%m-%d')] on a [str]. *)
Definition strptime_str (s : string) : result date :=
  match match_Ymd s with
  | None => Raise ValueError_format
  | Some (y, m, d, rest) =>
      if negb (String.eqb rest "") then Raise ValueError_remains
      else if ((1 <=? y) && (d <=? days_in_month y m))%bool
           then Ok (mk_date y m d)
           else Raise ValueError_range
  end.

(** [datetime.strptime(v, '%Y-%m-%d')] on any value. *)
Definition strptime (v : value) : result date :=
  match v with
  | VStr s => strptime_str s
  | _ => Raise TypeError_strptime
  end.

Definition month_abbr (m : Z) : string :=
  match m with
  | 1 => "Jan" | 2 => "Feb" | 3 => "Mar" | 4 => "Apr" | 5 => "May"
  | 6 => "Jun" | 7 => "Jul" | 8 => "Aug" | 9 => "Sep" | 10 => "Oct"
  | 11 => "Nov" | _ => "Dec"
  end.

(** [d.strftime('%b %Y')] in the C locale. *)
Definition strftime_bY (d : date) : string :=
  month_abbr (month d) ++ " " ++ of_Z (year d).

(** [a < b] on dates. *)
Definition date_ltb (a b : date) : bool := toordinal a <? toordinal b.

End DateTime.

(* ================================================================== *)
(** * [list.sort(key=..., reverse=True)] and [sorted(..., reverse=True)] *)

Module PySort.

Section Stable.
Context {A K : Type}.
(** [a < b] on keys; it may raise. *)
Variable lt : K -> K -> result bool.

(** An element that came earlier goes in front of the first element whose
    key is not greater than its own: descending order, ties in input
    order. *)
Fixpoint insert_desc (x : K * A) (l : list (K * A)) : result (list (K * A)) :=
  match l with
  | [] => Ok [x]
  | y :: l' =>
      c <- lt (fst x) (fst y) ;;
      if c then (r <- insert_desc x l' ;; Ok (y :: r)) else Ok (x :: l)
  end.

Fixpoint sort_keyed (l : list (K * A)) : result (list (K * A)) :=
  match l with
  | [] => Ok []
  | x :: l' => s <- sort_keyed l' ;; insert_desc x s
  end.

(** The keys of all elements are computed first, in list order; then the
    list is put in stable descending key order. *)
Definition sorted_desc (key : A -> result K) (l : list A) : result (list A) :=
  ks <- mapM (fun x => k <- key x ;; Ok (k, x)) l ;;
  s <- sort_keyed ks ;;
  Ok (map snd s).
End Stable.

End PySort.

(* ================================================================== *)
(** * Dedup/Merge Engine: [_deduplicate_and_enhance] *)

Module Merge.
Import PyStr Normalizer.

(** [sum(1 for v in x.values() if v is not None)]. *)
Definition count_non_none (x : record) : Z :=
Z.of_nat (List.length (filter (fun v => negb (is_none v)) (values x))).

(** The key of [comp_group.sort]:
  [(x.get('confidenceScore', 0), count of non-None values)]. *)
Definition group_key (x : record) : value * Z :=
(get_default x "confidenceScore" (VInt 0), count_non_none x).

(** [a < b] on such pairs: the first components decide unless they are
  equal. *)
Definition group_key_lt (a b : value * Z) : result bool :=
if PyNum.eq (fst a) (fst b) then Ok (snd a <? snd b)
else PyNum.lt (fst a) (fst b).

Definition sort_group (comp_group : list record) : result (list record) :=
PySort.sorted_desc group_key_lt (fun x => Ok (group_key x)) comp_group.

(** The first loop: [address_groups], keyed by normalized address in order
  of first appearance. *)
Fixpoint group_by_address (comps : list record) (address_groups : dict (list record))
: result (dict (list record)) :=
match comps with
| [] => Ok address_groups
| comp :: rest =>
    norm_address <- _normalize_address_for_dedup (get comp "address") ;;
    if String.eqb norm_address "" then group_by_address rest address_groups
    else
      group_by_address rest
        (set address_groups norm_address
             (get_default address_groups norm_address [] ++ [comp])%list)
end.

Definition AttributeError_split : exn :=
mk_exn AttributeError "object has no attribute 'split'".
Definition IndexError_list : exn :=
mk_exn IndexError "list index out of range".

(** [comp.get('source', 'Unknown').split(' - ')[0]]. *)
Definition primary_source (comp : record) : result string :=
match get_default comp "source" (VStr "Unknown") with
| VStr s => Ok (split_head " - " s)
| _ => Raise AttributeError_split
end.

(** [all_sources.add(x)] on a set kept as a duplicate-free list. *)
Definition set_add (x : string) (l : list string) : list string :=
if existsb (String.eqb x) l then l else (l ++ [x])%list.

Definition protected_key (key : string) : bool :=
(String.eqb key "source" || String.eqb key "confidenceScore")%bool.

(** [base_comp[key]] is missing or [None]. *)
Definition vacant (base_comp : record) (key : string) : bool :=
match get base_comp key with
| None => true
| Some v => is_none v
end.

(** One turn of [for key, value in other_comp.items()]. *)
Definition fill_field (base_comp : record) (kv : string * value) : record :=
let (key, val) := kv in
if (negb (protected_key key) && vacant base_comp key && negb (is_none val))%bool
then set base_comp key val
else base_comp.

Definition fill_from (base_comp other_comp : record) : record :=
fold_left fill_field other_comp base_comp.

(** [for other_comp in comp_group[1:]]. *)
Fixpoint merge_others (others : list record) (base_comp : record)
  (all_sources : list string) : result (record * list string) :=
match others with
| [] => Ok (base_comp, all_sources)
| other_comp :: rest =>
    p <- primary_source other_comp ;;
    merge_others rest (fill_from base_comp other_comp) (set_add p all_sources)
end.

(** The two statements after the inner loop: the combined [source] label and
  the boosted, capped [confidenceScore]. *)
Definition finish (base_comp : record) (all_sources : list string) : result record :=
let n := Z.of_nat (List.length all_sources) in
let multiple := 1 <? n in
let label :=
  if multiple then VStr ("Multiple Sources - " ++ join ", " (sorted all_sources))
  else get_default base_comp "source" (VStr "Unknown") in
let base1 := set base_comp "source" label in
if multiple then
  boost <- PyNum.mul (VFloat 0.1) (VInt (n - 1)) ;;
  raised <- PyNum.add (get_default base1 "confidenceScore" (VFloat 0.5)) boost ;;
  capped <- PyNum.min raised (VFloat 0.95) ;;
  Ok (set base1 "confidenceScore" capped)
else Ok base1.

(** The body of [for norm_addr, comp_group in address_groups.items()];
  [None] is [continue]. *)
Definition merge_group (comp_group : list record) : result (option record) :=
match comp_group with
| [] => Ok None
| _ :: _ =>
    ordered <- sort_group comp_group ;;
    match ordered with
    | [] => Raise IndexError_list
    | seed :: others =>
        p <- primary_source seed ;;
        st <- merge_others others seed [p] ;;
        r <- finish (fst st) (snd st) ;;
        Ok (Some r)
    end
end.

Fixpoint somes {A} (l : list (option A)) : list A :=
match l with
| [] => []
| Some a :: l' => a :: somes l'
| None :: l' => somes l'
end.

Definition _deduplicate_and_enhance (comps : list record) : result (list record) :=
address_groups <- group_by_address comps [] ;;
merged <- mapM merge_group (values address_groups) ;;
Ok (somes merged).

End Merge.

(* ================================================================== *)
(** * Recency Filter: [_filter_recent_sales] *)

Module Recency.
Import DateTime.

Section Clock.
(** [datetime.now()], as a calendar date. *)
Variable now : date.

Definition is_ValueError (e : exn) : bool :=
  match exn_class e with ValueError => true | _ => false end.

(** [comp['confidenceScore'] = min(comp.get('confidenceScore', 0.5), cap)]. *)
Definition cap_confidence (comp : record) (cap : float) : result record :=
  c <- PyNum.min (get_default comp "confidenceScore" (VFloat 0.5)) (VFloat cap) ;;
  Ok (set comp "confidenceScore" c).

(** One turn of the loop: the record as the turn leaves it (the loop
    updates the score in place) and whether it was appended to
    [recent_comps]. *)
Definition filter_step (cutoff_year : Z) (comp : record) : result (record * bool) :=
  match get comp "saleDate" with
  | Some sale_date_str =>
      if truthy sale_date_str then
        match strptime sale_date_str with
        | Ok d => Ok (comp, cutoff_year <=? year d)
        | Raise e =>
            if is_ValueError e then
              comp' <- cap_confidence comp 0.4 ;; Ok (comp', true)
            else Raise e
        end
      else comp' <- cap_confidence comp 0.3 ;; Ok (comp', true)
  | None => comp' <- cap_confidence comp 0.3 ;; Ok (comp', true)
  end.

Definition kept (l : list (record * bool)) : list record :=
  map fst (filter snd l).

(** [_filter_recent_sales(comps, years_back)]: the returned list. *)
Definition _filter_recent_sales (comps : list record) (years_back : Z)
  : result (list record) :=
  let current_year := year now in
  let cutoff_year := current_year - years_back in
  steps <- mapM (filter_step cutoff_year) comps ;;
  Ok (kept steps).

(** The same call seen from the caller: the argument list after the
    in-place updates, together with the returned list. *)
Definition filter_in_place (comps : list record) (years_back : Z)
  : result (list record * list record) :=
  steps <- mapM (filter_step (year now - years_back)) comps ;;
  Ok (map fst steps, kept steps).
End Clock.

End Recency.

(* ================================================================== *)
(** * Relevance Ranker: [_sort_by_relevance] *)

Module Ranker.
Import PyStr DateTime.

Section Clock.
Variable now : date.

Definition isinstance_int (v : value) : bool :=
  match v with VInt _ => true | _ => false end.
Definition isinstance_int_float (v : value) : bool :=
  match v with VInt _ | VFloat _ => true | _ => false end.

(** [s.isdigit()]. *)
Definition isdigit (s : string) : bool :=
  (negb (String.eqb s "") && String.eqb (filter_chars is_digit s) s)%bool.

(** [s.replace('.', '', 1)]. *)
Fixpoint remove_first_dot (s : string) : string :=
  match s with
  | EmptyString => EmptyString
  | String c s' => if Ascii.eqb c "." then s' else String c (remove_first_dot s')
  end.

(** [int(s)] for a string of decimal digits. *)
Definition Z_of_digits (s : string) : Z := PyNum.digits_value 0 s.

(** [float(v)]. *)
Definition to_float (v : value) : result float :=
  match v with
  | VFloat f => Ok f
  | VInt z => PyNum.float_of_Z z
  | VStr s => PyNum.float_of_str s
  | VNone => Raise PyNum.TypeError_float
  end.

Definition is_ValueError_or_TypeError (e : exn) : bool :=
  match exn_class e with ValueError | TypeError => true | _ => false end.

(** The first block of [_sort_by_relevance]: [subject_size]. *)
Definition subject_size_of (input_data : record) : result (option Z) :=
  match get input_data "subjectSizeSqFt" with
  | Some (VInt z) => Ok (Some z)
  | Some (VFloat f) => z <- PyNum.Z_of_float f ;; Ok (Some z)
  | Some (VStr s) =>
      if isdigit (remove_first_dot s) then
        match (f <- PyNum.float_of_str s ;; PyNum.Z_of_float f) with
        | Ok z => Ok (Some z)
        | Raise e => if Recency.is_ValueError e then Ok None else Raise e
        end
      else Ok None
  | _ => Ok None
  end.

(** The second block: [subject_year]. *)
Definition subject_year_of (input_data : record) : option Z :=
  match get input_data "subjectYearBuilt" with
  | Some (VInt z) => Some z
  | Some (VStr s) => if isdigit s then Some (Z_of_digits s) else None
  | _ => None
  end.

(** Name resolution inside [relevance_score] finds no binding for
    [years_back]: it is neither a local of [relevance_score], nor a local
    of the enclosing [_sort_by_relevance] (whose parameters are [self],
    [comps] and [input_data]), nor a module global, nor a built-in. *)
Definition NameError_years_back : exn :=
  mk_exn NameError "name 'years_back' is not defined".

(** The [try] block of [relevance_score]: the score after it. *)
Definition recency_part (comp : record) (score : float) : result float :=
  if truthy_opt (get comp "saleDate") then
    match strptime (get_default comp "saleDate" VNone) with
    | Ok sale_date =>
        let days_ago := days_between now sale_date in
        (* recency_score = max(0, 1 - (days_ago / (years_back * 365.0))) *)
        Raise NameError_years_back
    | Raise e =>
        if is_ValueError_or_TypeError e then Ok score else Raise e
    end
  else Ok score.

(** The size-similarity block. *)
Definition size_part (subject_size : option Z) (comp : record) (score : float)
  : result float :=
  let comp_size := get_default comp "buildingSizeSqFt" VNone in
  match subject_size with
  | Some ss =>
      positive <- (if (negb (ss =? 0) && truthy comp_size
                       && isinstance_int_float comp_size)%bool
                   then PyNum.lt (VInt 0) comp_size else Ok false) ;;
      if positive then
        diff <- PyNum.sub (VInt ss) comp_size ;;
        adiff <- PyNum.abs diff ;;
        fs <- PyNum.float_of_Z ss ;;
        size_diff_pct <- PyNum.div_float adiff fs ;;
        doubled <- PyNum.mul (VFloat size_diff_pct) (VInt 2) ;;
        rest <- PyNum.sub (VInt 1) doubled ;;
        size_score <- PyNum.max (VInt 0) rest ;;
        weighted <- PyNum.mul size_score (VFloat 0.15) ;;
        w <- PyNum.as_float weighted ;;
        Ok (score + w)%float
      else Ok score
  | None => Ok score
  end.

(** The age-similarity block. *)
Definition age_part (subject_year : option Z) (comp : record) (score : float)
  : result float :=
  let comp_year := get_default comp "yearBuilt" VNone in
  match subject_year, comp_year with
  | Some sy, VInt cy =>
      if (negb (sy =? 0) && negb (cy =? 0) && (1800 <? cy))%bool then
        let year_diff := Z.abs (sy - cy) in
        q <- PyNum.div_float (VInt year_diff) 50 ;;
        rest <- PyNum.sub (VInt 1) (VFloat q) ;;
        age_score <- PyNum.max (VInt 0) rest ;;
        weighted <- PyNum.mul age_score (VFloat 0.15) ;;
        w <- PyNum.as_float weighted ;;
        Ok (score + w)%float
      else Ok score
  | _, _ => Ok score
  end.

Definition relevance_score (subject_size subject_year : option Z) (comp : record)
  : result float :=
  c <- to_float (get_default comp "confidenceScore" (VFloat 0)) ;;
  let score := (c * 0.4)%float in
  score <- recency_part comp score ;;
  score <- size_part subject_size comp score ;;
  age_part subject_year comp score.

Definition float_lt (a b : float) : result bool := Ok (PrimFloat.ltb a b).

Definition _sort_by_relevance (comps : list record) (input_data : record)
  : result (list record) :=
  subject_size <- subject_size_of input_data ;;
  let subject_year := subject_year_of input_data in
  PySort.sorted_desc float_lt (relevance_score subject_size subject_year) comps.
End Clock.

End Ranker.

(* ================================================================== *)
(** * Summary Generator: [_generate_search_summary] *)

Module Summary.
Import PyStr DateTime.

(** Commas between groups of three digits, counted from the right. *)
Fixpoint group_thousands (digits : string) : string :=
match digits with
| EmptyString => EmptyString
| String c rest =>
    let n := String.length rest in
    if (negb (Nat.eqb n 0) && Nat.eqb (Nat.modulo n 3) 0)%bool
    then String c (String "," (group_thousands rest))
    else String c (group_thousands rest)
end.

(** The integer nearest to [m / 2^k], ties to even. *)
Definition round_half_even_shift (m : Z) (k : Z) : Z :=
let d := 2 ^ k in
let q := m / d in
let r := m mod d in
match 2 * r ?= d with
| Lt => q
| Gt => q + 1
| Eq => if Z.even q then q else q + 1
end.

(** [format(f, ',.0f')] for a [float]. *)
Definition format_comma_0f (f : float) : string :=
match Prim2SF f with
| S754_nan => "nan"
| S754_infinity s => if s then "-inf" else "inf"
| S754_zero s => if s then "-0" else "0"
| S754_finite s m e =>
    let n := if 0 <=? e then Z.pos m * 2 ^ e else round_half_even_shift (Z.pos m) (- e) in
    (if s then "-" else "") ++ group_thousands (of_Z n)
end.

(** [f"{v:,.0f}"] for a number. *)
Definition format_price (v : value) : result string :=
f <- PyNum.as_float v ;; Ok (format_comma_0f f).

(** [f"{v}"]. *)
Definition format_value (v : value) : string :=
  match v with
  | VNone => "None"
  | VInt z => of_Z z
  | VFloat f => PyNum.repr_float f
  | VStr s => s
  end.

Definition TypeError_in : exn :=
  mk_exn TypeError "argument is not iterable".

(** The body of the inner source loop: the set after one record. *)
Definition note_source (sources_set : list string) (comp : record)
  : result (list string) :=
  match get_default comp "source" (VStr "Unknown") with
  | VStr source_name =>
      let source_name :=
        if has_substring " - " source_name then split_head " - " source_name
        else source_name in
      if negb (has_substring "Multiple Sources" source_name)
      then Ok (Merge.set_add source_name sources_set)
      else Ok sources_set
  | _ => Raise TypeError_in
  end.

Fixpoint note_sources (sources_set : list string) (comps : list record)
  : result (list string) :=
  match comps with
  | [] => Ok sources_set
  | comp :: rest =>
      s' <- note_source sources_set comp ;; note_sources s' rest
  end.

(** [min(l)] and [max(l)] on a non-empty list: the first least and the
    first greatest element. *)
Fixpoint extremum {A} (better : A -> A -> result bool) (best : A) (l : list A)
  : result A :=
  match l with
  | [] => Ok best
  | x :: l' =>
      c <- better x best ;;
      extremum better (if c then x else best) l'
  end.

Definition date_lt (a b : date) : result bool := Ok (date_ltb a b).
Definition date_gt (a b : date) : result bool := Ok (date_ltb b a).
Definition value_gt (a b : value) : result bool := PyNum.lt b a.

(** The sale-date sentence, when there is one. *)
Definition dates_part (final_comps : list record) : result (list string) :=
  let sale_dates :=
    filter truthy (map (fun comp => get_default comp "saleDate" VNone) final_comps) in
  match sale_dates with
  | [] => Ok []
  | _ :: _ =>
      match mapM strptime sale_dates with
      | Ok [] => Ok []
      | Ok (d :: ds) =>
          earliest <- extremum date_lt d ds ;;
          latest <- extremum date_gt d ds ;;
          Ok [ "Final selected sales range from " ++ strftime_bY earliest
               ++ " to " ++ strftime_bY latest ++ "." ]
      | Raise e => if Recency.is_ValueError e then Ok [] else Raise e
      end
  end.

(** The sale-price sentence, when there is one. *)
Definition prices_part (final_comps : list record) : result (list string) :=
  let prices :=
    filter Ranker.isinstance_int_float
           (map (fun comp => get_default comp "salePrice" VNone) final_comps) in
  match prices with
  | [] => Ok []
  | p :: ps =>
      min_price <- extremum PyNum.lt p ps ;;
      max_price <- extremum value_gt p ps ;;
      lo <- format_price min_price ;;
      hi <- format_price max_price ;;
      Ok [ "Sale prices in final set range from $" ++ lo ++ " to $" ++ hi ++ "." ]
  end.

Definition len_str {A} (l : list A) : string := of_nat (List.length l).

Definition _generate_search_summary (final_comps : list record)
    (input_data : record) (all_raw_comps deduped_comps recent_comps_list : list record)
  : result string :=
  let field k := format_value (get_default input_data k (VStr "N/A")) in
  let summary_parts :=
    [ "Comparable sales search for " ++ field "subjectPropertyType" ++ " in "
        ++ field "subjectCity" ++ ", " ++ field "subjectCounty" ++ ".";
      "Initial search yielded " ++ len_str all_raw_comps ++ " raw entries.";
      "After deduplication & enhancement: " ++ len_str deduped_comps
        ++ " unique properties.";
      "Filtered to " ++ len_str recent_comps_list
        ++ " properties from the last ~3 years." ] in
  match final_comps with
  | [] =>
      Ok (join " " (summary_parts
                      ++ ["No suitable comparable sales found matching all criteria."])%list)
  | _ :: _ =>
      let selected :=
        "Selected top " ++ len_str final_comps ++ " comparables based on relevance." in
      s1 <- note_sources [] all_raw_comps ;;
      s2 <- note_sources s1 deduped_comps ;;
      sources_set <- note_sources s2 final_comps ;;
      let sources :=
        match sources_set with
        | [] => "No specific data sources were successfully identified in the final comps."
        | _ :: _ =>
            "Data sources consulted include: " ++ join ", " (sorted sources_set) ++ "."
        end in
      dates <- dates_part final_comps ;;
      prices <- prices_part final_comps ;;
      Ok (join " " (summary_parts ++ [selected; sources] ++ dates ++ prices)%list)
  end.
End Summary.

(* ================================================================== *)
(** * Fan-out Coordinator: [gather_comparable_sales] *)

Module Coordinator.
Import Normalizer.

(** What a scraper call produces: a list of records, [None], or an
  exception. *)
Definition outcome : Type := result (option (list record)).

(** The return value of [gather_comparable_sales]. *)
Record gathered : Type := mk_gathered {
comparableSales : list record;
searchSummary : string
}.

Definition TypeError_slice : exn :=
mk_exn TypeError "slice indices must be integers or None or have an __index__ method".

(** [l[:n]]. *)
Definition slice_to {A} (l : list A) (n : value) : result (list A) :=
match n with
| VNone => Ok l
| VInt z =>
    if 0 <=? z then Ok (firstn (Z.to_nat z) l)
    else Ok (firstn (List.length l - Z.to_nat (- z)) l)
| _ => Raise TypeError_slice
end.

Section World.
Variable now : DateTime.date.

(** The four back ends, out of scope here:
    [MunicipalAssessorScraperFactory.create_scraper(city, county)
       .search_recent_sales(property_type, years_back=3)],
    the registry lookup followed by
    [MassLandRecordsScraper.search_property_records_by_criteria],
    [MassGISPropertyExtractor().search_properties(city, property_type)] and
    [RealEstateSERPScraper().search_recent_sales(property_type, city, county, state)]. *)
Variable municipal_assessor : value -> value -> value -> outcome.
Variable registry_of_deeds : value -> value -> value -> outcome.
Variable massgis : value -> value -> outcome.
Variable serp : value -> value -> value -> value -> outcome.

(** [try: return await ... except Exception as e: ...; return []]. *)
Definition guarded (call : outcome) : outcome :=
  match call with
  | Ok r => Ok r
  | Raise _ => Ok (Some [])
  end.

Definition _get_municipal_assessor_data (property_type city county : value) : outcome :=
  guarded (municipal_assessor property_type city county).

Definition _get_registry_of_deeds_data (property_type city county subject_address : value)
  : outcome :=
  guarded (registry_of_deeds property_type city county).

Definition _get_massgis_data (city property_type : value) : outcome :=
  guarded (massgis city property_type).

Definition _get_serp_data (property_type city county state : value) : outcome :=
  guarded (serp property_type city county state).

Definition source_names : list string :=
  ["MunicipalAssessor"; "RegistryOfDeeds"; "MassGIS"; "SERP"].

(** The loop over the results of [asyncio.gather] (called with
    [return_exceptions=True]): an exception and an empty or [None] result
    add nothing. *)
Fixpoint collect (results : list outcome) : list record :=
  match results with
  | [] => []
  | Ok (Some l) :: rest => (l ++ collect rest)%list
  | _ :: rest => collect rest
  end.

(** [[c for c in recent_comps
      if not self._is_same_address(c.get('address',''), subject_address)]]. *)
Fixpoint remove_subject (recent_comps : list record) (subject_address : value)
  : result (list record) :=
  match recent_comps with
  | [] => Ok []
  | c :: rest =>
      same <- _is_same_address (Some (get_default c "address" (VStr "")))
                               (Some subject_address) ;;
      rest' <- remove_subject rest subject_address ;;
      Ok (if same then rest' else c :: rest')
  end.

(** From the raw list to the candidates for ranking: the merged records
    as the recency filter leaves them, and those that pass the filter and
    are not the subject property itself. *)
Definition funnel (subject_address : value) (all_comps : list record)
  : result (list record * list record) :=
  unique_comps <- Merge._deduplicate_and_enhance all_comps ;;
  filtered <- Recency.filter_in_place now unique_comps 3 ;;
  let unique_comps := fst filtered in
  let recent_comps := snd filtered in
  recent_comps <- (if truthy subject_address
                   then remove_subject recent_comps subject_address
                   else Ok recent_comps) ;;
  Ok (unique_comps, recent_comps).

(** Everything after the fan-out. *)
Definition pipeline (input_data : record) (subject_address : value)
    (all_comps : list record) : result gathered :=
  st <- funnel subject_address all_comps ;;
  let unique_comps := fst st in
  let recent_comps := snd st in
  ranked <- Ranker._sort_by_relevance now recent_comps input_data ;;
  top_comps <- slice_to ranked (get_default input_data "numberOfComps" (VInt 5)) ;;
  summary <- Summary._generate_search_summary top_comps input_data
               all_comps unique_comps recent_comps ;;
  Ok (mk_gathered top_comps summary).

(** [gather_comparable_sales(input_data)]: the labels of the back ends that
    were called, and the returned document or the exception that escaped. *)
Definition gather_comparable_sales (input_data : record)
  : list string * result gathered :=
  let property_type :=
    get_default input_data "subjectPropertyType" (VStr "Commercial Property") in
  let city := get_default input_data "subjectCity" (VStr "") in
  let county := get_default input_data "subjectCounty" (VStr "") in
  let state := get_default input_data "subjectState" (VStr "MA") in
  let subject_address := get_default input_data "subjectAddress" (VStr "") in
  if (negb (truthy city) || negb (truthy county))%bool then
    ([], Ok (mk_gathered [] "Error: City and County are required."))
  else
    let results :=
      [ _get_municipal_assessor_data property_type city county;
        _get_registry_of_deeds_data property_type city county subject_address;
        _get_massgis_data city property_type;
        _get_serp_data property_type city county state ] in
    (source_names, pipeline input_data subject_address (collect results)).
End World.

End Coordinator.

(* ================================================================== *)
(** * Process entry point: [main] of [enhanced_comp_scraper.py] *)

Module EntryPoint.
Import Coordinator.

(** The document written to the output file. *)
Record document : Type := mk_document {
doc_comparableSales : list record;
doc_searchSummary : string;
doc_error : bool
}.

(** What reading the input file gives. *)
Inductive loaded : Type :=
| FileNotFound
| BadJSON
| ReadError
| Loaded (input_data : record).

(** What the process leaves behind: the document in the output file, if one
  was written, and the exit status. *)
Record run : Type := mk_run {
written : option document;
exit_code : Z
}.

Definition required_fields : list string :=
["subjectCity"; "subjectCounty"; "subjectPropertyType"].

Definition missing_fields_output : document :=
mk_document []
  "Error: Input data missing required fields (subjectCity, subjectCounty, subjectPropertyType)."
  true.

Section World.
Variable now : DateTime.date.
Variable municipal_assessor : value -> value -> value -> outcome.
Variable registry_of_deeds : value -> value -> value -> outcome.
Variable massgis : value -> value -> outcome.
Variable serp : value -> value -> value -> value -> outcome.
(** Whether opening and writing the output file succeeds. *)
Variable output_writable : bool.

Definition write (d : document) : option document :=
  if output_writable then Some d else None.

(** The [try] around the orchestrator call. *)
Definition results_of (g : result gathered) : document :=
  match g with
  | Ok r => mk_document (comparableSales r) (searchSummary r) false
  | Raise e =>
      mk_document []
        ("Critical error during comparable sales gathering: " ++ exn_str e) true
  end.

(** [main] from the reading of the input file on.  What comes before it,
  [parser.parse_args()], returns the two paths or ends the process itself
  (status 2 after a usage message, 0 after [--help]). *)
Definition main (input : loaded) : run :=
  match input with
  | FileNotFound | BadJSON | ReadError => mk_run None 1
  | Loaded input_data =>
      if negb (forallb (contains input_data) required_fields) then
        mk_run (write missing_fields_output) 1
      else
        let g := snd (gather_comparable_sales now municipal_assessor registry_of_deeds
                                              massgis serp input_data) in
        (* the function returns here: no [sys.exit] follows the write *)
        mk_run (write (results_of g)) 0
  end.
End World.

End EntryPoint.



(* ================================================================== *)
(** * Worked inputs *)

Module Scenario.
Import DateTime.

Definition today : date := mk_date 2026 11 4.

Definition subject : record :=
  [ ("subjectCity", VStr "Boston"); ("subjectCounty", VStr "Suffolk");
    ("subjectPropertyType", VStr "Retail") ].

Definition failing : Coordinator.outcome :=
  Raise (mk_exn RuntimeError "Timeout 30000ms exceeded").

Definition nothing3 : value -> value -> value -> Coordinator.outcome :=
  fun _ _ _ => Ok (Some []).
Definition nothing2 : value -> value -> Coordinator.outcome :=
  fun _ _ => Ok (Some []).
Definition nothing4 : value -> value -> value -> value -> Coordinator.outcome :=
  fun _ _ _ _ => Ok (Some []).

(** A sale recorded on 2 March 2025. *)
Definition dated_sale : record :=
  [ ("address", VStr "5 Elm Rd"); ("saleDate", VStr "2025-03-02");
    ("salePrice", VInt 450000); ("source", VStr "MassGIS Property Viewer");
    ("confidenceScore", VFloat 0.8) ].

(** Sales around the three-year cutoff of 2026, and sales without a usable
    date. *)
Definition sale_on (address date : string) (confidence : float) : record :=
  [ ("address", VStr address); ("saleDate", VStr date);
    ("source", VStr "Vision Government Solutions - Boston Assessor");
    ("confidenceScore", VFloat confidence) ].

Definition undated_sale (address : string) (confidence : float) : record :=
  [ ("address", VStr address); ("salePrice", VInt 725000);
    ("source", VStr "Bing Search Result - https://example.com/listing");
    ("confidenceScore", VFloat confidence) ].

(** An undated sale of a building of the given size. *)
Definition sized_sale (address : string) (size : Z) : record :=
  [ ("address", VStr address); ("buildingSizeSqFt", VInt size);
    ("source", VStr "MassGIS Property Viewer"); ("confidenceScore", VFloat 0.8) ].

Definition five_sized_sales : list record :=
  [ sized_sale "10 Elm Rd" 600; sized_sale "20 Elm Rd" 1000;
    sized_sale "30 Elm Rd" 900; sized_sale "40 Elm Rd" 700;
    sized_sale "50 Elm Rd" 800 ].

Definition six_sized_sales : list record :=
  (five_sized_sales ++ [sized_sale "60 Elm Rd" 950])%list.

(** The municipal assessor as the only back end that finds anything. *)
Definition assessor_finds (found : list record) : value -> value -> value -> Coordinator.outcome :=
  fun _ _ _ => Ok (Some found).

(** The subject with a building of 1000 square feet and a requested count. *)
Definition subject_asking_for (count : value) : record :=
  (subject ++ [("subjectSizeSqFt", VInt 1000); ("numberOfComps", count)])%list.

(** Scenario A: the same property reported by two sources, one with the
    price and one with the year of construction, both at confidence 0.6. *)
Definition priced (price : value) (source : string) : record :=
  [ ("address", VStr "123 Main St"); ("salePrice", price);
    ("source", VStr source); ("confidenceScore", VFloat 0.6) ].

Definition built (year_built : value) (source : string) : record :=
  [ ("address", VStr "123 Main Street"); ("yearBuilt", year_built);
    ("source", VStr source); ("confidenceScore", VFloat 0.6) ].

End Scenario.


From Stdlib Require DecimalPos.

(* ================================================================== *)
(** * Further worked inputs *)

Module Cases.

(** Two reports of one property under two spellings of its address, a
    report whose address is a bare street suffix, and a report of another
    property. *)
Definition four_reports : list record :=
  [ Scenario.priced (VInt 450000) "MassGIS Property Viewer";
    Scenario.undated_sale "St." 0.5;
    Scenario.built (VInt 1987) "Bing Search Result - https://example.com/a";
    Scenario.undated_sale "8 Elm Rd" 0.5 ].

(** Sales dated inside and outside a three-year window, one with a date that
    does not parse and one without a date; and what the recency filter
    leaves of them. *)
Definition mixed_dates : list record :=
  [ Scenario.sale_on "1 Ash St" "2025-06-01" 0.9;
    Scenario.sale_on "2 Birch St" "2019-06-01" 0.9;
    Scenario.sale_on "3 Cedar St" "June 2024" 0.9;
    Scenario.undated_sale "4 Dale St" 0.7 ].

Definition mixed_dates_filtered : list record :=
  [ Scenario.sale_on "1 Ash St" "2025-06-01" 0.9;
    set (Scenario.sale_on "3 Cedar St" "June 2024" 0.9) "confidenceScore" (VFloat 0.4);
    set (Scenario.undated_sale "4 Dale St" 0.7) "confidenceScore" (VFloat 0.3) ].

(** Three undated sales of equal confidence: for a subject of unknown size
    and age they score the same. *)
Definition equally_good : list record :=
  [ Scenario.sized_sale "10 Elm Rd" 600; Scenario.sized_sale "20 Elm Rd" 1000;
    Scenario.sized_sale "30 Elm Rd" 900 ].

(** The subject of the scenarios, with its street address. *)
Definition subject_on_elm_road : record :=
  (Scenario.subject ++ [("subjectAddress", VStr "8 ELM ROAD")])%list.

(** Search-engine hits: two for one address, one without an address, one
    for another address. *)
Definition serp_hits : list record :=
  [ [ ("address", VStr "5 Elm Rd"); ("salePrice", VInt 450000);
      ("confidenceScore", VFloat 0.7) ];
    [ ("salePrice", VInt 725000) ];
    [ ("address", VStr "5 ELM RD."); ("salePrice", VNone);
      ("saleDate", VStr "2025-03-02"); ("source", VStr "Bing Search Result");
      ("confidenceScore", VFloat 0.5) ];
    [ ("address", VStr "9 Oak St") ] ].

End Cases.

(* ================================================================== *)
(** * Registry of Deeds: [RegistryLookupService] and [MassLandRecordsScraper]
      of [scripts/orchestrator.py] *)

Module Registry.
Import PyStr.

(** [s.strip()]. *)
Definition strip (s : string) : string := PyNum.lstrip (PyNum.rstrip s).

(** [s.replace(' ', '')]. *)
Definition remove_spaces (s : string) : string :=
  filter_chars (fun c => negb (Ascii.eqb c " ")) s.

Definition upper_char (c : ascii) : ascii :=
  if is_lower c then chr (ord c - 32) else c.

(** [s.capitalize()]. *)
Definition capitalize (s : string) : string :=
  match s with
  | EmptyString => EmptyString
  | String c s' => String (upper_char c) (lower s')
  end.

(** The class attribute [COUNTY_REGISTRY_MAP]: no entry has a ['name'] key. *)
Definition COUNTY_REGISTRY_MAP : dict (dict string) :=
  [ ("suffolk",
     [ ("subdomain", "suffolk"); ("name_on_site", "Suffolk");
       ("search_url_template", "http://www.masslandrecords.com/suffolk/{search_page}") ]);
    ("middlesex south",
     [ ("subdomain", "midlands"); ("name_on_site", "Middlesex South");
       ("search_url_template", "http://www.masslandrecords.com/MiddlesexSouth/{search_page}") ]);
    ("middlesex north",
     [ ("subdomain", "middlesexnorth"); ("name_on_site", "Middlesex North");
       ("search_url_template", "http://www.masslandrecords.com/MiddlesexNorth/{search_page}") ]);
    ("norfolk",
     [ ("subdomain", "norfolk"); ("name_on_site", "Norfolk");
       ("search_url_template", "http://www.masslandrecords.com/Norfolk/{search_page}") ]);
    ("essex south",
     [ ("subdomain", "essexsouth"); ("name_on_site", "Essex South");
       ("search_url_template", "http://www.masslandrecords.com/EssexSouth/{search_page}") ]);
    ("essex north",
     [ ("subdomain", "essexnorth"); ("name_on_site", "Essex North");
       ("search_url_template", "http://www.masslandrecords.com/EssexNorth/{search_page}") ]);
    ("worcester",
     [ ("subdomain", "worcester"); ("name_on_site", "Worcester");
       ("search_url_template", "http://www.masslandrecords.com/Worcester/{search_page}") ]);
    ("plymouth",
     [ ("subdomain", "plymouth"); ("name_on_site", "Plymouth");
       ("search_url_template", "http://www.masslandrecords.com/Plymouth/{search_page}") ]);
    ("bristol",
     [ ("subdomain", "bristol"); ("name_on_site", "Bristol");
       ("search_url_template", "http://www.masslandrecords.com/Bristol/{search_page}") ]);
    ("barnstable",
     [ ("subdomain", "barnstable"); ("name_on_site", "Barnstable");
       ("search_url_template", "http://www.masslandrecords.com/Barnstable/{search_page}") ]);
    ("hampshire",
     [ ("subdomain", "hampshire"); ("name_on_site", "Hampshire");
       ("search_url_template", "http://www.masslandrecords.com/Hampshire/{search_page}") ]);
    ("hampden",
     [ ("subdomain", "hampden"); ("name_on_site", "Hampden");
       ("search_url_template", "http://www.masslandrecords.com/Hampden/{search_page}") ]);
    ("franklin",
     [ ("subdomain", "franklin"); ("name_on_site", "Franklin");
       ("search_url_template", "http://www.masslandrecords.com/Franklin/{search_page}") ]);
    ("berkshire middle",
     [ ("subdomain", "berkshiremiddle"); ("name_on_site", "Berkshire Middle");
       ("search_url_template", "http://www.masslandrecords.com/BerkshireMiddle/{search_page}") ]) ].

(** [registry_info['name']] on a dict without that key. *)
Definition KeyError_name : exn := mk_exn KeyError "'name'".

(** The placeholder returned for a county that is not in the map. *)
Definition fallback (county : string) : dict string :=
  let county_lower := strip (lower county) in
  [ ("name", capitalize county
               ++ " Registry of Deeds (Generic Fallback - Needs Configuration)");
    ("subdomain", remove_spaces county_lower);
    ("name_on_site", capitalize county);
    ("search_url_template",
     "http://www.masslandrecords.com/" ++ remove_spaces county_lower ++ "/") ].

(** [bool(d)] for a dict. *)
Definition truthy_dict {V} (d : dict V) : bool :=
  match d with [] => false | _ :: _ => true end.

(** [find_registry_for_address(city, county)]: the look-up, and for a
    county that is found the log line that reads [registry_info['name']]. *)
Definition find_registry_for_address (city county : value) : result (dict string) :=
  match county with
  | VStr c =>
      let county_lower := strip (lower c) in
      match get COUNTY_REGISTRY_MAP county_lower with
      | Some registry_info =>
          if negb (truthy_dict registry_info) then Ok (fallback c)
          else match get registry_info "name" with
               | Some _ => Ok registry_info
               | None => Raise KeyError_name
               end
      | None => Ok (fallback c)
      end
  | _ => Raise Normalizer.AttributeError_lower
  end.

Section Scraper.
(** [template.format(search_page="SearchCriteria.aspx")]: it raises on
    unbalanced braces and on replacement fields other than [{search_page}].
    The text it produces is only logged. *)
Variable format_search_page : string -> result string.

(** [MassLandRecordsScraper.__init__]: the base search URL. *)
Definition MassLandRecordsScraper (registry_info : dict string) : result string :=
  format_search_page
    (get_default registry_info "search_url_template" "http://www.masslandrecords.com/").

(** [search_property_records_by_criteria]: after the throttler's wait, which
    only takes time, the skeleton returns its empty [found_sales]. *)
Definition search_property_records_by_criteria (base_search_url : string)
    (property_type city : value) : result (list record) :=
  let found_sales := [] in
  Ok found_sales.

(** The body of the [try] in [_get_registry_of_deeds_data]: the back end
    that [Coordinator._get_registry_of_deeds_data] guards. *)
Definition registry_of_deeds (property_type city county : value) : Coordinator.outcome :=
  registry_info <- find_registry_for_address city county ;;
  if negb (truthy_dict registry_info) then Ok (Some [])
  else
    scraper <- MassLandRecordsScraper registry_info ;;
    found <- search_property_records_by_criteria scraper property_type city ;;
    Ok (Some found).
End Scraper.

End Registry.

(* ================================================================== *)
(** * Municipal assessors: the factory of [scripts/municipal_scrapers.py] *)

Module Municipal.
Import PyStr.

Definition MUNICIPALITY_PLATFORM_MAP : dict string :=
  [ ("boston", "BOSTON_SPECIFIC"); ("cambridge", "CAMBRIDGE_SPECIFIC");
    ("weymouth", "VISION"); ("quincy", "PATRIOT"); ("dedham", "VISION") ].

(** The scraper classes; a Vision scraper carries the [base_url] that its
    constructor computes. *)
Inductive scraper : Type :=
| VisionGovScraper (municipality : string) (base_url : string)
| AxisGISScraper (municipality : string)
| PatriotPropertiesScraper (municipality : string)
| BostonAssessorScraper (municipality : string)
| CambridgeAssessorScraper (municipality : string)
| GenericMunicipalScraper (municipality : string).

(** [platform == name] for the result of [MUNICIPALITY_PLATFORM_MAP.get]. *)
Definition platform_is (platform : option string) (name : string) : bool :=
  match platform with
  | Some p => String.eqb p name
  | None => false
  end.

(** [MunicipalAssessorScraperFactory.create_scraper(municipality, county)]. *)
Definition create_scraper (municipality county : value) : result scraper :=
  match municipality with
  | VStr m =>
      let municipality_key := Registry.strip (lower m) in
      let platform := get MUNICIPALITY_PLATFORM_MAP municipality_key in
      if platform_is platform "VISION" then
        let clean_municipality := Registry.remove_spaces (lower m) in
        Ok (VisionGovScraper m ("https://gis.vgsi.com/" ++ clean_municipality ++ "ma/"))
      else if platform_is platform "AXISGIS" then Ok (AxisGISScraper m)
      else if platform_is platform "PATRIOT" then Ok (PatriotPropertiesScraper m)
      else if platform_is platform "BOSTON_SPECIFIC" then Ok (BostonAssessorScraper m)
      else if platform_is platform "CAMBRIDGE_SPECIFIC" then Ok (CambridgeAssessorScraper m)
      else Ok (GenericMunicipalScraper m)
  | _ => Raise Normalizer.AttributeError_lower
  end.

(** [NotImplementedError] is a subclass of [RuntimeError]. *)
Definition NotImplementedError (class_name : string) : exn :=
  mk_exn RuntimeError (class_name ++ ".search_recent_sales is not implemented.").

Section Search.
(** [VisionGovScraper.search_recent_sales], which drives a browser: given
    the base URL and the property type. *)
Variable vision_search : string -> value -> Coordinator.outcome.

(** [scraper.search_recent_sales(property_type, years_back=3)]. *)
Definition search_recent_sales (s : scraper) (property_type : value)
  : Coordinator.outcome :=
  match s with
  | VisionGovScraper _ base_url => vision_search base_url property_type
  | AxisGISScraper _ => Raise (NotImplementedError "AxisGISScraper")
  | PatriotPropertiesScraper _ => Raise (NotImplementedError "PatriotPropertiesScraper")
  | BostonAssessorScraper _ => Raise (NotImplementedError "BostonAssessorScraper")
  | CambridgeAssessorScraper _ => Raise (NotImplementedError "CambridgeAssessorScraper")
  | GenericMunicipalScraper _ => Ok (Some [])
  end.

(** The body of the [try] in [_get_municipal_assessor_data]. *)
Definition municipal_assessor (property_type city county : value) : Coordinator.outcome :=
  s <- create_scraper city county ;;
  search_recent_sales s property_type.
End Search.

(** The [type_map] of [_map_property_type_to_vision_code]. *)
Definition type_map : dict string :=
  [ ("retail", "300"); ("office", "340"); ("industrial", "400");
    ("warehouse", "401"); ("apartment", "111"); ("mixed use", "013");
    ("commercial", "3"); ("residential", "1") ].

(** The loop [for key, code in type_map.items(): if key in pt_lower: return code]. *)
Fixpoint first_contained (items : dict string) (pt_lower : string) : option string :=
  match items with
  | [] => None
  | (key, code) :: rest =>
      if has_substring key pt_lower then Some code else first_contained rest pt_lower
  end.

(** [_map_property_type_to_vision_code(property_type)]. *)
Definition _map_property_type_to_vision_code (property_type : string) : option string :=
  let pt_lower := lower property_type in
  match get type_map pt_lower with
  | Some code => Some code
  | None => first_contained type_map pt_lower
  end.

End Municipal.

(* ================================================================== *)
(** * The parsing helpers of [BaseMunicipalScraper], [scripts/base_scraper.py] *)

Module BaseScraper.
Import PyStr DateTime.

(** [sys.get_int_max_str_digits()], at its default. *)
Definition int_max_str_digits : Z := 4300.

Definition ValueError_int : exn :=
  mk_exn ValueError "invalid literal for int() with base 10".
Definition ValueError_int_limit : exn :=
  mk_exn ValueError "Exceeds the limit (4300 digits) for integer string conversion".

(** [int(s)] for a text of decimal digits, possibly empty. *)
Definition int_of_digits (s : string) : result Z :=
  if String.eqb s "" then Raise ValueError_int
  else if int_max_str_digits <? Z.of_nat (String.length s) then Raise ValueError_int_limit
  else Ok (PyNum.digits_value 0 s).

(** [try: return int(...) except ValueError: return None]. *)
Definition none_on_ValueError {A} (c : result A) : result (option A) :=
  match c with
  | Ok a => Ok (Some a)
  | Raise e => if Recency.is_ValueError e then Ok None else Raise e
  end.

(** [_parse_price(price_text)]: [re.sub(r'[^\d]', '', price_text)] keeps the
    digits. *)
Definition _parse_price (price_text : string) : result (option Z) :=
  none_on_ValueError (int_of_digits (filter_chars is_digit price_text)).

Definition digit_or_comma (c : ascii) : bool := (is_digit c || Ascii.eqb c ",")%bool.

(** The longest prefix of characters of a class. *)
Fixpoint take_while (p : ascii -> bool) (s : string) : string :=
  match s with
  | String c s' => if p c then String c (take_while p s') else EmptyString
  | EmptyString => EmptyString
  end.

(** [re.search(r'([...]+)', s)]: the leftmost run of characters of the
    class, taken as long as it goes. *)
Fixpoint first_run (p : ascii -> bool) (s : string) : option string :=
  match s with
  | String c s' => if p c then Some (take_while p s) else first_run p s'
  | EmptyString => None
  end.

(** [s.replace(',', '')]. *)
Definition remove_commas (s : string) : string :=
  filter_chars (fun c => negb (Ascii.eqb c ",")) s.

(** [_parse_area(area_text)]. *)
Definition _parse_area (area_text : string) : result (option Z) :=
  match first_run digit_or_comma area_text with
  | Some group1 => none_on_ValueError (int_of_digits (remove_commas group1))
  | None => Ok None
  end.

(** [re.search(r'(\d{4})', s)]: the leftmost four digits in a row. *)
Fixpoint first_four_digits (s : string) : option string :=
  match s with
  | String a s1 =>
      match s1 with
      | String b (String c (String d _)) =>
          if (is_digit a && is_digit b && is_digit c && is_digit d)%bool
          then Some (String a (String b (String c (String d EmptyString))))
          else first_four_digits s1
      | _ => None
      end
  | EmptyString => None
  end.

(** [_parse_year(year_text)]. *)
Definition _parse_year (year_text : string) : result (option Z) :=
  match first_four_digits year_text with
  | Some group1 => none_on_ValueError (int_of_digits group1)
  | None => Ok None
  end.

Definition expect_slash {A} (k : string -> option A) (s : string) : option A :=
  match s with
  | String "/" r => k r
  | _ => None
  end.

(** The match of the compiled pattern for ['%m/%d/%Y'] at the start of the
    text: year, month, day and the unconverted remainder. *)
Definition match_mdY (s : string) : option (Z * Z * Z * string) :=
  first_match month_alternatives (fun m r1 =>
    expect_slash (fun r2 =>
      first_match day_alternatives (fun d r3 =>
        expect_slash (fun r4 =>
          match match_year r4 with
          | Some (y, r5) => Some (y, m, d, r5)
          | None => None
          end) r3) r2) r1) s.

Definition ValueError_format_mdY : exn :=
  mk_exn ValueError "time data does not match format '%m/%d/%Y'".

(** [datetime.strptime(s, '%m/%d/%Y')] on a [str]. *)
Definition strptime_mdY (s : string) : result date :=
  match match_mdY s with
  | None => Raise ValueError_format_mdY
  | Some (y, m, d, rest) =>
      if negb (String.eqb rest "") then Raise ValueError_remains
      else if ((1 <=? y) && (d <=? days_in_month y m))%bool
           then Ok (mk_date y m d)
           else Raise ValueError_range
  end.

(** [%m] and [%d] of [strftime]: two digits. *)
Definition two_digit (n : Z) : string :=
  String (chr (48 + Z.to_nat (n / 10))) (String (chr (48 + Z.to_nat (n mod 10))) EmptyString).

(** A number below 10000 in four digits, with leading zeros. *)
Definition four_digit (n : Z) : string :=
  two_digit (n / 100) ++ two_digit (n mod 100).

Section Platform.
(** [strftime] hands [%Y] to the platform, and platforms differ on a year
    below 1000: some write it in four digits with leading zeros, others
    write it as it is.  [pads_year] says which; from the year 1000 on the
    text is the same everywhere. *)
Variable pads_year : bool.

(** [%Y] of [strftime]. *)
Definition year_text (y : Z) : string :=
  if ((y <? 1000) && pads_year)%bool then four_digit y else of_Z y.

(** [d.strftime('%Y-%m-%d')]. *)
Definition strftime_Ymd (d : date) : string :=
  year_text (year d) ++ "-" ++ two_digit (month d) ++ "-" ++ two_digit (day d).

(** [_format_date(date_text)] with the default [input_format]. *)
Definition _format_date (date_text : string) : result (option string) :=
  none_on_ValueError
    (d <- strptime_mdY (Registry.strip date_text) ;; Ok (strftime_Ymd d)).

End Platform.

End BaseScraper.

(* ================================================================== *)
(** * [MassGISPropertyExtractor._matches_property_type],
      [scripts/massgis_extractor.py] *)

Module MassGIS.
Import PyStr.

Definition commercial_keywords : list string :=
  [ "commercial"; "retail"; "office"; "industrial"; "warehouse"; "mixed use";
    "business"; "store"; "shop" ].

(** [any(keyword in text for keyword in keywords)]. *)
Definition any_in (keywords : list string) (text : string) : bool :=
  existsb (fun keyword => has_substring keyword text) keywords.

(** [x in l] for a text and a list of texts. *)
Definition among (x : string) (l : list string) : bool := existsb (String.eqb x) l.

Definition AttributeError_startswith : exn :=
  mk_exn AttributeError "object has no attribute 'startswith'".

(** The block under [if use_code:]. *)
Definition matches_use_code (use_code : value) (target_lower : string) : result bool :=
  match use_code with
  | VStr u =>
      if (String.eqb target_lower "commercial" && String.prefix "3" u)%bool then Ok true
      else if (String.eqb target_lower "industrial" && String.prefix "4" u)%bool then Ok true
      else if (String.eqb target_lower "office"
               && among u ["340"; "341"; "343"; "344"])%bool then Ok true
      else if (String.eqb target_lower "retail"
               && among u ["300"; "301"; "325"; "327"])%bool then Ok true
      else Ok false
  | _ =>
      (* a number has no [startswith], and is [in] no list of texts *)
      if (String.eqb target_lower "commercial" || String.eqb target_lower "industrial")%bool
      then Raise AttributeError_startswith
      else Ok false
  end.

(** [_matches_property_type(property_data, target_type)]. *)
Definition _matches_property_type (property_data : record) (target_type : string)
  : result bool :=
  match get property_data "propertyType" with
  | None => Ok false
  | Some (VStr pt) =>
      let pt_lower := lower pt in
      let target_lower := lower target_type in
      if has_substring target_lower pt_lower then Ok true
      else if (String.eqb target_lower "commercial"
               && any_in commercial_keywords pt_lower)%bool then Ok true
      else if (String.eqb target_lower "industrial"
               && any_in ["industrial"; "mfg"; "manufacturing"; "warehouse"] pt_lower)%bool
      then Ok true
      else if (String.eqb target_lower "office" && has_substring "office" pt_lower)%bool
      then Ok true
      else if (String.eqb target_lower "retail"
               && any_in ["retail"; "store"; "shop"] pt_lower)%bool then Ok true
      else
        let use_code := get_default property_data "useCode" VNone in
        if truthy use_code then matches_use_code use_code target_lower
        else Ok false
  | Some _ => Raise Normalizer.AttributeError_lower
  end.

End MassGIS.

(* ================================================================== *)
(** * [RealEstateSERPScraper]: [_remove_duplicates] and
      [_filter_recent_sales] of [scripts/serp_scraper.py] *)

Module Serp.
Import PyStr DateTime.

(** [re.sub(r'[^\w]', '', address.lower())]. *)
Definition norm_address (address : string) : string :=
  filter_chars is_word_char (lower address).

(** [{**current_sale, **sale}]. *)
Definition merge_dicts (current_sale sale : record) : record :=
  fold_left (fun merged kv => set merged (fst kv) (snd kv)) sale current_sale.

(** [d.get(key) is not None]. *)
Definition has_value (d : record) (key : string) : bool :=
  negb (is_none (get_default d key VNone)).

(** One turn of [for key in list(merged_sale.keys())]. *)
Definition prefer_non_none (current_sale sale merged_sale : record) (key : string)
  : record :=
  if (negb (has_value merged_sale key) && has_value current_sale key)%bool
  then set merged_sale key (get_default current_sale key VNone)
  else if (negb (has_value merged_sale key) && has_value sale key)%bool
  then set merged_sale key (get_default sale key VNone)
  else merged_sale.

(** The merged record that replaces [current_sale]. *)
Definition combine_sales (current_sale sale : record) : record :=
  let merged_sale := merge_dicts current_sale sale in
  fold_left (prefer_non_none current_sale sale) (keys merged_sale) merged_sale.

(** One turn of the loop over [sales_data]. *)
Definition add_sale (unique_sales_map : dict record) (sale : record)
  : result (dict record) :=
  let address := get sale "address" in
  if negb (truthy_opt address) then Ok unique_sales_map
  else
    match address with
    | Some (VStr a) =>
        let norm_address := norm_address a in
        match get unique_sales_map norm_address with
        | None => Ok (set unique_sales_map norm_address sale)
        | Some current_sale =>
            let current_fields := Merge.count_non_none current_sale in
            let new_fields := Merge.count_non_none sale in
            better <- (if current_fields <? new_fields then Ok true
                       else PyNum.lt (get_default current_sale "confidenceScore" (VInt 0))
                                     (get_default sale "confidenceScore" (VInt 0))) ;;
            if better
            then Ok (set unique_sales_map norm_address (combine_sales current_sale sale))
            else Ok unique_sales_map
        end
    | _ => Raise Normalizer.AttributeError_lower
    end.

Fixpoint add_sales (sales_data : list record) (unique_sales_map : dict record)
  : result (dict record) :=
  match sales_data with
  | [] => Ok unique_sales_map
  | sale :: rest =>
      m <- add_sale unique_sales_map sale ;; add_sales rest m
  end.

(** [_remove_duplicates(sales_data)]. *)
Definition _remove_duplicates (sales_data : list record) : result (list record) :=
  m <- add_sales sales_data [] ;; Ok (values m).

Section Clock.
Variable now : date.

(** One turn of the loop of [_filter_recent_sales]: the record as the turn
    leaves it and whether it was appended to [recent_sales]. *)
Definition recent_step (cutoff_year : Z) (sale : record) : result (record * bool) :=
  let sale_date_str := get_default sale "saleDate" VNone in
  if truthy sale_date_str then
    match strptime sale_date_str with
    | Ok d => Ok (sale, cutoff_year <=? year d)
    | Raise e =>
        if Recency.is_ValueError e then
          c <- PyNum.min (get_default sale "confidenceScore" (VFloat 0.5)) (VFloat 0.4) ;;
          Ok (set sale "confidenceScore" c, true)
        else Raise e
    end
  else
    c <- PyNum.min (get_default sale "confidenceScore" (VFloat 0.5)) (VFloat 0.3) ;;
    Ok (set sale "confidenceScore" c, true).

(** [_filter_recent_sales(sales_data, years_back)]: the returned list. *)
Definition _filter_recent_sales (sales_data : list record) (years_back : Z)
  : result (list record) :=
  let current_year := year now in
  let cutoff_year := current_year - years_back in
  steps <- mapM (recent_step cutoff_year) sales_data ;;
  Ok (map fst (filter snd steps)).
End Clock.

End Serp.

(* ================================================================== *)
(** * [normalize_text] of [src/ai/tools/local_gis_extractor.py] *)

Module LocalGIS.
Import PyStr.

(** [normalize_text(text)]: a text in lower case without the white space
    around it, anything else as it is. *)
Definition normalize_text (text : value) : value :=
  match text with
  | VStr s => VStr (Registry.strip (lower s))
  | _ => text
  end.

End LocalGIS.

(* ================================================================== *)
(** * Specification vocabulary *)

Module Spec.
Import PyStr DateTime Coordinator.

(** The eight characters between [#] and [/] that are none of [. , # - /]:
    [$ % & ' ( ) * +]. *)
Definition stray_separator (c : ascii) : bool := in_range 36 43 c.

(** The records a back end contributes: its list, nothing when it raised
    or returned [None]. *)
Definition records_of (o : outcome) : list record :=
  match o with
  | Ok (Some l) => l
  | _ => []
  end.

(** The requested count is an integer, [null] or left out. *)
Definition count_is_integral (input_data : record) : bool :=
  match get_default input_data "numberOfComps" (VInt 5) with
  | VInt _ | VNone => true
  | _ => false
  end.

(** The subject size, if given, converts to an integer. *)
Definition subject_size_readable (input_data : record) : bool :=
  is_ok (Ranker.subject_size_of input_data).

(** The text of the summary when nothing was found. *)
Definition empty_summary (input_data : record) : string :=
  "Comparable sales search for "
  ++ Summary.format_value (get_default input_data "subjectPropertyType" (VStr "N/A"))
  ++ " in "
  ++ Summary.format_value (get_default input_data "subjectCity" (VStr "N/A"))
  ++ ", "
  ++ Summary.format_value (get_default input_data "subjectCounty" (VStr "N/A"))
  ++ ". Initial search yielded 0 raw entries."
  ++ " After deduplication & enhancement: 0 unique properties."
  ++ " Filtered to 0 properties from the last ~3 years."
  ++ " No suitable comparable sales found matching all criteria.".

(** The first value of [key] that is present and not [None] among the
    records, in order. *)
Fixpoint first_non_null (key : string) (l : list record) : option value :=
  match l with
  | [] => None
  | x :: l' =>
      match get x key with
      | Some v => if is_none v then first_non_null key l' else Some v
      | None => first_non_null key l'
      end
  end.

(** A number that is not a NaN. *)
Definition is_number (v : value) : bool :=
  match v with
  | VInt _ => true
  | VFloat f => negb (is_nan f)
  | _ => false
  end.

(** [v <= w] on numbers, exactly. *)
Definition num_leb (v w : value) : bool :=
  match v, w with
  | VInt x, VInt y => x <=? y
  | VFloat x, VFloat y => PrimFloat.leb x y
  | VInt x, VFloat y =>
      (PyNum.is_lt (PyNum.compare_Z_float x y) || PyNum.is_eq (PyNum.compare_Z_float x y))%bool
  | VFloat x, VInt y =>
      (PyNum.is_gt (PyNum.compare_Z_float y x) || PyNum.is_eq (PyNum.compare_Z_float y x))%bool
  | _, _ => false
  end.

(** The score a record carries, 0.5 when it carries none. *)
Definition score_or_half (comp : record) : value :=
  get_default comp "confidenceScore" (VFloat 0.5).

(** [new] is [old] capped at [cap]: one of the two, and above neither. *)
Definition capped_at (cap : float) (old new : value) : Prop :=
  (new = old \/ new = VFloat cap)
  /\ num_leb new (VFloat cap) = true
  /\ num_leb new old = true.

(** What the recency filter makes of one record: the records it contributes
    to the output. *)
Inductive verdict (now : date) (years_back : Z) (comp : record) : list record -> Prop :=
| kept_unchanged (s : string) (d : date) :
    get comp "saleDate" = Some (VStr s) ->
    strptime_str s = Ok d ->
    year now - years_back <= year d ->
    verdict now years_back comp [comp]
| dropped (s : string) (d : date) :
    get comp "saleDate" = Some (VStr s) ->
    strptime_str s = Ok d ->
    year d < year now - years_back ->
    verdict now years_back comp []
| kept_unparsable (s : string) (e : exn) (new : value) :
    get comp "saleDate" = Some (VStr s) ->
    s <> "" ->
    strptime_str s = Raise e ->
    capped_at 0.4 (score_or_half comp) new ->
    verdict now years_back comp [set comp "confidenceScore" new]
| kept_undated (new : value) :
    truthy_opt (get comp "saleDate") = false ->
    capped_at 0.3 (score_or_half comp) new ->
    verdict now years_back comp [set comp "confidenceScore" new].

(** The saleDate is a string, [None] or left out, and the confidenceScore a
    number or left out. *)
Definition dated_as_text (comp : record) : bool :=
  match get comp "saleDate" with
  | None | Some VNone | Some (VStr _) => true
  | _ => false
  end.

Definition scored_by_number (comp : record) : bool :=
  match get comp "confidenceScore" with
  | None => true
  | Some v => is_number v
  end.

(** A number in the interval from 0 to 1. *)
Definition in_unit (v : value) : Prop :=
  num_leb (VFloat 0) v = true /\ num_leb v (VFloat 1) = true.

(** The confidenceScore lies in [0, 1] or is left out. *)
Definition unit_score (comp : record) : Prop :=
  match get comp "confidenceScore" with
  | None => True
  | Some v => in_unit v
  end.

(** The confidenceScore is there and lies in [lo, hi]. *)
Definition score_within (lo hi : float) (comp : record) : Prop :=
  match get comp "confidenceScore" with
  | Some v => num_leb (VFloat lo) v = true /\ num_leb v (VFloat hi) = true
  | None => False
  end.

(** [sources] lists, once each, the primary source labels of the records of
    [group]. *)
Definition sources_of (group : list record) (sources : list string) : Prop :=
  NoDup sources
  /\ forall p, In p sources <-> exists x, In x group /\ Merge.primary_source x = Ok p.

(** A binary64 value that is not a NaN and not below zero. *)
Definition nonneg (x : spec_float) : Prop :=
  match x with
  | S754_zero _ => True
  | S754_infinity s | S754_finite s _ _ => s = false
  | S754_nan => False
  end.

End Spec.


(* ================================================================== *)
(** * Further vocabulary *)

Module Notions.
Import PyStr Normalizer.

(** Every character of [s] satisfies [p]. *)
Fixpoint all_chars (p : ascii -> bool) (s : string) : bool :=
  match s with
  | EmptyString => true
  | String c s' => (p c && all_chars p s')%bool
  end.

(** A character that can occur in a normalized address: no white space, no
    upper-case letter and none of the characters of the separator class. *)
Definition key_char (c : ascii) : bool :=
  (negb (is_space c) && negb (is_upper c) && negb (separator_class c))%bool.

(** A non-empty word of lower-case letters. *)
Definition word (w : string) : bool :=
  (negb (String.eqb w "") && all_chars is_lower w)%bool.

(** The normalized address of a record. *)
Definition address_key (r : record) : result string :=
  _normalize_address_for_dedup (get r "address").

(** The elements of a list without repetition, in order of first
    appearance. *)
Fixpoint distinct (l : list string) : list string :=
  match l with
  | [] => []
  | x :: l' => x :: filter (fun y => negb (String.eqb x y)) (distinct l')
  end.

Definition nonempty (s : string) : bool := negb (String.eqb s "").

(** An entry of [address_groups]: a non-empty key and a non-empty group of
    records that all normalize to it. *)
Definition group_ok (kv : string * list record) : Prop :=
  fst kv <> "" /\ snd kv <> [] /\ Forall (fun r => address_key r = Ok (fst kv)) (snd kv).

(** The normalized address of a record, the empty text when it has none. *)
Definition key_of (r : record) : string :=
  match address_key r with
  | Ok k => k
  | Raise _ => ""
  end.

(** The merge group of a returned record: the input records with its
    normalized address, in input order. *)
Definition merge_group_of (r : record) (comps : list record) : list record :=
  filter (fun x => String.eqb (key_of x) (key_of r)) comps.

(** Records with non-empty, pairwise distinct normalized addresses. *)
Definition distinct_addresses (l : list record) : Prop :=
  NoDup (map key_of l) /\ Forall (fun r => key_of r <> "") l.

(** The municipalities that the platform map sends to the Vision scraper. *)
Definition vision_town (city : value) : bool :=
  match city with
  | VStr m =>
      (String.eqb (Registry.strip (lower m)) "weymouth"
       || String.eqb (Registry.strip (lower m)) "dedham")%bool
  | _ => false
  end.

(** The key under which the SERP scraper files a record: the word
    characters of its lower-cased address; none for a record without a
    non-empty address text. *)
Definition serp_key (r : record) : option string :=
  match get r "address" with
  | Some (VStr a) => if String.eqb a "" then None else Some (Serp.norm_address a)
  | _ => None
  end.

End Notions.

(* ================================================================== *)
(** * Properties *)

Import PyStr Normalizer DateTime Merge Recency Ranker Summary Coordinator EntryPoint Spec.

(** ** Dictionaries *)

Lemma get_set_same {V} (d : dict V) (k : string) (v : V) :
  get (set d k v) k = Some v.
Proof.
  induction d as [|[k' v'] d IH]; simpl.
  - now rewrite String.eqb_refl.
  - destruct (String.eqb k' k) eqn:E; simpl; rewrite E; auto.
Qed.

Lemma get_set_other {V} (d : dict V) (k k' : string) (v : V) :
  k <> k' -> get (set d k v) k' = get d k'.
Proof.
  intros Hne. induction d as [|[k0 v0] d IH]; simpl.
  - destruct (String.eqb k k') eqn:E; auto.
    apply String.eqb_eq in E. contradiction.
  - destruct (String.eqb k0 k) eqn:E; simpl.
    + apply String.eqb_eq in E. subst k0.
      destruct (String.eqb k k') eqn:E'; auto.
      apply String.eqb_eq in E'. contradiction.
    + now rewrite IH.
Qed.

Lemma get_default_set_other {V} (d : dict V) (k k' : string) (v dflt : V) :
  k <> k' -> get_default (set d k v) k' dflt = get_default d k' dflt.
Proof. intros H. unfold get_default. now rewrite get_set_other. Qed.

(** ** Strings *)

Lemma append_assoc (a b c : string) : ((a ++ b) ++ c = a ++ (b ++ c))%string.
Proof. induction a as [|x a IH]; simpl; [reflexivity|now rewrite IH]. Qed.

(** ** Order facts on binary64 numbers *)

Lemma SFcompare_antisym (a b : spec_float) :
  SFcompare a b = option_map CompOpp (SFcompare b a).
Proof.
  destruct a as [sa|sa| |sa ma ea], b as [sb|sb| |sb mb eb]; simpl;
    try reflexivity;
    try (destruct sa; reflexivity); try (destruct sb; reflexivity);
    try (destruct sa, sb; reflexivity).
  assert (H : Pos.compare_cont Eq mb ma = CompOpp (Pos.compare_cont Eq ma mb))
    by (symmetry; apply (Pos.compare_cont_antisym ma mb Eq)).
  destruct sa, sb; simpl; try reflexivity;
    rewrite (Z.compare_antisym eb ea);
    destruct (eb ?= ea); simpl; try reflexivity;
    rewrite H; destruct (Pos.compare_cont Eq ma mb); reflexivity.
Qed.

Lemma not_nan_spec (x : float) : is_nan x = false -> Prim2SF x <> S754_nan.
Proof.
  unfold is_nan. rewrite negb_false_iff, eqb_spec. unfold SFeqb.
  intros H E. rewrite E in H. discriminate.
Qed.

Lemma compare_Z_float_some (z : Z) (x : float) :
  is_nan x = false -> exists c, PyNum.compare_Z_float z x = Some c.
Proof.
  intros H. apply not_nan_spec in H. unfold PyNum.compare_Z_float.
  destruct (Prim2SF x); try congruence; eauto.
Qed.

Lemma not_nan_compare (x y : float) :
  is_nan x = false -> is_nan y = false ->
  exists c, SFcompare (Prim2SF x) (Prim2SF y) = Some c.
Proof.
  unfold is_nan. rewrite !negb_false_iff, !eqb_spec. unfold SFeqb.
  destruct (Prim2SF x) as [sx|sx| |sx mx ex], (Prim2SF y) as [sy|sy| |sy my ey];
    simpl; intros Hx Hy; try discriminate; eauto.
Qed.

Lemma ltb_false_leb (c x : float) :
  is_nan c = false -> is_nan x = false ->
  PrimFloat.ltb c x = false -> PrimFloat.leb x c = true.
Proof.
  intros Hc Hx. rewrite ltb_spec, leb_spec. unfold SFltb, SFleb.
  rewrite (SFcompare_antisym (Prim2SF x) (Prim2SF c)).
  destruct (not_nan_compare c x Hc Hx) as [k ->]. simpl.
  destruct k; simpl; congruence.
Qed.

Lemma ltb_true_leb (c x : float) :
  PrimFloat.ltb c x = true -> PrimFloat.leb c x = true.
Proof.
  rewrite ltb_spec, leb_spec. unfold SFltb, SFleb.
  destruct (SFcompare (Prim2SF c) (Prim2SF x)) as [[| |]|]; congruence.
Qed.

Lemma leb_refl (x : float) : is_nan x = false -> PrimFloat.leb x x = true.
Proof.
  unfold is_nan. rewrite negb_false_iff, eqb_spec, leb_spec. unfold SFeqb, SFleb.
  destruct (SFcompare (Prim2SF x) (Prim2SF x)) as [[| |]|]; congruence.
Qed.

Lemma ltb_asym (a b : float) :
  PrimFloat.ltb a b = true -> PrimFloat.ltb b a = false.
Proof.
  rewrite !ltb_spec. unfold SFltb.
  rewrite (SFcompare_antisym (Prim2SF b) (Prim2SF a)).
  destruct (SFcompare (Prim2SF a) (Prim2SF b)) as [[| |]|]; simpl; congruence.
Qed.


(** ** Signs of binary64 results *)

Lemma shr_1_nonneg (mrs : shr_record) : 0 <= shr_m mrs -> 0 <= shr_m (shr_1 mrs).
Proof.
  destruct mrs as [m r s]. simpl. destruct m as [|p|p]; simpl; try lia.
  - destruct p; simpl; lia.
Qed.

Lemma iter_shr_1_nonneg (p : positive) (mrs : shr_record) :
  0 <= shr_m mrs -> 0 <= shr_m (iter_pos shr_1 p mrs).
Proof.
  revert mrs. induction p as [p IH|p IH|]; simpl; intros mrs H.
  - apply IH, IH. now apply shr_1_nonneg.
  - now apply IH, IH.
  - now apply shr_1_nonneg.
Qed.

Lemma shr_nonneg (mrs : shr_record) (e n : Z) :
  0 <= shr_m mrs -> 0 <= shr_m (fst (shr mrs e n)).
Proof.
  intros H. unfold shr. destruct n; simpl; auto. now apply iter_shr_1_nonneg.
Qed.

Lemma shr_record_of_loc_m (m : Z) (l : location) : shr_m (shr_record_of_loc m l) = m.
Proof. destruct l as [|[| |]]; reflexivity. Qed.

Lemma shr_fexp_nonneg (m e : Z) (l : location) :
  0 <= m -> 0 <= shr_m (fst (shr_fexp prec emax m e l)).
Proof.
  intros H. unfold shr_fexp. apply shr_nonneg. now rewrite shr_record_of_loc_m.
Qed.

Lemma round_nearest_even_nonneg (m : Z) (l : location) :
  0 <= m -> 0 <= round_nearest_even m l.
Proof.
  intros H. unfold round_nearest_even. destruct l as [|[| |]]; try lia.
  destruct (Z.even m); lia.
Qed.

Lemma binary_round_aux_nonneg (m e : Z) (l : location) :
  0 <= m -> nonneg (binary_round_aux prec emax false m e l).
Proof.
  intros H. unfold binary_round_aux.
  pose proof (shr_fexp_nonneg m e l H) as H1.
  destruct (shr_fexp prec emax m e l) as [mrs' e']. simpl in H1.
  pose proof (shr_fexp_nonneg _ e' loc_Exact
                (round_nearest_even_nonneg _ (loc_of_shr_record mrs') H1)) as H2.
  destruct (shr_fexp prec emax (round_nearest_even (shr_m mrs') (loc_of_shr_record mrs')) e' loc_Exact)
    as [mrs'' e'']. simpl in H2.
  destruct (shr_m mrs'') as [|p|p]; simpl; auto; try lia.
  destruct (_ <=? _); exact eq_refl.
Qed.

Lemma binary_round_nonneg (m : positive) (e : Z) :
  nonneg (binary_round prec emax false m e).
Proof.
  unfold binary_round. destruct (shl_align m e _) as [mz ez].
  apply binary_round_aux_nonneg. lia.
Qed.

Lemma binary_normalize_nonneg (m e : Z) (sz : bool) :
  0 <= m -> nonneg (binary_normalize prec emax m e sz).
Proof.
  intros H. unfold binary_normalize. destruct m; simpl; auto; try lia.
  apply binary_round_nonneg.
Qed.

Lemma SFmul_nonneg (x y : spec_float) :
  (exists m e, x = S754_finite false m e) -> nonneg y -> nonneg (SFmul prec emax x y).
Proof.
  intros [m [e ->]] Hy. destruct y as [s|s| |s my ey]; simpl in *; subst; auto.
  apply binary_round_aux_nonneg. lia.
Qed.

Lemma SFadd_nonneg (x y : spec_float) :
  nonneg x -> nonneg y -> nonneg (SFadd prec emax x y).
Proof.
  intros Hx Hy.
  destruct x as [sx|sx| |sx mx ex], y as [sy|sy| |sy my ey]; simpl in *; subst;
    try contradiction; try exact I; try reflexivity.
  - destruct sx, sy; exact I.
  - apply binary_normalize_nonneg. simpl.
    destruct (shl_align mx ex (Z.min ex ey)), (shl_align my ey (Z.min ex ey)). simpl. lia.
Qed.

Lemma Prim2SF_SF2Prim_nonneg (x : spec_float) :
  nonneg x -> nonneg (Prim2SF (SF2Prim x)).
Proof.
  destruct x as [s|s| |s m e]; simpl; intros H; subst; try contradiction.
  - destruct s; vm_compute; exact I.
  - vm_compute. reflexivity.
  - rewrite FloatLemmas.Z_ldexp_spec, of_uint63_spec. unfold SFldexp.
    pose proof (binary_normalize_nonneg (Uint63.to_Z (Uint63.of_Z (Z.pos m))) 0 false) as Hn.
    destruct (binary_normalize prec emax _ 0 false) as [s'|s'| |s' m' e'] eqn:E.
    + exact I.
    + apply Hn. apply Uint63.to_Z_bounded.
    + apply Hn. apply Uint63.to_Z_bounded.
    + assert (Hs : s' = false) by (apply Hn; apply Uint63.to_Z_bounded). subst s'.
      apply binary_round_nonneg.
Qed.

Lemma nearest_float_nonneg (z : Z) : 0 <= z -> nonneg (Prim2SF (PyNum.nearest_float z)).
Proof.
  intros H. apply Prim2SF_SF2Prim_nonneg. now apply binary_normalize_nonneg.
Qed.

Lemma nonneg_not_nan (x : float) : nonneg (Prim2SF x) -> is_nan x = false.
Proof.
  unfold is_nan. rewrite negb_false_iff, eqb_spec. unfold SFeqb.
  destruct (Prim2SF x) as [s|s| |s m e]; simpl; intros H; subst; auto; try contradiction.
  now rewrite Z.compare_refl, Pos.compare_cont_refl.
Qed.

Lemma nonneg_zero_leb (x : float) : nonneg (Prim2SF x) -> PrimFloat.leb 0 x = true.
Proof.
  rewrite leb_spec. change (Prim2SF 0) with (S754_zero false). unfold SFleb.
  destruct (Prim2SF x) as [s|s| |s m e]; simpl; intros H; subst; auto; contradiction.
Qed.

Lemma zero_leb_nonneg (x : float) : PrimFloat.leb 0 x = true -> nonneg (Prim2SF x).
Proof.
  rewrite leb_spec. change (Prim2SF 0) with (S754_zero false). unfold SFleb.
  destruct (Prim2SF x) as [s|s| |s m e]; simpl; intros H; try exact I; try discriminate;
    destruct s; try reflexivity; discriminate.
Qed.

(** ** Exceptions pass through [mapM] *)

Lemma mapM_ok_inv {A B} (f : A -> result B) (l : list A) (ys : list B) :
  mapM f l = Ok ys -> Forall2 (fun x y => f x = Ok y) l ys.
Proof.
  revert ys. induction l as [|x l IH]; simpl; intros ys H.
  - inversion H. constructor.
  - destruct (f x) as [y|e] eqn:Ex; simpl in H; [|discriminate].
    destruct (mapM f l) as [ys'|e] eqn:El; simpl in H; [|discriminate].
    inversion H; subst. constructor; auto.
Qed.

(** ** The entry point and the fan-out *)

Section EntryPointFacts.
Variable now : date.
Variable municipal_assessor : value -> value -> value -> outcome.
Variable registry_of_deeds : value -> value -> value -> outcome.
Variable massgis : value -> value -> outcome.
Variable serp : value -> value -> value -> value -> outcome.

Local Abbreviation gather :=
  (gather_comparable_sales now municipal_assessor registry_of_deeds massgis serp).
Local Abbreviation run_main :=
  (main now municipal_assessor registry_of_deeds massgis serp).

(** C10. An input document that has the three required keys but an empty
    string for subjectCity or subjectCounty passes validation; the
    orchestrator returns the fixed "City and County are required" document
    without calling any back end, and the process writes it with
    error = false and exits with status 0. *)
Theorem empty_city_or_county_is_reported_as_success (input_data : record) :
  forallb (contains input_data) required_fields = true ->
  get input_data "subjectCity" = Some (VStr "")
  \/ get input_data "subjectCounty" = Some (VStr "") ->
  gather input_data
    = ([], Ok (mk_gathered [] "Error: City and County are required."))
  /\ run_main true (Loaded input_data)
    = mk_run (Some (mk_document [] "Error: City and County are required." false)) 0.
Proof.
  intros Hkeys Hempty.
  assert (Hg : gather input_data
               = ([], Ok (mk_gathered [] "Error: City and County are required."))).
  { unfold gather_comparable_sales, get_default.
    destruct Hempty as [H|H]; rewrite H; simpl.
    - reflexivity.
    - now rewrite orb_true_r. }
  split; [exact Hg|].
  unfold main. rewrite Hkeys. simpl negb. cbv iota.
  now rewrite Hg.
Qed.

Lemma collect_guarded (o1 o2 o3 o4 : outcome) :
  collect [guarded o1; guarded o2; guarded o3; guarded o4]
  = (records_of o1 ++ records_of o2 ++ records_of o3 ++ records_of o4)%list.
Proof.
  destruct o1 as [[l1|]|e1], o2 as [[l2|]|e2], o3 as [[l3|]|e3], o4 as [[l4|]|e4];
    simpl; rewrite ?app_nil_r; reflexivity.
Qed.

Lemma summary_of_nothing (input_data : record) :
  _generate_search_summary [] input_data [] [] [] = Ok (empty_summary input_data).
Proof.
  unfold _generate_search_summary, empty_summary. f_equal.
  generalize (format_value (get_default input_data "subjectPropertyType" (VStr "N/A"))).
  generalize (format_value (get_default input_data "subjectCity" (VStr "N/A"))).
  generalize (format_value (get_default input_data "subjectCounty" (VStr "N/A"))).
  intros f3 f2 f1. change (len_str (@nil record)) with "0".
  unfold join, List.app. simpl.
  repeat (rewrite !append_assoc; simpl). reflexivity.
Qed.

Lemma pipeline_on_nothing (input_data : record) (subject_address : value) :
  subject_size_readable input_data = true ->
  count_is_integral input_data = true ->
  pipeline now input_data subject_address []
  = Ok (mk_gathered [] (empty_summary input_data)).
Proof.
  unfold subject_size_readable, count_is_integral, pipeline. intros Hsize Hcount.
  assert (Hslice : slice_to (@nil record) (get_default input_data "numberOfComps" (VInt 5)) = Ok []).
  { destruct (get_default input_data "numberOfComps" (VInt 5)); try discriminate; simpl.
    - reflexivity.
    - destruct (0 <=? z); rewrite ?firstn_nil; reflexivity. }
  assert (Hf : funnel now subject_address [] = Ok ([], [])).
  { unfold funnel.
    change (_deduplicate_and_enhance []) with (Ok (@nil record)). cbn [bind].
    change (filter_in_place now [] 3) with (Ok (@nil record, @nil record)).
    destruct (truthy subject_address); reflexivity. }
  rewrite Hf. cbn [bind fst snd].
  unfold _sort_by_relevance.
  destruct (subject_size_of input_data) as [ss|e]; [|discriminate].
  cbn [bind PySort.sorted_desc mapM PySort.sort_keyed map];
    rewrite Hslice; cbn [bind]; rewrite summary_of_nothing; reflexivity.
Qed.

(** C4. Each of the four back-end calls is guarded on its own: the raw
    list is the concatenation, in the fixed order, of what the calls that
    returned contributed, and a call that raised contributes nothing.  When
    all four raise, the run still completes: no records, error = false, exit
    status 0, and a summary that reports 0 raw entries (for an input whose
    subject size, if given, converts to an integer and whose requested count
    is an integer or null; anything else fails later, in the ranker or the
    slice). *)
Theorem adapter_failures_are_isolated (input_data : record) :
  let property_type :=
    get_default input_data "subjectPropertyType" (VStr "Commercial Property") in
  let city := get_default input_data "subjectCity" (VStr "") in
  let county := get_default input_data "subjectCounty" (VStr "") in
  let state := get_default input_data "subjectState" (VStr "MA") in
  let subject_address := get_default input_data "subjectAddress" (VStr "") in
  let o1 := municipal_assessor property_type city county in
  let o2 := registry_of_deeds property_type city county in
  let o3 := massgis city property_type in
  let o4 := serp property_type city county state in
  truthy city = true ->
  truthy county = true ->
  gather input_data
  = (source_names,
     pipeline now input_data subject_address
       (records_of o1 ++ records_of o2 ++ records_of o3 ++ records_of o4)%list)
  /\ (is_ok o1 = false -> is_ok o2 = false -> is_ok o3 = false -> is_ok o4 = false ->
      forallb (contains input_data) required_fields = true ->
      subject_size_readable input_data = true ->
      count_is_integral input_data = true ->
      run_main true (Loaded input_data)
      = mk_run (Some (mk_document [] (empty_summary input_data) false)) 0).
Proof.
  intros property_type city county state subject_address o1 o2 o3 o4 Hcity Hcounty.
  assert (Hg : gather input_data
               = (source_names,
                  pipeline now input_data subject_address
                    (records_of o1 ++ records_of o2 ++ records_of o3 ++ records_of o4)%list)).
  { unfold gather_comparable_sales.
    fold property_type city county state subject_address.
    rewrite Hcity, Hcounty. cbn [negb orb].
    unfold _get_municipal_assessor_data, _get_registry_of_deeds_data,
      _get_massgis_data, _get_serp_data.
    fold o1 o2 o3 o4. now rewrite collect_guarded. }
  split; [exact Hg|].
  intros H1 H2 H3 H4 Hkeys Hsize Hcount.
  unfold main. rewrite Hkeys. cbn [negb]. rewrite Hg. cbn [snd].
  destruct o1 as [?|e1]; [discriminate|].
  destruct o2 as [?|e2]; [discriminate|].
  destruct o3 as [?|e3]; [discriminate|].
  destruct o4 as [?|e4]; [discriminate|].
  cbn [records_of app].
  now rewrite pipeline_on_nothing.
Qed.

(** C2. When an exception escapes the orchestrator, the entry point writes
    the error-shaped document (no records, the exception text in the
    summary, error = true) and then returns normally: the exit status is 0,
    unlike on the missing-fields path, which ends in [sys.exit(1)]. *)
Theorem critical_error_exits_with_status_zero
    (output_writable : bool) (input_data : record) (e : exn) :
  forallb (contains input_data) required_fields = true ->
  snd (gather input_data) = Raise e ->
  run_main output_writable (Loaded input_data)
    = mk_run (write output_writable
                (mk_document []
                   ("Critical error during comparable sales gathering: " ++ exn_str e)
                   true))
             0.
Proof.
  intros Hkeys Hraise. unfold main. rewrite Hkeys. simpl negb. cbv iota.
  now rewrite Hraise.
Qed.

End EntryPointFacts.

Lemma empty_city_or_county_is_reported_as_success_witness :
  let input_data :=
    [ ("subjectCity", VStr ""); ("subjectCounty", VStr "Suffolk");
      ("subjectPropertyType", VStr "Retail") ] in
  let ma := fun _ _ _ : value => Ok (Some [Scenario.dated_sale]) in
  gather_comparable_sales Scenario.today ma Scenario.nothing3 Scenario.nothing2
      Scenario.nothing4 input_data
    = ([], Ok (mk_gathered [] "Error: City and County are required."))
  /\ main Scenario.today ma Scenario.nothing3 Scenario.nothing2 Scenario.nothing4
       true (Loaded input_data)
    = mk_run (Some (mk_document [] "Error: City and County are required." false)) 0.
Proof.
  apply empty_city_or_county_is_reported_as_success.
  - reflexivity.
  - left. reflexivity.
Defined.

Lemma critical_error_exits_with_status_zero_witness :
  let input_data := (Scenario.subject ++ [("numberOfComps", VStr "5")])%list in
  main Scenario.today Scenario.nothing3 Scenario.nothing3 Scenario.nothing2
       Scenario.nothing4 true (Loaded input_data)
    = mk_run (Some (mk_document []
                      ("Critical error during comparable sales gathering: "
                       ++ exn_str TypeError_slice) true)) 0.
Proof.
  apply (critical_error_exits_with_status_zero Scenario.today Scenario.nothing3
           Scenario.nothing3 Scenario.nothing2 Scenario.nothing4 true).
  - reflexivity.
  - vm_compute. reflexivity.
Defined.

Lemma adapter_failures_are_isolated_witness :
  let fail3 := fun _ _ _ : value => Scenario.failing in
  let fail2 := fun _ _ : value => Scenario.failing in
  let fail4 := fun _ _ _ _ : value => Scenario.failing in
  gather_comparable_sales Scenario.today fail3 fail3 fail2 fail4 Scenario.subject
  = (source_names, pipeline Scenario.today Scenario.subject (VStr "") [])
  /\ main Scenario.today fail3 fail3 fail2 fail4 true (Loaded Scenario.subject)
     = mk_run (Some (mk_document []
         "Comparable sales search for Retail in Boston, Suffolk. Initial search yielded 0 raw entries. After deduplication & enhancement: 0 unique properties. Filtered to 0 properties from the last ~3 years. No suitable comparable sales found matching all criteria."
         false)) 0.
Proof.
  pose proof (adapter_failures_are_isolated Scenario.today
                (fun _ _ _ => Scenario.failing) (fun _ _ _ => Scenario.failing)
                (fun _ _ => Scenario.failing) (fun _ _ _ _ => Scenario.failing)
                Scenario.subject eq_refl eq_refl) as [Hg Hm].
  split.
  - exact Hg.
  - exact (Hm eq_refl eq_refl eq_refl eq_refl eq_refl eq_refl eq_refl).
Defined.

(** With all four back ends raising and the requested count given as the
    text "5", the run does not end in success: the slice raises, and the
    document written reports error = true. *)
Lemma failing_adapters_and_a_text_count_end_in_error :
  let input_data := (Scenario.subject ++ [("numberOfComps", VStr "5")])%list in
  let fail3 := fun _ _ _ : value => Scenario.failing in
  let fail2 := fun _ _ : value => Scenario.failing in
  let fail4 := fun _ _ _ _ : value => Scenario.failing in
  is_ok Scenario.failing = false
  /\ forallb (contains input_data) required_fields = true
  /\ truthy (get_default input_data "subjectCity" (VStr "")) = true
  /\ truthy (get_default input_data "subjectCounty" (VStr "")) = true
  /\ subject_size_readable input_data = true
  /\ count_is_integral input_data = false
  /\ gather_comparable_sales Scenario.today fail3 fail3 fail2 fail4 input_data
     = (source_names, Raise TypeError_slice)
  /\ main Scenario.today fail3 fail3 fail2 fail4 true (Loaded input_data)
     = mk_run (Some (mk_document []
                       ("Critical error during comparable sales gathering: "
                        ++ exn_str TypeError_slice) true)) 0.
Proof.
  cbv zeta.
  split; [reflexivity|]. split; [reflexivity|]. split; [reflexivity|].
  split; [reflexivity|]. split; [reflexivity|]. split; [reflexivity|].
  split; vm_compute; reflexivity.
Qed.


(** ** The ranker on dated records *)

Lemma strptime_str_nonempty (s : string) (d : date) :
  strptime_str s = Ok d -> s <> "".
Proof. intros H ->. discriminate H. Qed.

Lemma recency_part_on_parsed_date (now : date) (comp : record) (score : float)
    (s : string) (d : date) :
  get comp "saleDate" = Some (VStr s) ->
  strptime_str s = Ok d ->
  recency_part now comp score = Raise NameError_years_back.
Proof.
  intros Hget Hparse. unfold recency_part, get_default. rewrite Hget.
  cbn [truthy_opt truthy strptime]. rewrite Hparse.
  destruct (String.eqb s "") eqn:E; [|reflexivity].
  apply String.eqb_eq in E. now apply strptime_str_nonempty in Hparse.
Qed.

Lemma relevance_score_on_parsed_date (now : date) (ss sy : option Z) (comp : record)
    (s : string) (d : date) :
  get comp "saleDate" = Some (VStr s) ->
  strptime_str s = Ok d ->
  exists e, relevance_score now ss sy comp = Raise e.
Proof.
  intros Hget Hparse. unfold relevance_score.
  destruct (to_float (get_default comp "confidenceScore" (VFloat 0))) as [c|e];
    cbn [bind]; [|now exists e].
  rewrite (recency_part_on_parsed_date now comp _ s d Hget Hparse).
  now exists NameError_years_back.
Qed.

(** With a score that converts to a float, the exception is the NameError. *)
Lemma relevance_score_NameError (now : date) (ss sy : option Z) (comp : record)
    (s : string) (d : date) (c : float) :
  to_float (get_default comp "confidenceScore" (VFloat 0)) = Ok c ->
  get comp "saleDate" = Some (VStr s) ->
  strptime_str s = Ok d ->
  relevance_score now ss sy comp = Raise NameError_years_back.
Proof.
  intros Hc Hget Hparse. unfold relevance_score. rewrite Hc. cbn [bind].
  now rewrite (recency_part_on_parsed_date now comp _ s d Hget Hparse).
Qed.

Lemma mapM_raises {A B} (f : A -> result B) (l : list A) (x : A) :
  In x l -> (exists e, f x = Raise e) -> exists e, mapM f l = Raise e.
Proof.
  intros Hin [e He]. destruct (mapM f l) as [ys|e'] eqn:E; [|now exists e'].
  apply mapM_ok_inv in E. exfalso. revert x Hin He.
  induction E as [|a y l ys Hay _ IH]; intros x Hin He; simpl in Hin; [contradiction|].
  destruct Hin as [->|Hin]; [congruence|eauto].
Qed.

(** C1. The ranker does not return on any list that holds a record whose
    saleDate parses as YYYY-MM-DD: computing that record's score reaches the
    recency formula, whose [years_back] is not bound in any enclosing scope,
    so [sorted] is left by an exception instead of yielding the list ordered
    by 0.4 x confidence + 0.3 x recency. *)
Theorem ranker_raises_on_a_parsed_sale_date (now : date) (comps : list record)
    (input_data : record) (comp : record) (s : string) (d : date) :
  In comp comps ->
  get comp "saleDate" = Some (VStr s) ->
  strptime_str s = Ok d ->
  exists e, _sort_by_relevance now comps input_data = Raise e.
Proof.
  intros Hin Hget Hparse. unfold _sort_by_relevance.
  destruct (subject_size_of input_data) as [ss|e]; cbn [bind]; [|now exists e].
  unfold PySort.sorted_desc.
  destruct (mapM_raises
              (fun x => k <- relevance_score now ss (subject_year_of input_data) x ;; Ok (k, x))
              comps comp Hin) as [e He].
  - destruct (relevance_score_on_parsed_date now ss (subject_year_of input_data)
                comp s d Hget Hparse) as [e He].
    exists e. now rewrite He.
  - exists e. now rewrite He.
Qed.

Lemma ranker_raises_on_a_parsed_sale_date_witness :
  exists e, _sort_by_relevance Scenario.today [Scenario.dated_sale] Scenario.subject = Raise e.
Proof.
  apply (ranker_raises_on_a_parsed_sale_date Scenario.today [Scenario.dated_sale]
           Scenario.subject Scenario.dated_sale "2025-03-02" (mk_date 2025 3 2)).
  - left. reflexivity.
  - reflexivity.
  - reflexivity.
Defined.

(** The exception is the NameError, and it turns the whole run into the
    error document. *)
Example dated_sale_ends_in_NameError :
  _sort_by_relevance Scenario.today [Scenario.dated_sale] Scenario.subject
  = Raise NameError_years_back
  /\ main Scenario.today (fun _ _ _ => Ok (Some [Scenario.dated_sale]))
       Scenario.nothing3 Scenario.nothing2 Scenario.nothing4 true
       (Loaded Scenario.subject)
     = mk_run (Some (mk_document []
         "Critical error during comparable sales gathering: name 'years_back' is not defined"
         true)) 0.
Proof. split; vm_compute; reflexivity. Qed.

(** ** The stable descending sort *)

Section SortFacts.
Context {A K : Type}.
Variable lt : K -> K -> result bool.

Lemma insert_desc_perm (x : K * A) (l r : list (K * A)) :
  PySort.insert_desc lt x l = Ok r -> Permutation (x :: l) r.
Proof.
  revert r. induction l as [|y l IH]; simpl; intros r H.
  - inversion H. apply Permutation_refl.
  - destruct (lt (fst x) (fst y)) as [[|]|e]; simpl in H; try discriminate.
    + destruct (PySort.insert_desc lt x l) as [r'|e] eqn:E; simpl in H; [|discriminate].
      inversion H; subst.
      eapply perm_trans; [apply perm_swap|]. apply perm_skip. now apply IH.
    + inversion H. apply Permutation_refl.
Qed.

Lemma sort_keyed_perm (l r : list (K * A)) :
  PySort.sort_keyed lt l = Ok r -> Permutation l r.
Proof.
  revert r. induction l as [|x l IH]; simpl; intros r H.
  - inversion H. apply perm_nil.
  - destruct (PySort.sort_keyed lt l) as [s|e] eqn:E; simpl in H; [|discriminate].
    eapply perm_trans; [apply perm_skip, IH; reflexivity|].
    now apply insert_desc_perm.
Qed.

Lemma decorate_snd (key : A -> result K) (l : list A) (ks : list (K * A)) :
  mapM (fun x => k <- key x ;; Ok (k, x)) l = Ok ks ->
  map snd ks = l /\ Forall (fun p => key (snd p) = Ok (fst p)) ks.
Proof.
  intros H. apply mapM_ok_inv in H.
  induction H as [|x p l ks Hx _ [IH1 IH2]]; simpl; [split; constructor|].
  destruct (key x) as [k|e] eqn:Ek; simpl in Hx; [|discriminate].
  inversion Hx; subst; simpl. split; [now f_equal|].
  constructor; auto.
Qed.

Lemma sorted_desc_perm (key : A -> result K) (l r : list A) :
  PySort.sorted_desc lt key l = Ok r -> Permutation l r.
Proof.
  unfold PySort.sorted_desc. intros H.
  destruct (mapM _ l) as [ks|e] eqn:Ek; simpl in H; [|discriminate].
  destruct (PySort.sort_keyed lt ks) as [s|e] eqn:Es; simpl in H; [|discriminate].
  inversion H; subst.
  apply decorate_snd in Ek as [<- _].
  apply Permutation_map. now apply sort_keyed_perm.
Qed.

End SortFacts.

(** ** The merge of one group *)

Lemma protected_key_false (key : string) :
  protected_key key = false -> key <> "source" /\ key <> "confidenceScore".
Proof.
  unfold protected_key. intros H. apply orb_false_iff in H as [H1 H2].
  apply String.eqb_neq in H1, H2. auto.
Qed.

Lemma fill_field_other_key (base : record) (k k' : string) (v : value) :
  k' <> k -> get (fill_field base (k', v)) k = get base k.
Proof.
  intros Hne. unfold fill_field.
  destruct (negb (protected_key k') && vacant base k' && negb (is_none v))%bool; auto.
  now apply get_set_other.
Qed.

Lemma fill_from_absent_key (other base : record) (k : string) :
  ~ In k (keys other) -> get (fill_from base other) k = get base k.
Proof.
  unfold fill_from. revert base.
  induction other as [|[k' v] other IH]; simpl; intros base Hnin; [reflexivity|].
  rewrite IH by tauto. apply fill_field_other_key. tauto.
Qed.

Lemma fill_from_occupied (other base : record) (k : string) :
  vacant base k = false -> get (fill_from base other) k = get base k.
Proof.
  unfold fill_from. revert base.
  induction other as [|[k' v] other IH]; cbn [fold_left]; intros base Hocc; [reflexivity|].
  destruct (String.eqb k' k) eqn:E.
  - apply String.eqb_eq in E. subst k'.
    assert (Hsame : fill_field base (k, v) = base).
    { unfold fill_field. rewrite Hocc. now rewrite andb_false_r. }
    rewrite Hsame. now apply IH.
  - apply String.eqb_neq in E.
    rewrite IH.
    + now apply fill_field_other_key.
    + unfold vacant in *. now rewrite fill_field_other_key.
Qed.

(** What one member contributes to an unprotected field. *)
Lemma fill_from_spec (other base : record) (k : string) :
  wf other ->
  protected_key k = false ->
  get (fill_from base other) k
  = if vacant base k
    then match get other k with
         | Some v => if is_none v then get base k else Some v
         | None => get base k
         end
    else get base k.
Proof.
  intros Hwf Hk. destruct (vacant base k) eqn:Hvac;
    [|now apply fill_from_occupied].
  revert base Hvac. unfold wf in Hwf.
  induction other as [|[k' v] other IH]; intros base Hvac; [reflexivity|].
  simpl in Hwf. inversion Hwf as [|? ? Hnin Hnd]; subst.
  change (fill_from base ((k', v) :: other))
    with (fill_from (fill_field base (k', v)) other).
  simpl get. destruct (String.eqb k' k) eqn:E.
  - apply String.eqb_eq in E. subst k'.
    unfold fill_field. rewrite Hk, Hvac. cbn [negb andb].
    destruct (is_none v) eqn:Hv; cbn [negb].
    + now apply fill_from_absent_key.
    + rewrite fill_from_absent_key by assumption. apply get_set_same.
  - apply String.eqb_neq in E.
    pose proof (fill_field_other_key base k k' v E) as Hg.
    rewrite IH; auto.
    + unfold fill_field in Hg. now rewrite Hg.
    + change (vacant (fill_field base (k', v)) k = true).
      unfold vacant in Hvac |- *. now rewrite Hg.
Qed.

Lemma vacant_spec (base : record) (k : string) :
  vacant base k = false <-> exists v, get base k = Some v /\ v <> VNone.
Proof.
  unfold vacant. destruct (get base k) as [v|]; split.
  - intros H. exists v. split; auto. intros ->. discriminate.
  - intros [v' [Hv Hn]]. inversion Hv; subst. destruct v'; auto. congruence.
  - discriminate.
  - intros [v [H _]]. discriminate.
Qed.

Lemma merge_others_spec (others : list record) (base : record) (srcs : list string)
    (b : record) (s : list string) (k : string) :
  Forall wf others ->
  protected_key k = false ->
  merge_others others base srcs = Ok (b, s) ->
  get b k
  = if vacant base k
    then match first_non_null k others with
         | Some v => Some v
         | None => get base k
         end
    else get base k.
Proof.
  intros Hwf Hk. revert base srcs.
  induction Hwf as [|o others Ho _ IH]; intros base srcs H; simpl in H.
  - inversion H; subst. now destruct (vacant b k).
  - destruct (primary_source o) as [p|e]; simpl in H; [|discriminate].
    apply IH in H. rewrite H. clear H IH.
    pose proof (fill_from_spec o base k Ho Hk) as Hf.
    assert (Hv' : vacant (fill_from base o) k
                  = match get (fill_from base o) k with
                    | None => true
                    | Some v => is_none v
                    end) by reflexivity.
    rewrite Hv', Hf. clear Hv' Hf. cbn [first_non_null].
    destruct (vacant base k) eqn:Hvac; unfold vacant in Hvac.
    + destruct (get o k) as [v|]; [destruct (is_none v) eqn:Hv|].
      * now rewrite Hvac.
      * now rewrite Hv.
      * now rewrite Hvac.
    + now rewrite Hvac.
Qed.

Lemma finish_keeps_fields (base : record) (srcs : list string) (r : record) (k : string) :
  protected_key k = false ->
  finish base srcs = Ok r ->
  get r k = get base k.
Proof.
  intros Hk H. apply protected_key_false in Hk as [Hs Hc].
  unfold finish in H.
  destruct (1 <? Z.of_nat (List.length srcs)).
  - destruct (PyNum.mul _ _) as [boost|e]; simpl in H; [|discriminate].
    destruct (PyNum.add _ _) as [raised|e]; simpl in H; [|discriminate].
    destruct (PyNum.min _ _) as [capped|e]; simpl in H; [|discriminate].
    inversion H; subst.
    rewrite !get_set_other; auto.
  - inversion H; subst. rewrite get_set_other; auto.
Qed.

Lemma first_non_null_some (k : string) (l : list record) (v : value) :
  first_non_null k l = Some v ->
  exists member, In member l /\ get member k = Some v /\ v <> VNone.
Proof.
  induction l as [|x l IH]; simpl; [discriminate|].
  destruct (get x k) as [w|] eqn:E.
  - destruct (is_none w) eqn:Hw.
    + intros H. destruct (IH H) as [m [Hin Hm]]. exists m. auto.
    + intros H. inversion H; subst. exists x. repeat split; auto.
      intros ->. discriminate.
  - intros H. destruct (IH H) as [m [Hin Hm]]. exists m. auto.
Qed.

(** C9. In a merge group, for every field other than source and
    confidenceScore: a non-null value of the seed is the merged value, and
    the merged value differs from the seed's only when the seed's is absent
    or null, in which case it is the non-null value of a later member (the
    first one that has one). *)
Theorem seed_fields_are_never_overwritten (comp_group : list record)
    (seed : record) (others : list record) (merged : record) (key : string) :
  Forall wf comp_group ->
  sort_group comp_group = Ok (seed :: others) ->
  merge_group comp_group = Ok (Some merged) ->
  protected_key key = false ->
  (forall v, get seed key = Some v -> v <> VNone -> get merged key = Some v)
  /\ (get merged key <> get seed key ->
      vacant seed key = true
      /\ exists member v, In member others /\ get member key = Some v
                          /\ v <> VNone /\ get merged key = Some v)
  /\ get merged key
     = if vacant seed key
       then match first_non_null key others with
            | Some v => Some v
            | None => get seed key
            end
       else get seed key.
Proof.
  intros Hwf Hsort Hmerge Hkey.
  assert (Hwf' : Forall wf others).
  { pose proof (sorted_desc_perm _ _ _ _ Hsort) as Hp.
    pose proof (Permutation_Forall Hp Hwf) as Hall. now inversion Hall. }
  assert (Hspec : get merged key
                  = if vacant seed key
                    then match first_non_null key others with
                         | Some v => Some v
                         | None => get seed key
                         end
                    else get seed key).
  { unfold merge_group in Hmerge. destruct comp_group as [|c cs].
    - discriminate.
    - rewrite Hsort in Hmerge. cbn [bind] in Hmerge.
      destruct (primary_source seed) as [p|e]; cbn [bind] in Hmerge; [|discriminate].
      destruct (merge_others others seed [p]) as [[b s]|e] eqn:Hm;
        cbn [bind fst snd] in Hmerge; [|discriminate].
      destruct (finish b s) as [r|e] eqn:Hf; cbn [bind] in Hmerge; [|discriminate].
      inversion Hmerge; subst r.
      rewrite (finish_keeps_fields b s merged key Hkey Hf).
      exact (merge_others_spec others seed [p] b s key Hwf' Hkey Hm). }
  split; [|split; [|exact Hspec]].
  - intros v Hv Hnn. rewrite Hspec.
    assert (Hocc : vacant seed key = false) by (apply vacant_spec; eauto).
    now rewrite Hocc.
  - intros Hdiff. rewrite Hspec in Hdiff |- *.
    destruct (vacant seed key); [|congruence].
    split; [reflexivity|].
    destruct (first_non_null key others) as [v|] eqn:Hfn; [|congruence].
    destruct (first_non_null_some key others v Hfn) as [m [Hin [Hm Hnn]]].
    exists m, v. auto.
Qed.

Lemma seed_fields_are_never_overwritten_witness :
  let seed := Scenario.priced (VInt 500000) "Vision Government Solutions - Boston Assessor" in
  let other := Scenario.built (VInt 1990) "MassGIS Property Viewer" in
  let later := Scenario.priced (VInt 480000) "Bing Search Result - example" in
  let merged :=
    [ ("address", VStr "123 Main St"); ("salePrice", VInt 500000);
      ("source", VStr "Multiple Sources - Bing Search Result, MassGIS Property Viewer, Vision Government Solutions");
      ("confidenceScore", VFloat 0.8); ("yearBuilt", VInt 1990) ] in
  get merged "salePrice" = Some (VInt 500000)
  /\ get merged "yearBuilt" = first_non_null "yearBuilt" [other; later].
Proof.
  intros seed other later merged.
  assert (Hwf : Forall wf [seed; other; later]).
  { repeat constructor; simpl; intuition discriminate. }
  split.
  - apply (proj1 (seed_fields_are_never_overwritten [seed; other; later] seed
                    [other; later] merged "salePrice" Hwf eq_refl eq_refl eq_refl)).
    + reflexivity.
    + discriminate.
  - exact (proj2 (proj2 (seed_fields_are_never_overwritten [seed; other; later] seed
                           [other; later] merged "yearBuilt" Hwf eq_refl eq_refl eq_refl))).
Defined.

(** ** Scenario A: two sources, one property *)

Lemma ltb_total (a b : string) : a <> b -> PyStr.ltb a b = negb (PyStr.ltb b a).
Proof.
  revert b. induction a as [|x a IH]; intros [|y b] Hne; simpl; try reflexivity.
  - congruence.
  - destruct (Nat.ltb (ord x) (ord y)) eqn:E1, (Nat.ltb (ord y) (ord x)) eqn:E2;
      try reflexivity.
    + apply Nat.ltb_lt in E1, E2. lia.
    + apply Nat.ltb_ge in E1, E2.
      assert (Heq : x = y).
      { assert (H : ord x = ord y) by lia. unfold ord in H.
        rewrite <- (ascii_nat_embedding x), <- (ascii_nat_embedding y). now rewrite H. }
      subst y. apply IH. congruence.
Qed.

Lemma sorted_pair (a b : string) :
  a <> b ->
  PyStr.sorted [a; b] = (if PyStr.ltb a b then [a; b] else [b; a])
  /\ PyStr.sorted [b; a] = (if PyStr.ltb a b then [a; b] else [b; a]).
Proof.
  intros Hne. unfold PyStr.sorted. simpl.
  rewrite (ltb_total b a) by congruence. destruct (PyStr.ltb a b); auto.
Qed.

Section TwoSources.
Variables (price year_built : value) (srcA srcB : string).
Hypothesis Hprice : price <> VNone.
Hypothesis Hyear : year_built <> VNone.
Hypothesis Hsrc : split_head " - " srcA <> split_head " - " srcB.

Local Abbreviation a := (Scenario.priced price srcA).
Local Abbreviation b := (Scenario.built year_built srcB).
Local Abbreviation pa := (split_head " - " srcA).
Local Abbreviation pb := (split_head " - " srcB).

Lemma group_key_priced : group_key a = (VFloat 0.6, 4).
Proof. unfold group_key, count_non_none. destruct price; try contradiction; reflexivity. Qed.

Lemma group_key_built : group_key b = (VFloat 0.6, 4).
Proof. unfold group_key, count_non_none. destruct year_built; try contradiction; reflexivity. Qed.

Lemma sort_group_keeps_input_order (x y : record) :
  group_key x = (VFloat 0.6, 4) -> group_key y = (VFloat 0.6, 4) ->
  sort_group [x; y] = Ok [x; y].
Proof.
  intros Hx Hy. unfold sort_group, PySort.sorted_desc. cbn [mapM bind].
  rewrite Hx, Hy. reflexivity.
Qed.

Lemma set_add_distinct (x y : string) : x <> y -> set_add y [x] = [x; y].
Proof.
  intros Hne. unfold set_add. cbn [existsb].
  destruct (String.eqb y x) eqn:E; [|reflexivity].
  apply String.eqb_eq in E. congruence.
Qed.

Lemma fill_priced_from_built : fill_from a b = (a ++ [("yearBuilt", year_built)])%list.
Proof. unfold fill_from. cbn [fold_left]. destruct year_built; try contradiction; reflexivity. Qed.

Lemma fill_built_from_priced : fill_from b a = (b ++ [("salePrice", price)])%list.
Proof. unfold fill_from. cbn [fold_left]. destruct price; try contradiction; reflexivity. Qed.

(** The merge of the pair, whichever record comes first. *)
Lemma merge_pair (seed other : record) (ps po : string) (extra : string * value) :
  sort_group [seed; other] = Ok [seed; other] ->
  primary_source seed = Ok ps ->
  primary_source other = Ok po ->
  ps <> po ->
  fill_from seed other = (seed ++ [extra])%list ->
  get_default (set (seed ++ [extra])%list "source" VNone) "confidenceScore" (VFloat 0.5)
  = VFloat 0.6 ->
  merge_group [seed; other]
  = Ok (Some (set (set (seed ++ [extra])%list "source"
                     (VStr ("Multiple Sources - " ++ join ", " (sorted [ps; po]))))
                "confidenceScore" (VFloat 0.7))).
Proof.
  intros Hsort Hps Hpo Hne Hfill Hconf.
  unfold merge_group. rewrite Hsort. cbn [bind]. rewrite Hps. cbn [bind merge_others].
  rewrite Hpo. cbn [bind fst snd]. rewrite Hfill, (set_add_distinct ps po Hne).
  unfold finish. cbn [List.length]. change (1 <? Z.of_nat 2) with true. cbv iota.
  change (PyNum.mul (VFloat 0.1) (VInt (Z.of_nat 2 - 1))) with (Ok (VFloat 0.1)).
  cbn [bind].
  assert (Hc : forall v, get_default (set (seed ++ [extra])%list "source" v)
                           "confidenceScore" (VFloat 0.5) = VFloat 0.6).
  { intros v. rewrite get_default_set_other by discriminate.
    rewrite get_default_set_other in Hconf by discriminate. exact Hconf. }
  rewrite Hc.
  change (PyNum.add (VFloat 0.6) (VFloat 0.1)) with (Ok (VFloat 0.7)).
  cbn [bind].
  change (PyNum.min (VFloat 0.7) (VFloat 0.95)) with (Ok (VFloat 0.7)).
  reflexivity.
Qed.

Lemma dedup_pair (x y : record) :
  get x "address" = Some (VStr "123 Main St") \/ get x "address" = Some (VStr "123 Main Street") ->
  get y "address" = Some (VStr "123 Main St") \/ get y "address" = Some (VStr "123 Main Street") ->
  _deduplicate_and_enhance [x; y]
  = (r <- merge_group [x; y] ;; Ok (somes [r])).
Proof.
  intros Hx Hy. unfold _deduplicate_and_enhance. cbn [group_by_address].
  assert (Hn : forall r, get r "address" = Some (VStr "123 Main St")
                         \/ get r "address" = Some (VStr "123 Main Street") ->
                         _normalize_address_for_dedup (get r "address") = Ok "123main").
  { intros r [H|H]; rewrite H; reflexivity. }
  rewrite (Hn x Hx), (Hn y Hy). cbn [bind].
  change (String.eqb "123main" "") with false. cbv iota.
  cbn [set get_default get List.app String.eqb Ascii.eqb Bool.eqb values map snd mapM bind].
  destruct (merge_group [x; y]); reflexivity.
Qed.

End TwoSources.

(** C6. Two records for "123 Main St" and "123 Main Street", one with a
    salePrice and one with a yearBuilt, both at confidence 0.6 and from
    different primary sources, come out of the merge as exactly one record
    that has both fields, the source label "Multiple Sources - " followed by
    the two source names in ascending order joined by ", ", and
    confidenceScore 0.7; the order of the two records in the input does not
    matter. *)
Theorem two_sources_merge_into_one_record (price year_built : value)
    (srcA srcB : string) (comps : list record) :
  price <> VNone ->
  year_built <> VNone ->
  split_head " - " srcA <> split_head " - " srcB ->
  comps = [Scenario.priced price srcA; Scenario.built year_built srcB]
  \/ comps = [Scenario.built year_built srcB; Scenario.priced price srcA] ->
  exists merged,
    _deduplicate_and_enhance comps = Ok [merged]
    /\ get merged "salePrice" = Some price
    /\ get merged "yearBuilt" = Some year_built
    /\ get merged "source"
       = Some (VStr ("Multiple Sources - "
                     ++ (if PyStr.ltb (split_head " - " srcA) (split_head " - " srcB)
                         then split_head " - " srcA ++ ", " ++ split_head " - " srcB
                         else split_head " - " srcB ++ ", " ++ split_head " - " srcA)))
    /\ get merged "confidenceScore" = Some (VFloat 0.7).
Proof.
  intros Hprice Hyear Hsrc Hcomps.
  destruct (sorted_pair _ _ Hsrc) as [Hs1 Hs2].
  assert (Hjoin : join ", " (if PyStr.ltb (split_head " - " srcA) (split_head " - " srcB)
                             then [split_head " - " srcA; split_head " - " srcB]
                             else [split_head " - " srcB; split_head " - " srcA])
                  = if PyStr.ltb (split_head " - " srcA) (split_head " - " srcB)
                    then split_head " - " srcA ++ ", " ++ split_head " - " srcB
                    else split_head " - " srcB ++ ", " ++ split_head " - " srcA).
  { destruct (PyStr.ltb _ _); reflexivity. }
  destruct Hcomps as [-> | ->].
  - rewrite dedup_pair by (cbn; auto).
    rewrite (merge_pair _ _ (split_head " - " srcA) (split_head " - " srcB)
               ("yearBuilt", year_built)); try reflexivity; try assumption.
    + eexists. split; [reflexivity|]. rewrite Hs1, Hjoin. repeat split; reflexivity.
    + apply sort_group_keeps_input_order;
        [now apply group_key_priced | now apply group_key_built].
    + now apply fill_priced_from_built.
  - rewrite dedup_pair by (cbn; auto).
    rewrite (merge_pair _ _ (split_head " - " srcB) (split_head " - " srcA)
               ("salePrice", price)); try reflexivity; try congruence.
    + eexists. split; [reflexivity|]. rewrite Hs2, Hjoin. repeat split; reflexivity.
    + apply sort_group_keeps_input_order;
        [now apply group_key_built | now apply group_key_priced].
    + now apply fill_built_from_priced.
Qed.

Lemma two_sources_merge_into_one_record_witness :
  exists merged,
    _deduplicate_and_enhance
      [ Scenario.priced (VInt 500000) "Vision Government Solutions - Boston Assessor";
        Scenario.built (VInt 1990) "MassGIS Property Viewer" ]
    = Ok [merged]
    /\ get merged "salePrice" = Some (VInt 500000)
    /\ get merged "yearBuilt" = Some (VInt 1990)
    /\ get merged "source"
       = Some (VStr "Multiple Sources - MassGIS Property Viewer, Vision Government Solutions")
    /\ get merged "confidenceScore" = Some (VFloat 0.7).
Proof.
  exact (two_sources_merge_into_one_record (VInt 500000) (VInt 1990)
           "Vision Government Solutions - Boston Assessor" "MassGIS Property Viewer" _
           ltac:(discriminate) ltac:(discriminate) ltac:(discriminate)
           (or_introl eq_refl)).
Defined.

(** ** The recency filter *)

Lemma min_capped (old : value) (cap : float) :
  is_number old = true -> is_nan cap = false ->
  exists new, PyNum.min old (VFloat cap) = Ok new /\ capped_at cap old new.
Proof.
  intros Hold Hcap. unfold PyNum.min, capped_at.
  destruct old as [|z|x|s]; try discriminate; cbn [PyNum.lt bind].
  - destruct (compare_Z_float_some z cap Hcap) as [c Hc].
    destruct (PyNum.is_gt (PyNum.compare_Z_float z cap)) eqn:E; eexists; split; try reflexivity.
    + cbn [num_leb]. rewrite E, (leb_refl cap Hcap). auto.
    + cbn [num_leb]. rewrite Hc in E |- *. rewrite Z.leb_refl.
      destruct c; simpl in *; auto; discriminate.
  - cbn [is_number] in Hold. apply negb_true_iff in Hold.
    destruct (PrimFloat.ltb cap x) eqn:E; eexists; split; try reflexivity; cbn [num_leb].
    + rewrite (leb_refl cap Hcap), (ltb_true_leb cap x E). auto.
    + rewrite (ltb_false_leb cap x Hcap Hold E), (leb_refl x Hold). auto.
Qed.

Lemma cap_confidence_capped (comp : record) (cap : float) :
  scored_by_number comp = true -> is_nan cap = false ->
  exists new, cap_confidence comp cap = Ok (set comp "confidenceScore" new)
              /\ capped_at cap (score_or_half comp) new.
Proof.
  intros Hs Hcap. unfold cap_confidence.
  assert (Hn : is_number (score_or_half comp) = true).
  { unfold scored_by_number in Hs. unfold score_or_half, get_default.
    destruct (get comp "confidenceScore"); [assumption|reflexivity]. }
  destruct (min_capped _ cap Hn Hcap) as [new [Hmin Hc]].
  exists new. unfold score_or_half in *. rewrite Hmin. auto.
Qed.

Lemma filter_step_verdict (now : date) (years_back : Z) (comp : record) :
  dated_as_text comp = true -> scored_by_number comp = true ->
  exists comp' keep,
    filter_step (year now - years_back) comp = Ok (comp', keep)
    /\ verdict now years_back comp (if keep then [comp'] else []).
Proof.
  intros Hd Hs. unfold filter_step. unfold dated_as_text in Hd.
  destruct (cap_confidence_capped comp 0.3 Hs eq_refl) as [n3 [H3 C3]].
  destruct (cap_confidence_capped comp 0.4 Hs eq_refl) as [n4 [H4 C4]].
  destruct (get comp "saleDate") as [[| | |s]|] eqn:Hget; try discriminate.
  - cbn [truthy]. rewrite H3. cbn [bind]. do 2 eexists. split; [reflexivity|].
    apply kept_undated; [now rewrite Hget|assumption].
  - cbn [truthy]. destruct (String.eqb s "") eqn:Es; cbn [negb].
    + rewrite H3. cbn [bind]. do 2 eexists. split; [reflexivity|].
      apply kept_undated; [rewrite Hget; cbn; now rewrite Es|assumption].
    + apply String.eqb_neq in Es. cbn [strptime].
      destruct (strptime_str s) as [d|e] eqn:Hp.
      * do 2 eexists. split; [reflexivity|].
        destruct (year now - years_back <=? year d) eqn:Hy.
        -- apply Z.leb_le in Hy. now apply (kept_unchanged now years_back comp s d).
        -- apply Z.leb_gt in Hy. now apply (dropped now years_back comp s d).
      * assert (Hv : is_ValueError e = true).
        { unfold strptime_str in Hp.
          destruct (match_Ymd s) as [[[[y m] d] rest]|]; [|now inversion Hp].
          destruct (negb (String.eqb rest "")); [now inversion Hp|].
          destruct ((1 <=? y) && (d <=? days_in_month y m))%bool; [discriminate|now inversion Hp]. }
        rewrite Hv, H4. cbn [bind]. do 2 eexists. split; [reflexivity|].
        now apply (kept_unparsable now years_back comp s e n4).
  - rewrite H3. cbn [bind]. do 2 eexists. split; [reflexivity|].
    apply kept_undated; [now rewrite Hget|assumption].
Qed.

(** C5. The recency filter, record by record and in input order: a record
    whose saleDate parses with a year not before currentYear - yearsBack is
    kept as it is; one whose saleDate parses with an earlier year is
    dropped; one with a non-empty saleDate that does not parse is kept with
    its confidenceScore capped at 0.4 (lowered to 0.4 or left alone, never
    raised above the score it had, 0.5 standing for a missing score); one
    with no saleDate (missing, null or empty) is kept with its
    confidenceScore capped at 0.3 in the same way. *)
Theorem recency_filter_verdicts (now : date) (years_back : Z) (comps : list record) :
  Forall (fun comp => dated_as_text comp = true /\ scored_by_number comp = true) comps ->
  exists outs,
    _filter_recent_sales now comps years_back = Ok (concat outs)
    /\ Forall2 (verdict now years_back) comps outs.
Proof.
  intros Hall. unfold _filter_recent_sales.
  induction Hall as [|comp comps [Hd Hs] _ [outs [IH1 IH2]]].
  - exists []. split; [reflexivity|constructor].
  - destruct (filter_step_verdict now years_back comp Hd Hs) as [comp' [keep [Hstep Hv]]].
    cbn [mapM]. rewrite Hstep. cbn [bind].
    destruct (mapM (filter_step (year now - years_back)) comps) as [steps|e];
      cbn [bind] in IH1 |- *; [|discriminate].
    exists ((if keep then [comp'] else []) :: outs). split; [|now constructor].
    inversion IH1 as [Hk]. unfold kept. cbn [concat filter map snd fst].
    destruct keep; cbn [filter map snd fst app]; unfold kept in Hk; now rewrite Hk.
Qed.

Lemma recency_filter_verdicts_witness :
  exists outs,
    _filter_recent_sales Scenario.today
      [ Scenario.sale_on "1 Oak St" "2023-01-01" 0.9;
        Scenario.sale_on "2 Oak St" "2022-12-31" 0.9;
        Scenario.sale_on "3 Oak St" "March 2025" 0.9;
        Scenario.undated_sale "4 Oak St" 0.95 ] 3
    = Ok (concat outs)
    /\ Forall2 (verdict Scenario.today 3)
         [ Scenario.sale_on "1 Oak St" "2023-01-01" 0.9;
           Scenario.sale_on "2 Oak St" "2022-12-31" 0.9;
           Scenario.sale_on "3 Oak St" "March 2025" 0.9;
           Scenario.undated_sale "4 Oak St" 0.95 ] outs.
Proof.
  apply recency_filter_verdicts.
  repeat constructor.
Defined.

(** The filter at the cutoff: with the clock in 2026 and three years back,
    a sale of 2023-01-01 stays, one of 2022-12-31 goes, an unreadable date
    brings 0.9 down to 0.4 and a missing date brings 0.95 down to 0.3. *)
Example recency_filter_at_the_cutoff :
  _filter_recent_sales Scenario.today
    [ Scenario.sale_on "1 Oak St" "2023-01-01" 0.9;
      Scenario.sale_on "2 Oak St" "2022-12-31" 0.9;
      Scenario.sale_on "3 Oak St" "March 2025" 0.9;
      Scenario.sale_on "5 Oak St" "Spring 2024" 0.2;
      Scenario.undated_sale "4 Oak St" 0.95 ] 3
  = Ok [ Scenario.sale_on "1 Oak St" "2023-01-01" 0.9;
         Scenario.sale_on "3 Oak St" "March 2025" 0.4;
         Scenario.sale_on "5 Oak St" "Spring 2024" 0.2;
         Scenario.undated_sale "4 Oak St" 0.3 ].
Proof. vm_compute. reflexivity. Qed.

(** ** Scores of merged records *)

Lemma in_unit_as_float (v : value) :
  in_unit v -> exists f, PyNum.as_float v = Ok f /\ nonneg (Prim2SF f).
Proof.
  intros [H0 H1]. destruct v as [|z|x|s]; try discriminate.
  - cbn [num_leb] in H0, H1.
    assert (Hz : z = 0 \/ z = 1).
    { unfold PyNum.compare_Z_float in H0, H1.
      change (Prim2SF 0) with (S754_zero false) in H0.
      change (Prim2SF 1) with (S754_finite false 4503599627370496 (-52)) in H1.
      cbv iota beta in H0, H1. cbn [PyNum.is_gt PyNum.is_eq PyNum.is_lt] in H0, H1.
      assert (0 <= z).
      { destruct (z ?= 0) eqn:E; try discriminate.
        - apply Z.compare_eq in E. lia.
        - rewrite Z.compare_gt_iff in E. lia. }
      change (0 <=? -52) with false in H1. cbv iota in H1.
      change (2 ^ (- -52)) with 4503599627370496 in H1.
      assert (z <= 1).
      { destruct (z * 4503599627370496 ?= 4503599627370496) eqn:E; try discriminate.
        - apply Z.compare_eq in E. lia.
        - rewrite Z.compare_lt_iff in E. lia. }
      lia. }
    destruct Hz as [-> | ->]; eexists; (split; [vm_compute; reflexivity|]); vm_compute; auto.
  - cbn [num_leb] in H0. exists x. split; [reflexivity|]. now apply zero_leb_nonneg.
Qed.

Lemma float_of_Z_nonneg (k : Z) (f : float) :
  0 <= k -> PyNum.float_of_Z k = Ok f -> nonneg (Prim2SF f).
Proof.
  intros Hk. unfold PyNum.float_of_Z.
  destruct (is_infinity (PyNum.nearest_float k)); [discriminate|].
  intros H. inversion H; subst. now apply nearest_float_nonneg.
Qed.

Lemma boost_nonneg (k : Z) (b : value) :
  0 <= k -> PyNum.mul (VFloat 0.1) (VInt k) = Ok b ->
  exists f, b = VFloat f /\ nonneg (Prim2SF f).
Proof.
  intros Hk. unfold PyNum.mul, PyNum.arith. cbn [PyNum.as_float bind].
  destruct (PyNum.float_of_Z k) as [y|e] eqn:E; cbn [bind]; [|discriminate].
  intros H. inversion H; subst. eexists. split; [reflexivity|].
  rewrite mul_spec. apply SFmul_nonneg.
  - exists 7205759403792794%positive, (-56). vm_compute. reflexivity.
  - now apply (float_of_Z_nonneg k).
Qed.

Lemma raised_nonneg (v : value) (b : float) (r : value) :
  in_unit v -> nonneg (Prim2SF b) -> PyNum.add v (VFloat b) = Ok r ->
  exists f, r = VFloat f /\ nonneg (Prim2SF f).
Proof.
  intros Hv Hb. destruct (in_unit_as_float v Hv) as [x [Hx Hn]].
  unfold PyNum.add, PyNum.arith.
  destruct v as [|z|y|s]; try (destruct Hv; discriminate);
    rewrite Hx; cbn [PyNum.as_float bind]; intros H; inversion H; subst;
    eexists; (split; [reflexivity|]); rewrite add_spec; now apply SFadd_nonneg.
Qed.

Lemma capped_nonneg (raised : float) (c : value) :
  nonneg (Prim2SF raised) -> PyNum.min (VFloat raised) (VFloat 0.95) = Ok c ->
  num_leb (VFloat 0) c = true /\ num_leb c (VFloat 0.95) = true.
Proof.
  intros Hn Hmin.
  destruct (min_capped (VFloat raised) 0.95) as [new [Hnew [[Hc|Hc] [Hle _]]]].
  - cbn [is_number]. now rewrite (nonneg_not_nan raised Hn).
  - reflexivity.
  - rewrite Hnew in Hmin. inversion Hmin; subst. split; [|assumption].
    cbn [num_leb]. now apply nonneg_zero_leb.
  - rewrite Hnew in Hmin. inversion Hmin; subst. split; [|assumption]. reflexivity.
Qed.

Lemma half_in_unit : in_unit (VFloat 0.5).
Proof. split; reflexivity. Qed.

Lemma finish_score (base : record) (srcs : list string) (r : record) :
  unit_score base ->
  finish base srcs = Ok r ->
  ((1 < List.length srcs)%nat -> score_within 0 0.95 r)
  /\ ((List.length srcs <= 1)%nat ->
      get r "confidenceScore" = get base "confidenceScore").
Proof.
  intros Hu H. unfold finish in H.
  destruct (1 <? Z.of_nat (List.length srcs)) eqn:En.
  - apply Z.ltb_lt in En. split; [intros _|lia].
    destruct (PyNum.mul _ _) as [boost|e] eqn:Eb; cbn [bind] in H; [|discriminate].
    assert (Hk : 0 <= Z.of_nat (List.length srcs) - 1) by lia.
    destruct (boost_nonneg _ boost Hk Eb) as [bf [-> Hbf]].
    rewrite get_default_set_other in H by discriminate.
    assert (Hv : in_unit (get_default base "confidenceScore" (VFloat 0.5))).
    { unfold unit_score in Hu. unfold get_default.
      destruct (get base "confidenceScore"); [assumption|apply half_in_unit]. }
    destruct (PyNum.add _ _) as [raised|e] eqn:Er; cbn [bind] in H; [|discriminate].
    destruct (raised_nonneg _ bf raised Hv Hbf Er) as [rf [-> Hrf]].
    destruct (PyNum.min _ _) as [capped|e] eqn:Ec; cbn [bind] in H; [|discriminate].
    inversion H; subst. unfold score_within. rewrite get_set_same.
    now apply (capped_nonneg rf).
  - apply Z.ltb_ge in En. split; [lia|intros _].
    inversion H; subst. now rewrite get_set_other by discriminate.
Qed.

Lemma fill_from_protected (other base : record) (k : string) :
  protected_key k = true -> get (fill_from base other) k = get base k.
Proof.
  intros Hk. unfold fill_from. revert base.
  induction other as [|[k' v] other IH]; cbn [fold_left]; intros base; [reflexivity|].
  rewrite IH. destruct (String.eqb k' k) eqn:E.
  - apply String.eqb_eq in E. subst k'. unfold fill_field. now rewrite Hk.
  - apply String.eqb_neq in E. now apply fill_field_other_key.
Qed.

Lemma set_add_in (p q : string) (l : list string) :
  In q (set_add p l) <-> q = p \/ In q l.
Proof.
  unfold set_add. destruct (existsb (String.eqb p) l) eqn:E.
  - split; [auto|]. intros [->|H]; [|assumption].
    apply existsb_exists in E as [x [Hx Hpx]]. apply String.eqb_eq in Hpx. now subst.
  - rewrite in_app_iff. simpl. intuition.
Qed.

Lemma set_add_nodup (p : string) (l : list string) : NoDup l -> NoDup (set_add p l).
Proof.
  intros H. unfold set_add. destruct (existsb (String.eqb p) l) eqn:E; [assumption|].
  apply NoDup_app; auto.
  - repeat constructor. simpl. tauto.
  - intros x Hx [->|[]].
    assert (existsb (String.eqb x) l = true); [|congruence].
    apply existsb_exists. exists x. split; [assumption|apply String.eqb_refl].
Qed.

Lemma merge_others_facts (others : list record) (base : record) (srcs : list string)
    (b : record) (s : list string) :
  merge_others others base srcs = Ok (b, s) ->
  NoDup srcs ->
  get b "confidenceScore" = get base "confidenceScore"
  /\ NoDup s
  /\ forall q, In q s <-> In q srcs \/ exists x, In x others /\ primary_source x = Ok q.
Proof.
  revert base srcs. induction others as [|o others IH]; intros base srcs H Hnd; simpl in H.
  - inversion H; subst. repeat split; auto.
    + intros [Hq|[x [[] _]]]; assumption.
  - destruct (primary_source o) as [p|e] eqn:Ep; cbn [bind] in H; [|discriminate].
    destruct (IH _ _ H (set_add_nodup p srcs Hnd)) as [Hc [Hs Hq]].
    split; [|split; [assumption|]].
    + rewrite Hc. now apply fill_from_protected.
    + intros q. rewrite Hq, set_add_in. split.
      * intros [[->|Hin]|[x [Hx Hpx]]]; auto.
        -- right. exists o. simpl. auto.
        -- right. exists x. simpl. auto.
      * intros [Hin|[x [[<-|Hx] Hpx]]]; auto.
        -- left. left. congruence.
        -- right. exists x. auto.
Qed.

Lemma somes_in {A B} (f : A -> result (option B)) (l : list A) (ys : list (option B)) (r : B) :
  mapM f l = Ok ys -> In r (somes ys) -> exists x, In x l /\ f x = Ok (Some r).
Proof.
  intros H. apply mapM_ok_inv in H.
  induction H as [|x y l ys Hxy _ IH]; simpl; [intros []|].
  destruct y as [b|]; simpl.
  - intros [<-|Hin]; [exists x; auto|].
    destruct (IH Hin) as [x' [Hx' Hf]]. exists x'. auto.
  - intros Hin. destruct (IH Hin) as [x' [Hx' Hf]]. exists x'. auto.
Qed.

(** ** Descending order of the ranked list *)

Lemma SFltb_trans_ge (a b c : spec_float) :
  a <> S754_nan -> b <> S754_nan -> c <> S754_nan ->
  SFltb a b = false -> SFltb b c = false -> SFltb a c = false.
Proof.
  unfold SFltb.
  destruct a as [sa|sa| |sa ma ea], b as [sb|sb| |sb mb eb], c as [sc|sc| |sc mc ec];
    try congruence; simpl; intros _ _ _;
    repeat match goal with
           | s : bool |- _ => destruct s
           end; simpl; try congruence;
    repeat match goal with
           | |- context [Z.compare ?x ?y] => destruct (Z.compare_spec x y)
           end; subst; try congruence; try lia;
    rewrite ?Pos.compare_cont_spec; simpl;
    repeat match goal with
           | |- context [Pos.compare ?x ?y] => destruct (Pos.compare_spec x y)
           end; subst; simpl; try congruence; try lia.
Qed.

Lemma ltb_trans_ge (a b c : float) :
  is_nan a = false -> is_nan b = false -> is_nan c = false ->
  PrimFloat.ltb a b = false -> PrimFloat.ltb b c = false -> PrimFloat.ltb a c = false.
Proof.
  intros Ha Hb Hc. rewrite !ltb_spec.
  apply SFltb_trans_ge; now apply not_nan_spec.
Qed.

Section DescendingFacts.
Context {A K : Type}.
Variable ltb : K -> K -> bool.
Variable good : K -> Prop.
Hypothesis ltb_asym' : forall a b, ltb a b = true -> ltb b a = false.
Hypothesis ge_trans : forall a b c, good a -> good b -> good c ->
  ltb a b = false -> ltb b c = false -> ltb a c = false.

Local Abbreviation lt := (fun a b : K => Ok (ltb a b)).
Local Abbreviation ge := (fun p q : K * A => ltb (fst p) (fst q) = false).

Lemma insert_desc_in (x : K * A) (l r : list (K * A)) (z : K * A) :
  PySort.insert_desc lt x l = Ok r -> In z r -> z = x \/ In z l.
Proof.
  intros H Hz. apply insert_desc_perm in H.
  apply (Permutation_in _ (Permutation_sym H)) in Hz. destruct Hz; auto.
Qed.

Lemma insert_desc_sorted (x : K * A) (l r : list (K * A)) :
  good (fst x) -> Forall (fun p => good (fst p)) l ->
  StronglySorted ge l ->
  PySort.insert_desc lt x l = Ok r ->
  StronglySorted ge r.
Proof.
  intros Hx Hl Hs. revert r.
  induction Hs as [|y l Hs IH Hy]; intros r H; simpl in H.
  - inversion H. repeat constructor.
  - cbn [bind] in H. inversion Hl as [|? ? Hgy Hgl]; subst.
    destruct (ltb (fst x) (fst y)) eqn:E.
    + destruct (PySort.insert_desc lt x l) as [r'|e] eqn:Er; cbn [bind] in H;
        [|discriminate].
      inversion H; subst. constructor; [now apply IH|].
      apply Forall_forall. intros z Hz.
      destruct (insert_desc_in x l r' z Er Hz) as [->|Hin].
      * now apply ltb_asym'.
      * rewrite Forall_forall in Hy. now apply Hy.
    + inversion H; subst. constructor; [now constructor|].
      constructor; [assumption|].
      apply Forall_forall. intros z Hz.
      rewrite Forall_forall in Hy, Hgl.
      apply (ge_trans (fst x) (fst y) (fst z)); auto.
Qed.

Lemma sort_keyed_sorted (l r : list (K * A)) :
  Forall (fun p => good (fst p)) l ->
  PySort.sort_keyed lt l = Ok r ->
  StronglySorted ge r.
Proof.
  revert r. induction l as [|x l IH]; intros r Hl H; simpl in H.
  - inversion H. constructor.
  - inversion Hl; subst.
    destruct (PySort.sort_keyed lt l) as [s|e] eqn:Es; cbn [bind] in H; [|discriminate].
    apply (insert_desc_sorted x s r); auto.
    apply (Permutation_Forall (sort_keyed_perm lt l s Es)). assumption.
Qed.

End DescendingFacts.

Lemma firstn_slice {A} (l : list A) (n : Z) :
  0 <= n -> slice_to l (VInt n) = Ok (firstn (Z.to_nat n) l).
Proof. intros H. unfold slice_to. apply Z.leb_le in H. now rewrite H. Qed.

Lemma StronglySorted_map_fst {A} (R : float -> float -> Prop) (s : list (float * A)) :
  StronglySorted (fun p q => R (fst p) (fst q)) s -> StronglySorted R (map fst s).
Proof.
  induction 1 as [|p s Hs IH Hp]; simpl; constructor; auto.
  apply Forall_forall. intros k Hk. apply in_map_iff in Hk as [q [<- Hq]].
  rewrite Forall_forall in Hp. now apply Hp.
Qed.

(** What the ranker returns when it returns. *)
Lemma ranker_result (now : date) (comps ranked : list record) (input_data : record) :
  _sort_by_relevance now comps input_data = Ok ranked ->
  exists subject_size scores,
    subject_size_of input_data = Ok subject_size
    /\ Permutation comps ranked
    /\ Forall2 (fun r k => relevance_score now subject_size
                             (subject_year_of input_data) r = Ok k) ranked scores
    /\ (Forall (fun k => is_nan k = false) scores ->
        StronglySorted (fun a b => PrimFloat.ltb a b = false) scores).
Proof.
  unfold _sort_by_relevance. intros H.
  destruct (subject_size_of input_data) as [ss|e]; cbn [bind] in H; [|discriminate].
  pose proof (sorted_desc_perm _ _ _ _ H) as Hp.
  unfold PySort.sorted_desc in H.
  destruct (mapM _ comps) as [ks|e] eqn:Ek; cbn [bind] in H; [|discriminate].
  destruct (PySort.sort_keyed float_lt ks) as [s|e] eqn:Es; cbn [bind] in H; [|discriminate].
  inversion H; subst ranked.
  apply decorate_snd in Ek as [_ Hkeys].
  pose proof (Permutation_Forall (sort_keyed_perm _ ks s Es) Hkeys) as Hs.
  exists ss, (map fst s). split; [reflexivity|]. split; [assumption|]. split.
  - clear - Hs. induction Hs as [|p s Hp _ IH]; simpl; constructor; auto.
  - intros Hgood. apply StronglySorted_map_fst.
    apply (sort_keyed_sorted PrimFloat.ltb (fun k => is_nan k = false) ltb_asym ltb_trans_ge ks s).
    + apply (Permutation_Forall (Permutation_sym (sort_keyed_perm _ ks s Es))).
      apply Forall_forall. intros q Hq.
      rewrite Forall_forall in Hgood. apply Hgood. now apply in_map.
    + exact Es.
Qed.

Section TopComps.
Variable now : date.
Variable municipal_assessor : value -> value -> value -> outcome.
Variable registry_of_deeds : value -> value -> value -> outcome.
Variable massgis : value -> value -> outcome.
Variable serp : value -> value -> value -> value -> outcome.

Local Abbreviation gather :=
  (gather_comparable_sales now municipal_assessor registry_of_deeds massgis serp).
Local Abbreviation run_main :=
  (main now municipal_assessor registry_of_deeds massgis serp).

Lemma gather_cases (input_data : record) :
  snd (gather input_data) = Ok (mk_gathered [] "Error: City and County are required.")
  \/ exists subject_address all_comps,
       snd (gather input_data) = pipeline now input_data subject_address all_comps.
Proof.
  unfold gather_comparable_sales.
  destruct (negb (truthy _) || negb (truthy _))%bool; [left; reflexivity|].
  right. do 2 eexists. reflexivity.
Qed.

Lemma pipeline_result (input_data : record) (n : Z) (subject_address : value)
    (all_comps : list record) (g : gathered) :
  get_default input_data "numberOfComps" (VInt 5) = VInt n ->
  0 <= n ->
  pipeline now input_data subject_address all_comps = Ok g ->
  exists unique_comps recent_comps ranked,
    funnel now subject_address all_comps = Ok (unique_comps, recent_comps)
    /\ _sort_by_relevance now recent_comps input_data = Ok ranked
    /\ comparableSales g = firstn (Z.to_nat n) ranked.
Proof.
  intros Hn Hpos H. unfold pipeline in H.
  destruct (funnel now subject_address all_comps) as [[u r]|e] eqn:Ef;
    cbn [bind fst snd] in H; [|discriminate].
  destruct (_sort_by_relevance now r input_data) as [ranked|e] eqn:Es; cbn [bind] in H;
    [|discriminate].
  rewrite Hn, (firstn_slice ranked n Hpos) in H. cbn [bind] in H.
  destruct (_generate_search_summary _ _ _ _ _) as [summary|e]; cbn [bind] in H;
    [|discriminate].
  inversion H; subst g. exists u, r, ranked. repeat split; auto.
Qed.

(** C8.  For a requested count that is a non-negative integer
    (5 when the key is left out): whatever document the run writes holds at
    most that many records; and whenever the orchestrator's pipeline
    returns, its comparableSales are the first numberOfComps records of the
    ranking, which is a rearrangement of the surviving records in
    descending order of relevance score (no score being a NaN) -- so exactly
    numberOfComps records, the highest-scored ones, when more than that
    survive. *)
Theorem top_comps_are_the_head_of_the_ranking (input_data : record) (n : Z) :
  get_default input_data "numberOfComps" (VInt 5) = VInt n ->
  0 <= n ->
  (forall output_writable doc,
      written (run_main output_writable (Loaded input_data)) = Some doc ->
      Z.of_nat (List.length (doc_comparableSales doc)) <= n)
  /\ (forall subject_address all_comps g,
         pipeline now input_data subject_address all_comps = Ok g ->
         exists unique_comps recent_comps ranked subject_size scores,
           funnel now subject_address all_comps = Ok (unique_comps, recent_comps)
           /\ subject_size_of input_data = Ok subject_size
           /\ Permutation recent_comps ranked
           /\ Forall2 (fun r k => relevance_score now subject_size
                                    (subject_year_of input_data) r = Ok k)
                      ranked scores
           /\ (Forall (fun k => is_nan k = false) scores ->
               StronglySorted (fun a b => PrimFloat.ltb a b = false) scores)
           /\ comparableSales g = firstn (Z.to_nat n) ranked
           /\ (n < Z.of_nat (List.length recent_comps) ->
               Z.of_nat (List.length (comparableSales g)) = n)).
Proof.
  intros Hn Hpos.
  assert (HB : forall subject_address all_comps g,
             pipeline now input_data subject_address all_comps = Ok g ->
             exists unique_comps recent_comps ranked subject_size scores,
               funnel now subject_address all_comps = Ok (unique_comps, recent_comps)
               /\ subject_size_of input_data = Ok subject_size
               /\ Permutation recent_comps ranked
               /\ Forall2 (fun r k => relevance_score now subject_size
                                        (subject_year_of input_data) r = Ok k)
                          ranked scores
               /\ (Forall (fun k => is_nan k = false) scores ->
                   StronglySorted (fun a b => PrimFloat.ltb a b = false) scores)
               /\ comparableSales g = firstn (Z.to_nat n) ranked
               /\ (n < Z.of_nat (List.length recent_comps) ->
                   Z.of_nat (List.length (comparableSales g)) = n)).
  { intros subject_address all_comps g Hg.
    destruct (pipeline_result input_data n subject_address all_comps g Hn Hpos Hg)
      as [u [r [ranked [Hf [Hs Hc]]]]].
    destruct (ranker_result now r ranked input_data Hs) as [ss [scores [Hss [Hp [Hk Hd]]]]].
    exists u, r, ranked, ss, scores. repeat (split; [assumption|]).
    intros Hlen. rewrite Hc, length_firstn.
    rewrite <- (Permutation_length Hp). lia. }
  split; [|exact HB].
  intros w doc Hdoc. unfold main in Hdoc.
  assert (Hw : forall d, write w d = Some doc -> d = doc).
  { intros d. unfold write. destruct w; congruence. }
  destruct (negb (forallb (contains input_data) required_fields)); cbn [written] in Hdoc.
  - apply Hw in Hdoc. subst doc. simpl. lia.
  - apply Hw in Hdoc. subst doc.
    destruct (gather_cases input_data) as [He | [addr [all Hp]]].
    + rewrite He. simpl. lia.
    + rewrite Hp. destruct (pipeline now input_data addr all) as [g|e] eqn:Eg.
      * destruct (HB addr all g Eg) as [u [r [ranked [ss [sc [_ [_ [_ [_ [_ [Hc _]]]]]]]]]]].
        cbn [results_of doc_comparableSales]. rewrite Hc, length_firstn. lia.
      * simpl. lia.
Qed.

End TopComps.

Lemma top_comps_are_the_head_of_the_ranking_witness :
  exists doc,
    written (main Scenario.today (Scenario.assessor_finds Scenario.five_sized_sales)
               Scenario.nothing3 Scenario.nothing2 Scenario.nothing4 true
               (Loaded (Scenario.subject_asking_for (VInt 2))))
    = Some doc
    /\ Z.of_nat (List.length (doc_comparableSales doc)) <= 2.
Proof.
  eexists. split.
  - vm_compute. reflexivity.
  - apply (proj1 (top_comps_are_the_head_of_the_ranking Scenario.today
                    (Scenario.assessor_finds Scenario.five_sized_sales)
                    Scenario.nothing3 Scenario.nothing2 Scenario.nothing4
                    (Scenario.subject_asking_for (VInt 2)) 2 eq_refl ltac:(lia)) true).
    vm_compute. reflexivity.
Defined.

(** Scenario E on undated records: of five survivors scored 0.15, 0.27,
    0.24, 0.18 and 0.21, a request for two returns the two scored 0.27 and
    0.24, in that order. *)
Example two_of_five_sized_sales :
  mapM (relevance_score Scenario.today (Some 1000) None)
       (map (fun r => set r "confidenceScore" (VFloat 0.3)) Scenario.five_sized_sales)
  = Ok [0.15; 0.27; 0.24; 0.18; 0.21]%float
  /\ option_map doc_comparableSales
       (written (main Scenario.today (Scenario.assessor_finds Scenario.five_sized_sales)
                   Scenario.nothing3 Scenario.nothing2 Scenario.nothing4 true
                   (Loaded (Scenario.subject_asking_for (VInt 2)))))
     = Some [ set (Scenario.sized_sale "20 Elm Rd" 1000) "confidenceScore" (VFloat 0.3);
              set (Scenario.sized_sale "30 Elm Rd" 900) "confidenceScore" (VFloat 0.3) ].
Proof. split; vm_compute; reflexivity. Qed.

(** A negative count is not a bound (the slice drops that many records from
    the end), and a null count is no bound at all (the default of 5 does not
    replace an explicit null). *)
Lemma negative_or_null_count_is_not_a_bound :
  (exists doc,
      written (main Scenario.today (Scenario.assessor_finds Scenario.five_sized_sales)
                 Scenario.nothing3 Scenario.nothing2 Scenario.nothing4 true
                 (Loaded (Scenario.subject_asking_for (VInt (-1)))))
      = Some doc
      /\ List.length (doc_comparableSales doc) = 4%nat
      /\ ~ Z.of_nat 4 <= -1)
  /\ (exists doc,
        written (main Scenario.today (Scenario.assessor_finds Scenario.six_sized_sales)
                   Scenario.nothing3 Scenario.nothing2 Scenario.nothing4 true
                   (Loaded (Scenario.subject_asking_for VNone)))
        = Some doc
        /\ List.length (doc_comparableSales doc) = 6%nat
        /\ ~ Z.of_nat 6 <= 5).
Proof.
  split; eexists; (split; [vm_compute; reflexivity|]); (split; [reflexivity|lia]).
Qed.

(** ** The separator class of the normalizer *)

Lemma separator_class_split (c : ascii) :
  separator_class c = (five_separators c || stray_separator c)%bool.
Proof.
  destruct c as [b0 b1 b2 b3 b4 b5 b6 b7].
  destruct b0, b1, b2, b3, b4, b5, b6, b7; reflexivity.
Qed.

Lemma lower_char_stray (c : ascii) :
  stray_separator (lower_char c) = stray_separator c.
Proof.
  destruct c as [b0 b1 b2 b3 b4 b5 b6 b7].
  destruct b0, b1, b2, b3, b4, b5, b6, b7; reflexivity.
Qed.

Lemma map_chars_agree (f g : ascii -> ascii) (p : ascii -> bool) (s : string) :
  (forall c, p c = false -> f c = g c) ->
  filter_chars p s = "" ->
  map_chars f s = map_chars g s.
Proof.
  intros Hfg. induction s as [|c s IH]; simpl; [reflexivity|].
  destruct (p c) eqn:E; [discriminate|].
  intros H. now rewrite (Hfg c E), IH.
Qed.

Lemma lower_keeps_strays_out (s : string) :
  filter_chars stray_separator s = "" ->
  filter_chars stray_separator (lower s) = "".
Proof.
  unfold lower. induction s as [|c s IH]; simpl; [reflexivity|].
  rewrite lower_char_stray. destruct (stray_separator c); [discriminate|assumption].
Qed.

(** C7. The character class [[.,#-/]] of the normalizer is the range of
    the thirteen characters from [#] to [/]: besides the five characters
    [. , # - /] it turns the apostrophe and [$ % & ( ) * +] into spaces, so
    that "12 O'Neil Rd" is keyed as "12oneil" where the five-character rule
    gives "12o'neil".  On an address without these eight characters the
    normalizer does what the five-character rule says: the empty string for
    an absent or empty address, and otherwise lower case, the five
    separators to spaces, the suffix words removed as whole words, all
    white space deleted. *)
Theorem separator_class_is_a_range :
  (forall c, separator_class c = in_range 35 47 c)
  /\ separator_class "'" = true
  /\ five_separators "'" = false
  /\ _normalize_address_for_dedup (Some (VStr "12 O'Neil Rd")) = Ok "12oneil"
  /\ normalize_as_specified (Some "12 O'Neil Rd") = "12o'neil"
  /\ _normalize_address_for_dedup None = Ok ""
  /\ _normalize_address_for_dedup (Some VNone) = Ok ""
  /\ (forall a : string,
        filter_chars stray_separator a = "" ->
        _normalize_address_for_dedup (Some (VStr a))
        = Ok (normalize_as_specified (Some a))).
Proof.
  split.
  { intros [b0 b1 b2 b3 b4 b5 b6 b7].
    destruct b0, b1, b2, b3, b4, b5, b6, b7; reflexivity. }
  repeat (split; [reflexivity|]).
  intros a Ha. unfold _normalize_address_for_dedup, normalize_as_specified.
  cbn [truthy_opt truthy].
  destruct (String.eqb a "") eqn:E; cbn [negb].
  - apply String.eqb_eq in E. subst a. reflexivity.
  - unfold replace_separators.
    rewrite (map_chars_agree
               (fun c => if separator_class c then " "%char else c)
               (fun c => if five_separators c then " "%char else c)
               stray_separator (lower a)).
    + reflexivity.
    + intros c Hc. rewrite separator_class_split, Hc. now rewrite orb_false_r.
    + now apply lower_keeps_strays_out.
Qed.

(* ================================================================== *)
(** * Further properties *)

Import Notions.

(** ** The address normalizer *)

Lemma all_chars_map (p q : ascii -> bool) (f : ascii -> ascii) (s : string) :
  (forall c, q (f c) = true) -> all_chars q (map_chars f s) = true.
Proof.
  intros H. induction s as [|c s IH]; simpl; [reflexivity|].
  now rewrite H, IH.
Qed.

Lemma all_chars_filter (p q : ascii -> bool) (s : string) :
  all_chars p s = true -> all_chars p (filter_chars q s) = true.
Proof.
  induction s as [|c s IH]; simpl; [reflexivity|].
  intros H. apply andb_true_iff in H as [Hc Hs].
  destruct (q c); simpl; [rewrite Hc|]; auto.
Qed.

Lemma all_chars_filter_self (q : ascii -> bool) (s : string) :
  all_chars q (filter_chars q s) = true.
Proof.
  induction s as [|c s IH]; simpl; [reflexivity|].
  destruct (q c) eqn:E; simpl; [rewrite E|]; auto.
Qed.

Lemma all_chars_and (p q : ascii -> bool) (s : string) :
  all_chars p s = true -> all_chars q s = true ->
  all_chars (fun c => (p c && q c)%bool) s = true.
Proof.
  induction s as [|c s IH]; simpl; [reflexivity|].
  intros Hp Hq.
  apply andb_true_iff in Hp as [-> Hp]. apply andb_true_iff in Hq as [-> Hq].
  simpl. auto.
Qed.

Lemma all_chars_remove_words (p : ascii -> bool) (alts : list string) (s : string) :
  all_chars p s = true ->
  forall prev_word skip, all_chars p (remove_words alts prev_word skip s) = true.
Proof.
  induction s as [|c s IH]; simpl; intros H prev_word skip; [reflexivity|].
  apply andb_true_iff in H as [Hc Hs].
  destruct skip as [|k]; [|now apply IH].
  destruct (if xorb prev_word (is_word_char c) then _ else None).
  - now apply IH.
  - simpl. rewrite Hc. now apply IH.
Qed.

Lemma lowered_separated_char (c : ascii) :
  let c' := lower_char c in
  (negb (is_upper (if separator_class c' then " "%char else c'))
   && negb (separator_class (if separator_class c' then " "%char else c')))%bool = true.
Proof.
  destruct c as [b0 b1 b2 b3 b4 b5 b6 b7].
  destruct b0, b1, b2, b3, b4, b5, b6, b7; reflexivity.
Qed.

Lemma map_chars_map_chars (f g : ascii -> ascii) (s : string) :
  map_chars f (map_chars g s) = map_chars (fun c => f (g c)) s.
Proof. induction s as [|c s IH]; simpl; [reflexivity|]. now rewrite IH. Qed.

(** X1. Whatever the address text, its normalized form contains no white
    space, no upper-case letter and no character of the separator class. *)
Theorem normalized_address_alphabet (a : string) :
  exists k, _normalize_address_for_dedup (Some (VStr a)) = Ok k
            /\ all_chars key_char k = true.
Proof.
  unfold _normalize_address_for_dedup. cbn [truthy_opt truthy].
  destruct (String.eqb a "") eqn:E; cbn [negb].
  - exists "". split; reflexivity.
  - eexists. split; [reflexivity|].
    unfold remove_whitespace, remove_suffix_words, replace_separators, lower.
    rewrite map_chars_map_chars.
    set (q := fun c => (negb (is_upper c) && negb (separator_class c))%bool).
    assert (H1 : all_chars q
              (map_chars (fun c => if separator_class (lower_char c) then " "%char
                                   else lower_char c) a) = true).
    { apply (all_chars_map q q). intros c. apply lowered_separated_char. }
    pose proof (all_chars_remove_words q suffix_words _ H1 false O) as H2.
    pose proof (all_chars_filter q (fun c => negb (is_space c)) _ H2) as H3.
    pose proof (all_chars_filter_self (fun c => negb (is_space c))
                  (remove_words suffix_words false 0
                     (map_chars (fun c => if separator_class (lower_char c) then " "%char
                                          else lower_char c) a))) as H4.
    pose proof (all_chars_and _ _ _ H4 H3) as H5.
    clear - H5. revert H5.
    generalize (filter_chars (fun c => negb (is_space c))
       (remove_words suffix_words false 0
          (map_chars (fun c => if separator_class (lower_char c) then " "%char
                               else lower_char c) a))).
    intros s. induction s as [|c s IH]; simpl; [reflexivity|].
    intros H. apply andb_true_iff in H as [Hc Hs]. rewrite (IH Hs), andb_true_r.
    unfold key_char, q in *. now rewrite <- andb_assoc.
Qed.

Lemma map_chars_app (f : ascii -> ascii) (s t : string) :
  map_chars f (s ++ t) = map_chars f s ++ map_chars f t.
Proof. induction s as [|c s IH]; simpl; [reflexivity|]. now rewrite IH. Qed.

Lemma filter_chars_app (p : ascii -> bool) (s t : string) :
  filter_chars p (s ++ t) = filter_chars p s ++ filter_chars p t.
Proof.
  induction s as [|c s IH]; simpl; [reflexivity|].
  destruct (p c); simpl; now rewrite IH.
Qed.

Lemma map_chars_fixed (f : ascii -> ascii) (p : ascii -> bool) (s : string) :
  (forall c, p c = true -> f c = c) -> all_chars p s = true -> map_chars f s = s.
Proof.
  intros H. induction s as [|c s IH]; simpl; [reflexivity|].
  intros Hs. apply andb_true_iff in Hs as [Hc Hs]. now rewrite (H c Hc), IH.
Qed.

(** A word of lower-case letters is a prefix of [s ++ " " ++ t] only if it
    is a prefix of [s]. *)
Lemma prefix_before_space (w s t : string) :
  all_chars is_lower w = true ->
  String.prefix w (s ++ String " " t) = String.prefix w s.
Proof.
  revert s. induction w as [|a w IH]; intros s Hw.
  - now destruct s.
  - simpl in Hw. apply andb_true_iff in Hw as [Ha Hw].
    destruct s as [|b s]; simpl.
    + destruct (Ascii.ascii_dec a " ") as [->|Hn]; [discriminate Ha|reflexivity].
    + destruct (Ascii.ascii_dec a b); [now apply IH|reflexivity].
Qed.

Lemma prefix_length (w s : string) :
  String.prefix w s = true -> (String.length w <= String.length s)%nat.
Proof.
  revert s. induction w as [|a w IH]; intros s H; simpl; [lia|].
  destruct s as [|b s]; simpl in *; [discriminate|].
  destruct (Ascii.ascii_dec a b); [|discriminate].
  apply IH in H. lia.
Qed.

Lemma head_after_drop (n : nat) (s t : string) :
  (n <= String.length s)%nat ->
  head_is is_word_char (drop n (s ++ String " " t))
  = head_is is_word_char (drop n (s ++ " ")).
Proof.
  revert s. induction n as [|n IH]; intros s H.
  - destruct s; reflexivity.
  - destruct s as [|c s]; simpl in *; [lia|]. apply IH. lia.
Qed.

Lemma match_alternative_before_space (alts : list string) (s t : string) :
  forallb (all_chars is_lower) alts = true ->
  match_alternative alts (s ++ String " " t) = match_alternative alts (s ++ " ")
  /\ (forall w, match_alternative alts (s ++ " ") = Some w ->
                (String.length w <= String.length s)%nat).
Proof.
  induction alts as [|w alts IH]; simpl; intros H; [split; [reflexivity|discriminate]|].
  apply andb_true_iff in H as [Hw Ha]. destruct (IH Ha) as [IH1 IH2].
  rewrite !(prefix_before_space w s) by assumption.
  destruct (String.prefix w s) eqn:P; simpl; [|split; assumption].
  pose proof (prefix_length _ _ P) as L.
  rewrite (head_after_drop _ s t L).
  destruct (negb _); [|split; assumption].
  split; [reflexivity|]. now intros w' [= <-].
Qed.


Lemma words_lower (alts : list string) :
  forallb word alts = true -> forallb (all_chars is_lower) alts = true.
Proof.
  induction alts as [|w alts IH]; simpl; [reflexivity|].
  intros H. apply andb_true_iff in H as [Hw Ha].
  apply andb_true_iff in Hw as [_ ->]. now rewrite IH.
Qed.

Lemma no_word_at_space (alts : list string) (t : string) :
  forallb word alts = true -> match_alternative alts (String " " t) = None.
Proof.
  induction alts as [|w alts IH]; simpl; [reflexivity|].
  intros H. apply andb_true_iff in H as [Hw Ha].
  apply andb_true_iff in Hw as [Hn Hl].
  destruct w as [|a w]; [discriminate Hn|].
  simpl in Hl. apply andb_true_iff in Hl as [Hl _].
  simpl. destruct (Ascii.ascii_dec a " ") as [->|_]; [discriminate Hl|].
  simpl. now apply IH.
Qed.

Lemma remove_words_before_space (alts : list string) (p q : string) :
  forallb word alts = true ->
  forall prev_word skip, (skip <= String.length p)%nat ->
  remove_words alts prev_word skip (p ++ String " " q)
  = remove_words alts prev_word skip (p ++ " ") ++ remove_words alts false 0 q.
Proof.
  intros Ha. induction p as [|c p IH]; intros prev_word skip Hs.
  - simpl in Hs. assert (skip = O) by lia. subst skip.
    change ("" ++ String " " q) with (String " " q). change ("" ++ " ") with " ".
    cbn [remove_words].
    rewrite !(no_word_at_space alts) by assumption.
    destruct (xorb prev_word (is_word_char " ")); reflexivity.
  - change (String c p ++ String " " q) with (String c (p ++ String " " q)).
    change (String c p ++ " ") with (String c (p ++ " ")).
    cbn [remove_words]. simpl in Hs.
    destruct skip as [|k]; [|apply IH; lia].
    destruct (match_alternative_before_space alts (String c p) q (words_lower _ Ha))
      as [E1 E2].
    change (String c p ++ String " " q) with (String c (p ++ String " " q)) in E1.
    change (String c p ++ " ") with (String c (p ++ " ")) in E1, E2.
    rewrite E1.
    destruct (xorb prev_word (is_word_char c)).
    + destruct (match_alternative alts (String c (p ++ " "))) as [w|] eqn:M.
      * apply IH. specialize (E2 w eq_refl). simpl in E2. lia.
      * simpl. now rewrite IH by lia.
    + simpl. now rewrite IH by lia.
Qed.

Lemma suffix_word_removed (w : string) :
  In w suffix_words -> remove_words suffix_words false 0 w = "".
Proof.
  intros H. repeat (destruct H as [<-|H]; [reflexivity|]). destruct H.
Qed.

Lemma suffix_word_plain (w : string) :
  In w suffix_words -> lower w = w /\ replace_separators w = w.
Proof.
  intros H. repeat (destruct H as [<-|H]; [split; reflexivity|]). destruct H.
Qed.

Lemma app_nonempty (p t : string) : String.eqb (p ++ String " " t) "" = false.
Proof. now destruct p. Qed.

(** X2. Two addresses that differ only in the street-suffix word that closes
    them (any two of the nineteen words of the pattern, after a space) have
    the same normalized form. *)
Theorem closing_suffix_word_does_not_matter (p w1 w2 : string) :
  In w1 suffix_words -> In w2 suffix_words ->
  _normalize_address_for_dedup (Some (VStr (p ++ " " ++ w1)))
  = _normalize_address_for_dedup (Some (VStr (p ++ " " ++ w2))).
Proof.
  intros H1 H2. unfold _normalize_address_for_dedup. cbn [truthy_opt truthy].
  change (p ++ " " ++ w1) with (p ++ String " " w1).
  change (p ++ " " ++ w2) with (p ++ String " " w2).
  rewrite !app_nonempty. cbn [negb]. f_equal. f_equal.
  unfold remove_suffix_words, replace_separators, lower.
  rewrite !map_chars_app. cbn [map_chars].
  destruct (suffix_word_plain w1 H1) as [L1 R1].
  destruct (suffix_word_plain w2 H2) as [L2 R2].
  unfold lower in L1, L2. unfold replace_separators in R1, R2.
  rewrite L1, L2, R1, R2.
  change (lower_char " ") with " "%char.
  change (if separator_class " " then " "%char else " "%char) with " "%char.
  rewrite (remove_words_before_space suffix_words _ w1 eq_refl false O) by (simpl; lia).
  rewrite (remove_words_before_space suffix_words _ w2 eq_refl false O) by (simpl; lia).
  now rewrite (suffix_word_removed w1 H1), (suffix_word_removed w2 H2).
Qed.

Lemma closing_suffix_word_does_not_matter_witness :
  _normalize_address_for_dedup (Some (VStr ("77 Broad" ++ " " ++ "street")))
  = _normalize_address_for_dedup (Some (VStr ("77 Broad" ++ " " ++ "pkwy"))).
Proof.
  apply closing_suffix_word_does_not_matter; simpl; tauto.
Defined.

Lemma normalize_cases (a : option value) :
  truthy_opt a = true ->
  (exists s, a = Some (VStr s) /\ s <> ""
             /\ _normalize_address_for_dedup a
                = Ok (remove_whitespace (remove_suffix_words (replace_separators (lower s)))))
  \/ _normalize_address_for_dedup a = Raise AttributeError_lower.
Proof.
  intros H. unfold _normalize_address_for_dedup. rewrite H. cbn [negb].
  destruct a as [[| z | f | s]|]; try (right; reflexivity).
  left. exists s. repeat split.
  intros ->. discriminate H.
Qed.

(** X3. The address comparison does not depend on the order of its two
    arguments, whatever they are: the same verdict or the same exception. *)
Theorem same_address_is_symmetric (addr1 addr2 : option value) :
  _is_same_address addr1 addr2 = _is_same_address addr2 addr1.
Proof.
  unfold _is_same_address.
  destruct (truthy_opt addr1) eqn:T1, (truthy_opt addr2) eqn:T2; cbn [negb orb];
    try reflexivity.
  destruct (normalize_cases addr1 T1) as [(s1 & _ & _ & ->)| ->],
           (normalize_cases addr2 T2) as [(s2 & _ & _ & ->)| ->];
    cbn [bind]; try reflexivity.
  now rewrite String.eqb_sym.
Qed.

(** X4. On any three arguments, two positive verdicts of the address
    comparison give a third. *)
Theorem same_address_is_transitive (addr1 addr2 addr3 : option value) :
  _is_same_address addr1 addr2 = Ok true ->
  _is_same_address addr2 addr3 = Ok true ->
  _is_same_address addr1 addr3 = Ok true.
Proof.
  unfold _is_same_address.
  destruct (truthy_opt addr1) eqn:T1; cbn [negb orb]; [|discriminate].
  destruct (truthy_opt addr2) eqn:T2; cbn [negb orb]; [|discriminate].
  destruct (truthy_opt addr3) eqn:T3; cbn [negb orb]; [|discriminate].
  destruct (normalize_cases addr1 T1) as [(s1 & _ & _ & ->)| ->]; cbn [bind];
    [|discriminate].
  destruct (normalize_cases addr2 T2) as [(s2 & _ & _ & ->)| ->]; cbn [bind];
    [|discriminate].
  destruct (normalize_cases addr3 T3) as [(s3 & _ & _ & ->)| ->]; cbn [bind];
    [|discriminate].
  intros [= E1] [= E2]. apply String.eqb_eq in E1, E2. rewrite E1, E2.
  now rewrite String.eqb_refl.
Qed.

Lemma same_address_is_transitive_witness :
  _is_same_address (Some (VStr "9 Oak Street")) (Some (VStr "9 OAK ST.")) = Ok true
  /\ _is_same_address (Some (VStr "9 OAK ST.")) (Some (VStr "9 oak st")) = Ok true
  /\ _is_same_address (Some (VStr "9 Oak Street")) (Some (VStr "9 oak st")) = Ok true.
Proof.
  split; [reflexivity|]. split; [reflexivity|].
  apply (same_address_is_transitive _ (Some (VStr "9 OAK ST."))); reflexivity.
Defined.

Lemma lower_empty (a : string) : String.eqb (lower a) "" = String.eqb a "".
Proof. now destruct a. Qed.

(** X5. Two address texts that agree up to letter case have the same
    normalized form. *)
Theorem normalizer_ignores_letter_case (a b : string) :
  lower a = lower b ->
  _normalize_address_for_dedup (Some (VStr a))
  = _normalize_address_for_dedup (Some (VStr b)).
Proof.
  intros H. unfold _normalize_address_for_dedup. cbn [truthy_opt truthy].
  rewrite <- (lower_empty a), <- (lower_empty b), H.
  destruct (String.eqb (lower b) ""); reflexivity.
Qed.

Lemma normalizer_ignores_letter_case_witness :
  _normalize_address_for_dedup (Some (VStr "12 MAIN St"))
  = _normalize_address_for_dedup (Some (VStr "12 main ST")).
Proof.
  apply normalizer_ignores_letter_case. reflexivity.
Defined.

(** ** The merge engine: one record per address *)

Lemma distinct_in (l : list string) (x : string) : In x (distinct l) <-> In x l.
Proof.
  induction l as [|y l IH]; simpl; [tauto|].
  rewrite filter_In, IH. split.
  - intros [H|[H _]]; auto.
  - intros [H|H]; auto.
    destruct (String.eqb y x) eqn:E; [apply String.eqb_eq in E; auto|].
    right. split; [assumption|]. cbv beta. try rewrite E. reflexivity.
Qed.

Lemma distinct_nodup (l : list string) : NoDup (distinct l).
Proof.
  induction l as [|y l IH]; simpl; constructor.
  - rewrite filter_In. intros [_ H]. now rewrite String.eqb_refl in H.
  - now apply NoDup_filter.
Qed.

Lemma keys_set {V} (d : dict V) (k : string) (v : V) :
  keys (set d k v) = set_add k (keys d).
Proof.
  unfold set_add, keys. induction d as [|[k' v'] d IH]; simpl; [reflexivity|].
  rewrite (String.eqb_sym k k').
  destruct (String.eqb k' k); simpl; [reflexivity|].
  rewrite IH.
  now destruct (existsb (String.eqb k) (map fst d)).
Qed.

Lemma filter_weaker {A} (p q : A -> bool) (l : list A) :
  (forall y, p y = true -> q y = true) -> filter p (filter q l) = filter p l.
Proof.
  intros H. induction l as [|y l IH]; simpl; [reflexivity|].
  destruct (q y) eqn:Q; simpl.
  - now rewrite IH.
  - destruct (p y) eqn:P; [|assumption].
    apply H in P. congruence.
Qed.

Lemma filter_both {A} (p q : A -> bool) (l : list A) :
  filter p (filter q l) = filter (fun y => (p y && q y)%bool) l.
Proof.
  induction l as [|y l IH]; simpl; [reflexivity|].
  destruct (q y); simpl; rewrite ?andb_true_r, ?andb_false_r; [|assumption].
  now rewrite IH.
Qed.

Lemma fold_set_add (l acc : list string) :
  fold_left (fun a k => set_add k a) l acc
  = (acc ++ filter (fun y => negb (existsb (String.eqb y) acc)) (distinct l))%list.
Proof.
  revert acc. induction l as [|x l IH]; intros acc; simpl.
  - now rewrite app_nil_r.
  - rewrite IH. unfold set_add.
    destruct (existsb (String.eqb x) acc) eqn:E; simpl.
    + f_equal. symmetry. apply filter_weaker. intros y Hy.
      destruct (String.eqb x y) eqn:Exy; [|reflexivity].
      apply String.eqb_eq in Exy. subst y. now rewrite E in Hy.
    + rewrite <- app_assoc. simpl. f_equal. f_equal.
      rewrite filter_both. apply filter_ext. intros y.
      rewrite existsb_app. simpl. rewrite orb_false_r, negb_orb.
      now rewrite (String.eqb_sym y x).
Qed.

Lemma get_in {V} (d : dict V) (k : string) (v : V) :
  get d k = Some v -> In (k, v) d.
Proof.
  induction d as [|[k' v'] d IH]; simpl; [discriminate|].
  destruct (String.eqb k' k) eqn:E.
  - apply String.eqb_eq in E. intros [= ->]. subst. now left.
  - intros H. right. now apply IH.
Qed.

Lemma Forall_set {V} (Q : string * V -> Prop) (d : dict V) (k : string) (v : V) :
  Forall Q d -> Q (k, v) -> Forall Q (set d k v).
Proof.
  intros Hd Hk. induction Hd as [|[k' v'] d H Hd IH]; simpl.
  - now constructor.
  - destruct (String.eqb k' k) eqn:E.
    + apply String.eqb_eq in E. subst k'. now constructor.
    + now constructor.
Qed.

Lemma group_by_address_keys (comps : list record) (g g' : dict (list record)) :
  group_by_address comps g = Ok g' ->
  Forall group_ok g ->
  Forall group_ok g'
  /\ exists ks, mapM address_key comps = Ok ks
                /\ keys g' = fold_left (fun a k => set_add k a) (filter nonempty ks) (keys g).
Proof.
  revert g. induction comps as [|comp rest IH]; intros g H Hg.
  - simpl in H. injection H as <-. split; [assumption|]. now exists [].
  - cbn [group_by_address] in H. cbn [mapM]. fold (address_key comp) in H.
    destruct (address_key comp) as [k|e] eqn:K; cbn [bind] in H |- *; [|discriminate].
    destruct (String.eqb k "") eqn:E.
    + destruct (IH _ H Hg) as (Hg' & ks & -> & Hk). split; [assumption|].
      exists (k :: ks). split; [reflexivity|].
      simpl. unfold nonempty at 1. now rewrite E.
    + assert (Hs : Forall group_ok (set g k (get_default g k [] ++ [comp])%list)).
      { apply Forall_set; [assumption|]. repeat split; cbn [fst snd].
        - intros ->. discriminate E.
        - now destruct (get_default g k []).
        - apply Forall_app. split; [|now repeat constructor].
          unfold get_default. destruct (get g k) as [grp|] eqn:G; [|constructor].
          apply get_in in G. rewrite Forall_forall in Hg.
          now destruct (Hg _ G) as (_ & _ & F). }
      destruct (IH _ H Hs) as (Hg' & ks & -> & Hk). split; [assumption|].
      exists (k :: ks). split; [reflexivity|].
      simpl. unfold nonempty at 1. rewrite E. simpl.
      now rewrite Hk, keys_set.
Qed.

Lemma merge_others_occupied (others : list record) (base b : record)
    (srcs s : list string) (k : string) :
  vacant base k = false ->
  merge_others others base srcs = Ok (b, s) ->
  get b k = get base k.
Proof.
  revert base srcs. induction others as [|o others IH]; intros base srcs V H.
  - simpl in H. now injection H as <- <-.
  - cbn [merge_others] in H.
    destruct (primary_source o) as [p|e]; cbn [bind] in H; [|discriminate].
    pose proof (fill_from_occupied o base k V) as F.
    rewrite (IH _ _ (eq_trans (f_equal (fun g => match g with None => true | Some v => is_none v end) F) V) H).
    exact F.
Qed.

Lemma merge_group_key (grp : list record) (k : string) (o : option record) :
  group_ok (k, grp) ->
  merge_group grp = Ok o ->
  exists r, o = Some r /\ address_key r = Ok k.
Proof.
  intros (Hk & Hn & Hall) H. cbn [fst snd] in *.
  unfold merge_group in H. destruct grp as [|x grp]; [now destruct Hn|].
  destruct (sort_group (x :: grp)) as [ordered|e] eqn:S; cbn [bind] in H; [|discriminate].
  apply sorted_desc_perm in S.
  destruct ordered as [|seed others]; [discriminate|].
  destruct (primary_source seed) as [p|e]; cbn [bind] in H; [|discriminate].
  destruct (merge_others others seed [p]) as [[b s]|e] eqn:M; cbn [bind] in H; [|discriminate].
  cbn [fst snd] in H.
  destruct (finish b s) as [r|e] eqn:F; cbn [bind] in H; [|discriminate].
  injection H as <-. exists r. split; [reflexivity|].
  assert (Hseed : address_key seed = Ok k).
  { rewrite Forall_forall in Hall. apply Hall.
    apply (Permutation_in _ (Permutation_sym S)). now left. }
  unfold address_key in *.
  rewrite (finish_keeps_fields b s r "address" eq_refl F).
  rewrite (merge_others_occupied others seed b [p] s "address"); [assumption| |assumption].
  unfold _normalize_address_for_dedup in Hseed. unfold vacant.
  destruct (get seed "address") as [v|]; cbn [truthy_opt negb] in Hseed.
  - destruct v; try reflexivity. cbn in Hseed. injection Hseed as <-. now destruct Hk.
  - injection Hseed as <-. now destruct Hk.
Qed.

Lemma merged_keys (g : dict (list record)) (merged : list (option record)) :
  Forall group_ok g ->
  mapM merge_group (values g) = Ok merged ->
  mapM address_key (somes merged) = Ok (keys g).
Proof.
  intros Hg. revert merged. induction Hg as [|[k grp] g H Hg IH]; intros merged M.
  - simpl in M. now injection M as <-.
  - cbn [values map snd mapM] in M.
    destruct (merge_group grp) as [o|e] eqn:G; cbn [bind] in M; [|discriminate].
    fold (values g) in M.
    destruct (mapM merge_group (values g)) as [ms|e]; cbn [bind] in M; [|discriminate].
    injection M as <-.
    destruct (merge_group_key grp k o H G) as (r & -> & K).
    cbn [somes mapM]. rewrite K. cbn [bind]. now rewrite (IH ms eq_refl).
Qed.

Lemma dedup_groups (comps out : list record) :
  _deduplicate_and_enhance comps = Ok out ->
  exists (g : dict (list record)) ks,
    mapM address_key comps = Ok ks
    /\ keys g = fold_left (fun a k => set_add k a) (filter nonempty ks) []
    /\ mapM address_key out = Ok (keys g).
Proof.
  unfold _deduplicate_and_enhance. intros H.
  destruct (group_by_address comps []) as [g|e] eqn:G; cbn [bind] in H; [|discriminate].
  destruct (mapM merge_group (values g)) as [merged|e] eqn:M; cbn [bind] in H;
    [|discriminate].
  injection H as <-.
  destruct (group_by_address_keys comps [] g G (Forall_nil _)) as (Hg & ks & Hks & K).
  exists g, ks. split; [assumption|]. split; [exact K|].
  exact (merged_keys g merged Hg M).
Qed.

Lemma first_appearances (l : list string) :
  fold_left (fun a k => set_add k a) l [] = distinct l.
Proof.
  rewrite fold_set_add. simpl.
  induction (distinct l) as [|x d IH]; simpl; congruence.
Qed.

(** X6. When the merge returns, its output holds exactly one record for each
    distinct non-empty normalized address of the input, in the order in
    which these addresses first appear; records whose address normalizes to
    the empty text leave no trace. *)
Theorem one_record_per_distinct_address (comps out : list record) :
  _deduplicate_and_enhance comps = Ok out ->
  exists ks,
    mapM address_key comps = Ok ks
    /\ mapM address_key out = Ok (distinct (filter nonempty ks)).
Proof.
  intros H. destruct (dedup_groups comps out H) as (g & ks & Hks & K & Hout).
  exists ks. split; [exact Hks|].
  rewrite Hout, K. f_equal. apply first_appearances.
Qed.

Lemma one_record_per_distinct_address_witness :
  exists ks,
    mapM address_key Cases.four_reports = Ok ks
    /\ mapM address_key
            (match _deduplicate_and_enhance Cases.four_reports with
             | Ok out => out
             | Raise _ => []
             end)
       = Ok (distinct (filter nonempty ks)).
Proof.
  apply one_record_per_distinct_address. vm_compute. reflexivity.
Defined.

(** ** The recency filter applied twice *)

Lemma ltb_irrefl (c : float) : PrimFloat.ltb c c = false.
Proof.
  destruct (PrimFloat.ltb c c) eqn:E; [|reflexivity].
  now rewrite (ltb_asym c c E) in E.
Qed.

Lemma min_again (a v : value) (cap : float) :
  PyNum.min a (VFloat cap) = Ok v -> PyNum.min v (VFloat cap) = Ok v.
Proof.
  unfold PyNum.min.
  destruct (PyNum.lt (VFloat cap) a) as [c|e] eqn:L; cbn [bind]; [|discriminate].
  destruct c; intros [= <-].
  - cbn [PyNum.lt bind]. now rewrite ltb_irrefl.
  - now rewrite L.
Qed.

Lemma set_set {V} (d : dict V) (k : string) (v : V) :
  set (set d k v) k v = set d k v.
Proof.
  induction d as [|[k' v'] d IH]; simpl.
  - now rewrite String.eqb_refl.
  - destruct (String.eqb k' k) eqn:E; simpl; rewrite E; [reflexivity|].
    now rewrite IH.
Qed.

Lemma cap_confidence_again (comp comp' : record) (cap : float) :
  cap_confidence comp cap = Ok comp' -> cap_confidence comp' cap = Ok comp'.
Proof.
  unfold cap_confidence.
  destruct (PyNum.min (get_default comp "confidenceScore" (VFloat 0.5)) (VFloat cap))
    as [v|e] eqn:M; cbn [bind]; [|discriminate].
  intros [= <-]. unfold get_default at 1. rewrite get_set_same.
  rewrite (min_again _ _ _ M). cbn [bind]. now rewrite set_set.
Qed.

Lemma cap_confidence_keeps_date (comp comp' : record) (cap : float) :
  cap_confidence comp cap = Ok comp' -> get comp' "saleDate" = get comp "saleDate".
Proof.
  unfold cap_confidence.
  destruct (PyNum.min _ _) as [v|e]; cbn [bind]; [|discriminate].
  intros [= <-]. now apply get_set_other.
Qed.

Lemma filter_step_again (cutoff_year : Z) (comp comp' : record) :
  filter_step cutoff_year comp = Ok (comp', true) ->
  filter_step cutoff_year comp' = Ok (comp', true).
Proof.
  unfold filter_step.
  destruct (get comp "saleDate") as [d|] eqn:G.
  - destruct (truthy d) eqn:T.
    + destruct (strptime d) as [x|e] eqn:P.
      * intros [= <- K]. now rewrite G, T, P, K.
      * destruct (is_ValueError e) eqn:V; [|discriminate].
        destruct (cap_confidence comp 0.4) as [c|e'] eqn:C; cbn [bind]; [|discriminate].
        intros [= <-].
        rewrite (cap_confidence_keeps_date _ _ _ C), G, T, P, V.
        now rewrite (cap_confidence_again _ _ _ C).
    + destruct (cap_confidence comp 0.3) as [c|e'] eqn:C; cbn [bind]; [|discriminate].
      intros [= <-].
      rewrite (cap_confidence_keeps_date _ _ _ C), G, T.
      now rewrite (cap_confidence_again _ _ _ C).
  - destruct (cap_confidence comp 0.3) as [c|e'] eqn:C; cbn [bind]; [|discriminate].
    intros [= <-].
    rewrite (cap_confidence_keeps_date _ _ _ C), G.
    now rewrite (cap_confidence_again _ _ _ C).
Qed.

Lemma kept_again (cutoff_year : Z) (steps : list (record * bool)) :
  Forall (fun s => filter_step cutoff_year (fst s) = Ok (fst s, true))
         (filter snd steps) ->
  mapM (filter_step cutoff_year) (kept steps)
  = Ok (map (fun r => (r, true)) (kept steps)).
Proof.
  unfold kept. induction (filter snd steps) as [|[r b] l IH]; intros H; [reflexivity|].
  inversion H as [|? ? Hr Hl]; subst. cbn [map fst mapM] in *.
  rewrite Hr. cbn [bind]. now rewrite (IH Hl).
Qed.

Lemma kept_of_kept (l : list record) : kept (map (fun r => (r, true)) l) = l.
Proof.
  unfold kept. induction l as [|r l IH]; simpl; [reflexivity|]. now f_equal.
Qed.

(** X7. Filtering for recency a second time changes nothing: the records
    that the filter returns pass it again, and their confidence scores,
    already capped, stay as they are. *)
Theorem recency_filter_is_idempotent (now : date) (years_back : Z)
    (comps out : list record) :
  _filter_recent_sales now comps years_back = Ok out ->
  _filter_recent_sales now out years_back = Ok out.
Proof.
  unfold _filter_recent_sales.
  destruct (mapM (filter_step (year now - years_back)) comps) as [steps|e] eqn:M;
    cbn [bind]; [|discriminate].
  intros [= <-].
  rewrite kept_again; [cbn [bind]; now rewrite kept_of_kept|].
  apply mapM_ok_inv in M. clear - M.
  induction M as [|c [c' b] comps steps H M IH]; cbn [filter]; [constructor|].
  cbn [snd]. destruct b; [|assumption].
  constructor; [|assumption]. cbn [fst]. now apply (filter_step_again _ c).
Qed.

Lemma recency_filter_is_idempotent_witness :
  _filter_recent_sales Scenario.today Cases.mixed_dates 3
  = Ok Cases.mixed_dates_filtered
  /\ _filter_recent_sales Scenario.today Cases.mixed_dates_filtered 3
     = Ok Cases.mixed_dates_filtered.
Proof.
  assert (H : _filter_recent_sales Scenario.today Cases.mixed_dates 3
              = Ok Cases.mixed_dates_filtered) by (vm_compute; reflexivity).
  split; [exact H|].
  exact (recency_filter_is_idempotent _ _ _ _ H).
Defined.

(** ** The ranker on a list that is already in order *)

Lemma sort_keyed_fixed {A} (l : list (float * A)) :
  StronglySorted (fun p q => PrimFloat.ltb (fst p) (fst q) = false) l ->
  PySort.sort_keyed float_lt l = Ok l.
Proof.
  induction 1 as [|x l Hl IH Hx]; [reflexivity|].
  cbn [PySort.sort_keyed]. rewrite IH. cbn [bind].
  destruct l as [|y l]; [reflexivity|].
  cbn [PySort.insert_desc]. unfold float_lt at 1. cbn [bind].
  inversion Hx as [|? ? Hy _]; subst. now rewrite Hy.
Qed.

Lemma decorate_combine {A K} (key : A -> result K) (l : list A) (ks : list K) :
  Forall2 (fun x k => key x = Ok k) l ks ->
  mapM (fun x => k <- key x ;; Ok (k, x)) l = Ok (combine ks l)
  /\ map snd (combine ks l) = l.
Proof.
  induction 1 as [|x k l ks H _ [IH1 IH2]]; [split; reflexivity|].
  cbn [mapM combine map snd]. rewrite H. cbn [bind]. rewrite IH1. cbn [bind].
  split; [reflexivity|]. now rewrite IH2.
Qed.

Lemma sorted_combine {A} (R : float -> float -> Prop) (l : list A) (ks : list float) :
  StronglySorted R ks ->
  StronglySorted (fun p q => R (fst p) (fst q)) (combine ks l).
Proof.
  intros H. revert l. induction H as [|k ks Hs IH Hk]; intros l; [constructor|].
  destruct l as [|x l]; cbn [combine]; constructor; [apply IH|].
  apply Forall_forall. intros [k' x'] Hin. apply in_combine_l in Hin.
  rewrite Forall_forall in Hk. now apply Hk.
Qed.

Lemma ranker_fixed (now : date) (comps : list record) (input_data : record)
    (subject_size : option Z) (scores : list float) :
  subject_size_of input_data = Ok subject_size ->
  Forall2 (fun r k => relevance_score now subject_size (subject_year_of input_data) r
                      = Ok k) comps scores ->
  StronglySorted (fun a b => PrimFloat.ltb a b = false) scores ->
  _sort_by_relevance now comps input_data = Ok comps.
Proof.
  intros Hs Hk Hd. unfold _sort_by_relevance, PySort.sorted_desc.
  rewrite Hs. cbn [bind].
  destruct (decorate_combine _ _ _ Hk) as [-> Hm]. cbn [bind].
  rewrite (sort_keyed_fixed _ (sorted_combine _ comps scores Hd)). cbn [bind].
  now rewrite Hm.
Qed.

(** X8. A list whose relevance scores are already in descending order, ties
    included, comes back from the ranker as it went in: the sort is stable
    and never moves a record past one of equal score. *)
Theorem ranking_keeps_a_ranked_list (now : date) (comps : list record)
    (input_data : record) (subject_size : option Z) (scores : list float) :
  subject_size_of input_data = Ok subject_size ->
  mapM (relevance_score now subject_size (subject_year_of input_data)) comps
  = Ok scores ->
  StronglySorted (fun a b => PrimFloat.ltb a b = false) scores ->
  _sort_by_relevance now comps input_data = Ok comps.
Proof.
  intros Hs Hk Hd. apply mapM_ok_inv in Hk.
  exact (ranker_fixed now comps input_data subject_size scores Hs Hk Hd).
Qed.

Lemma ranking_keeps_a_ranked_list_witness :
  _sort_by_relevance Scenario.today Cases.equally_good Scenario.subject
  = Ok Cases.equally_good.
Proof.
  apply (ranking_keeps_a_ranked_list _ _ _ None
           (map (fun _ => (0.8 * 0.4)%float) Cases.equally_good)).
  - reflexivity.
  - vm_compute. reflexivity.
  - repeat constructor.
Defined.

Lemma Forall2_Forall_r {A B} (P : A -> B -> Prop) (Q : B -> Prop)
    (l : list A) (ks : list B) :
  Forall2 P l ks -> (forall x k, In x l -> P x k -> Q k) -> Forall Q ks.
Proof.
  induction 1 as [|x k l ks H _ IH]; intros HQ; constructor.
  - apply (HQ x k); [now left|assumption].
  - apply IH. intros x' k' Hin. apply HQ. now right.
Qed.

(** X9. Ranking is idempotent: when the ranker returns and no score is a
    NaN, ranking its output again returns that output unchanged. *)
Theorem ranking_is_idempotent (now : date) (comps ranked : list record)
    (input_data : record) :
  _sort_by_relevance now comps input_data = Ok ranked ->
  (forall subject_size,
      subject_size_of input_data = Ok subject_size ->
      Forall (fun r => forall k,
                relevance_score now subject_size (subject_year_of input_data) r = Ok k ->
                is_nan k = false) comps) ->
  _sort_by_relevance now ranked input_data = Ok ranked.
Proof.
  intros H Hn.
  destruct (ranker_result now comps ranked input_data H)
    as (ss & scores & Hs & Hp & Hk & Hd).
  apply (ranker_fixed now ranked input_data ss scores Hs Hk).
  apply Hd. apply (Forall2_Forall_r _ _ _ _ Hk).
  intros r k Hin Hr.
  pose proof (Hn ss Hs) as Hc. rewrite Forall_forall in Hc.
  apply (Hc r); [|assumption].
  now apply (Permutation_in _ (Permutation_sym Hp)).
Qed.

Lemma ranking_is_idempotent_witness :
  _sort_by_relevance Scenario.today
    (match _sort_by_relevance Scenario.today Scenario.five_sized_sales
             (Scenario.subject_asking_for (VInt 2)) with
     | Ok ranked => ranked
     | Raise _ => []
     end)
    (Scenario.subject_asking_for (VInt 2))
  = Ok (match _sort_by_relevance Scenario.today Scenario.five_sized_sales
                (Scenario.subject_asking_for (VInt 2)) with
        | Ok ranked => ranked
        | Raise _ => []
        end).
Proof.
  apply (ranking_is_idempotent Scenario.today Scenario.five_sized_sales).
  - vm_compute. reflexivity.
  - intros ss Hs. vm_compute in Hs. injection Hs as <-.
    repeat constructor; intros k Hk; vm_compute in Hk; injection Hk as <-; reflexivity.
Defined.

(** ** The pipeline end to end *)

Lemma mapM_key_of (l : list record) (ks : list string) :
  mapM address_key l = Ok ks -> map key_of l = ks.
Proof.
  intros H. apply mapM_ok_inv in H.
  induction H as [|r k l ks H _ IH]; [reflexivity|].
  cbn [map]. unfold key_of at 1. rewrite H. now f_equal.
Qed.

Lemma key_of_mapM (l : list record) :
  Forall (fun r => key_of r <> "") l -> mapM address_key l = Ok (map key_of l).
Proof.
  induction 1 as [|r l H _ IH]; [reflexivity|].
  cbn [mapM map]. unfold key_of in H |- * at 1.
  destruct (address_key r) as [k|e]; [|now destruct H].
  cbn [bind]. now rewrite IH.
Qed.

Lemma filter_keeps_images_distinct {A B} (image : A -> B) (keep : A -> bool) :
  forall l, NoDup (map image l) -> NoDup (map image (filter keep l)).
Proof.
  intros l. induction l as [|x l IH]; simpl; [auto|].
  intros H. inversion H as [|? ? Hx Hl]; subst.
  destruct (keep x); [|auto]. simpl. constructor; [|auto].
  intros Hin. apply Hx. apply in_map_iff in Hin as (y & E & Hy).
  apply in_map_iff. exists y. split; [assumption|].
  now apply filter_In in Hy.
Qed.

Lemma Forall_filter {A} (P : A -> Prop) (p : A -> bool) (l : list A) :
  Forall P l -> Forall P (filter p l).
Proof.
  induction 1 as [|x l H _ IH]; simpl; [constructor|].
  destruct (p x); [constructor|]; assumption.
Qed.

Lemma NoDup_firstn {A} (n : nat) (l : list A) : NoDup l -> NoDup (firstn n l).
Proof.
  intros H. rewrite <- (firstn_skipn n l) in H. now apply NoDup_app_remove_r in H.
Qed.

Lemma Forall_firstn' {A} (P : A -> Prop) (n : nat) (l : list A) :
  Forall P l -> Forall P (firstn n l).
Proof.
  intros H. rewrite <- (firstn_skipn n l) in H. now apply Forall_app in H.
Qed.

Lemma distinct_addresses_filter (p : record -> bool) (l : list record) :
  distinct_addresses l -> distinct_addresses (filter p l).
Proof.
  intros [H1 H2]. split; [now apply filter_keeps_images_distinct|now apply Forall_filter].
Qed.

Lemma distinct_addresses_firstn (n : nat) (l : list record) :
  distinct_addresses l -> distinct_addresses (firstn n l).
Proof.
  intros [H1 H2]. split; [|now apply Forall_firstn'].
  rewrite <- firstn_map. now apply NoDup_firstn.
Qed.

Lemma distinct_addresses_perm (l l' : list record) :
  Permutation l l' -> distinct_addresses l -> distinct_addresses l'.
Proof.
  intros Hp [H1 H2]. split.
  - apply (Permutation_NoDup (Permutation_map key_of Hp) H1).
  - apply (Permutation_Forall Hp H2).
Qed.

Lemma dedup_distinct_addresses (comps out : list record) :
  _deduplicate_and_enhance comps = Ok out -> distinct_addresses out.
Proof.
  intros H. destruct (dedup_groups comps out H) as (g & ks & _ & K & Hout).
  rewrite K, first_appearances in Hout.
  pose proof (mapM_key_of _ _ Hout) as E. split.
  - rewrite E. apply distinct_nodup.
  - apply Forall_forall. intros r Hr Hk.
    assert (Hin : In (key_of r) (distinct (filter nonempty ks))).
    { rewrite <- E. now apply in_map. }
    rewrite Hk in Hin. apply distinct_in, filter_In in Hin as [_ Hin].
    discriminate Hin.
Qed.

Lemma cap_confidence_keeps_address (comp comp' : record) (cap : float) :
  cap_confidence comp cap = Ok comp' -> key_of comp' = key_of comp.
Proof.
  unfold cap_confidence.
  destruct (PyNum.min _ _) as [v|e]; cbn [bind]; [|discriminate].
  intros [= <-]. unfold key_of, address_key. now rewrite get_set_other.
Qed.

Lemma filter_step_keeps_address (cutoff_year : Z) (comp comp' : record) (b : bool) :
  filter_step cutoff_year comp = Ok (comp', b) -> key_of comp' = key_of comp.
Proof.
  unfold filter_step.
  destruct (get comp "saleDate") as [d|].
  - destruct (truthy d).
    + destruct (strptime d) as [x|e].
      * now intros [= <- _].
      * destruct (is_ValueError e); [|discriminate].
        destruct (cap_confidence comp 0.4) as [c|e'] eqn:C; cbn [bind]; [|discriminate].
        intros [= <- _]. now apply (cap_confidence_keeps_address _ _ _ C).
    + destruct (cap_confidence comp 0.3) as [c|e'] eqn:C; cbn [bind]; [|discriminate].
      intros [= <- _]. now apply (cap_confidence_keeps_address _ _ _ C).
  - destruct (cap_confidence comp 0.3) as [c|e'] eqn:C; cbn [bind]; [|discriminate].
    intros [= <- _]. now apply (cap_confidence_keeps_address _ _ _ C).
Qed.

Lemma filter_in_place_distinct (now : date) (l u r : list record) (years_back : Z) :
  filter_in_place now l years_back = Ok (u, r) ->
  distinct_addresses l -> distinct_addresses r.
Proof.
  unfold filter_in_place.
  destruct (mapM _ l) as [steps|e] eqn:M; cbn [bind]; [|discriminate].
  intros [= <- <-] [H1 H2]. apply mapM_ok_inv in M.
  assert (E : map key_of (map fst steps) = map key_of l
              /\ Forall (fun r => key_of r <> "") (map fst steps)).
  { clear H1. induction M as [|c [c' b] l steps H M IH]; [split; [reflexivity|constructor]|].
    cbn [map fst]. inversion H2; subst.
    rewrite (filter_step_keeps_address _ _ _ _ H).
    destruct (IH ltac:(assumption)) as [-> F]. split; [reflexivity|].
    constructor; [|assumption]. now rewrite (filter_step_keeps_address _ _ _ _ H). }
  destruct E as [E F]. unfold kept. split.
  - rewrite map_map. rewrite map_map in E.
    apply filter_keeps_images_distinct. now rewrite E.
  - clear - F. induction steps as [|[c b] steps IH]; [constructor|].
    cbn [map fst] in F. inversion F; subst. cbn [filter snd].
    destruct b; cbn [map fst]; [constructor|]; auto.
Qed.

Lemma remove_subject_spec (l out : list record) (subject_address : value) :
  remove_subject l subject_address = Ok out ->
  out = filter (fun c =>
                  match _is_same_address (Some (get_default c "address" (VStr "")))
                                         (Some subject_address) with
                  | Ok same => negb same
                  | Raise _ => false
                  end) l.
Proof.
  revert out. induction l as [|c l IH]; intros out H.
  - now injection H as <-.
  - cbn [remove_subject filter] in *.
    destruct (_is_same_address _ _) as [same|e]; cbn [bind] in H; [|discriminate].
    destruct (remove_subject l subject_address) as [rest|e]; cbn [bind] in H;
      [|discriminate].
    injection H as <-. rewrite (IH rest eq_refl). now destruct same.
Qed.

Lemma slice_is_firstn {A} (l out : list A) (n : value) :
  slice_to l n = Ok out -> exists k, out = firstn k l.
Proof.
  unfold slice_to. destruct n as [|z|f|s]; try discriminate.
  - intros [= <-]. exists (List.length l). now rewrite firstn_all.
  - destruct (0 <=? z); intros [= <-]; eexists; reflexivity.
Qed.

Section GatherFacts.
Variable now : date.
Variable municipal_assessor : value -> value -> value -> outcome.
Variable registry_of_deeds : value -> value -> value -> outcome.
Variable massgis : value -> value -> outcome.
Variable serp : value -> value -> value -> value -> outcome.

Local Abbreviation gather :=
  (gather_comparable_sales now municipal_assessor registry_of_deeds massgis serp).

(** The stages behind a returned document. *)
Lemma gather_stages (input_data : record) (g : gathered) :
  snd (gather input_data) = Ok g ->
  comparableSales g = []
  \/ exists all_comps unique_comps updated filtered recent_comps ranked k,
       _deduplicate_and_enhance all_comps = Ok unique_comps
       /\ filter_in_place now unique_comps 3 = Ok (updated, filtered)
       /\ (if truthy (get_default input_data "subjectAddress" (VStr ""))
           then remove_subject filtered (get_default input_data "subjectAddress" (VStr ""))
           else Ok filtered) = Ok recent_comps
       /\ _sort_by_relevance now recent_comps input_data = Ok ranked
       /\ comparableSales g = firstn k ranked.
Proof.
  unfold gather_comparable_sales.
  destruct (negb (truthy _) || negb (truthy _))%bool; cbn [snd].
  - intros [= <-]. now left.
  - intros H. right. unfold pipeline, funnel in H.
    set (subject_address := get_default input_data "subjectAddress" (VStr "")) in *.
    match type of H with context [_deduplicate_and_enhance ?a] => set (all_comps := a) in * end.
    destruct (_deduplicate_and_enhance all_comps) as [unique_comps|e] eqn:D;
      cbn [bind] in H; [|discriminate].
    destruct (filter_in_place now unique_comps 3) as [[updated filtered]|e] eqn:F;
      cbn [bind fst snd] in H; [|discriminate].
    destruct (if truthy subject_address then remove_subject filtered subject_address
              else Ok filtered) as [recent_comps|e] eqn:R; cbn [bind fst snd] in H;
      [|discriminate].
    destruct (_sort_by_relevance now recent_comps input_data) as [ranked|e] eqn:S;
      cbn [bind] in H; [|discriminate].
    destruct (slice_to ranked _) as [top|e] eqn:T; cbn [bind] in H; [|discriminate].
    destruct (_generate_search_summary _ _ _ _ _) as [summary|e]; cbn [bind] in H;
      [|discriminate].
    injection H as <-. cbn [comparableSales].
    destruct (slice_is_firstn _ _ _ T) as [k ->].
    exists all_comps, unique_comps, updated, filtered, recent_comps, ranked, k.
    repeat split; assumption.
Qed.

(** X10. No property is listed twice: in any document that the orchestrator
    returns, the comparable sales have normalized addresses that are
    non-empty and pairwise distinct. *)
Theorem no_property_is_listed_twice (input_data : record) (g : gathered) :
  snd (gather input_data) = Ok g ->
  exists ks,
    mapM address_key (comparableSales g) = Ok ks
    /\ NoDup ks
    /\ ~ In "" ks.
Proof.
  intros H.
  assert (D : distinct_addresses (comparableSales g)).
  { destruct (gather_stages input_data g H)
      as [-> | (a & u & u' & f & r & ranked & k & Hd & Hf & Hr & Hs & ->)].
    - split; constructor.
    - apply distinct_addresses_firstn.
      apply (distinct_addresses_perm r ranked).
      { apply (sorted_desc_perm float_lt
                 (relevance_score now
                    match subject_size_of input_data with Ok s => s | Raise _ => None end
                    (subject_year_of input_data))).
        unfold _sort_by_relevance in Hs.
        destruct (subject_size_of input_data); cbn [bind] in Hs; [exact Hs|discriminate]. }
      assert (Df : distinct_addresses f).
      { apply (filter_in_place_distinct now u u' f 3 Hf).
        now apply (dedup_distinct_addresses a). }
      destruct (truthy _).
      + rewrite (remove_subject_spec _ _ _ Hr). now apply distinct_addresses_filter.
      + now injection Hr as <-. }
  destruct D as [D1 D2]. exists (map key_of (comparableSales g)).
  split; [now apply key_of_mapM|]. split; [assumption|].
  intros Hin. apply in_map_iff in Hin as (r & E & Hr).
  rewrite Forall_forall in D2. now apply (D2 r).
Qed.

(** X11. The subject property is never its own comparable: when the input
    names a subject address, the address comparison answers "different" for
    every comparable sale of a returned document. *)
Theorem subject_is_never_its_own_comparable (input_data : record) (g : gathered) :
  truthy (get_default input_data "subjectAddress" (VStr "")) = true ->
  snd (gather input_data) = Ok g ->
  Forall (fun c =>
            _is_same_address (Some (get_default c "address" (VStr "")))
                             (Some (get_default input_data "subjectAddress" (VStr "")))
            = Ok false)
         (comparableSales g).
Proof.
  intros T H.
  destruct (gather_stages input_data g H)
    as [-> | (a & u & u' & f & r & ranked & k & Hd & Hf & Hr & Hs & ->)];
    [constructor|].
  apply Forall_firstn'.
  assert (Hp : Permutation r ranked).
  { apply (sorted_desc_perm float_lt
             (relevance_score now
                match subject_size_of input_data with Ok s => s | Raise _ => None end
                (subject_year_of input_data))).
    unfold _sort_by_relevance in Hs.
    destruct (subject_size_of input_data); cbn [bind] in Hs; [exact Hs|discriminate]. }
  apply (Permutation_Forall Hp).
  rewrite T in Hr. rewrite (remove_subject_spec _ _ _ Hr).
  apply Forall_forall. intros c Hc. apply filter_In in Hc as [_ Hc].
  destruct (_is_same_address _ _) as [[|]|e]; try discriminate. reflexivity.
Qed.

End GatherFacts.

Lemma no_property_is_listed_twice_witness :
  exists ks,
    mapM address_key
         (comparableSales
            (match snd (gather_comparable_sales Scenario.today
                          (Scenario.assessor_finds Cases.four_reports)
                          Scenario.nothing3 Scenario.nothing2 Scenario.nothing4
                          Cases.subject_on_elm_road)
             with Ok g => g | Raise _ => mk_gathered [] "" end)) = Ok ks
    /\ NoDup ks
    /\ ~ In "" ks.
Proof.
  apply (no_property_is_listed_twice Scenario.today
           (Scenario.assessor_finds Cases.four_reports)
           Scenario.nothing3 Scenario.nothing2 Scenario.nothing4
           Cases.subject_on_elm_road).
  vm_compute. reflexivity.
Defined.

Lemma subject_is_never_its_own_comparable_witness :
  Forall (fun c =>
            _is_same_address (Some (get_default c "address" (VStr "")))
                             (Some (VStr "8 ELM ROAD"))
            = Ok false)
         (comparableSales
            (match snd (gather_comparable_sales Scenario.today
                          (Scenario.assessor_finds Cases.four_reports)
                          Scenario.nothing3 Scenario.nothing2 Scenario.nothing4
                          Cases.subject_on_elm_road)
             with Ok g => g | Raise _ => mk_gathered [] "" end)).
Proof.
  apply (subject_is_never_its_own_comparable Scenario.today
           (Scenario.assessor_finds Cases.four_reports)
           Scenario.nothing3 Scenario.nothing2 Scenario.nothing4
           Cases.subject_on_elm_road).
  - reflexivity.
  - vm_compute. reflexivity.
Defined.

(** ** The process entry point *)

Section MainFacts.
Variable now : date.
Variable municipal_assessor : value -> value -> value -> outcome.
Variable registry_of_deeds : value -> value -> value -> outcome.
Variable massgis : value -> value -> outcome.
Variable serp : value -> value -> value -> value -> outcome.

Local Abbreviation run_main :=
  (main now municipal_assessor registry_of_deeds massgis serp).

(** X12. Once the command line is parsed, from the reading of the input
    file on: the exit status is 0 or 1, and 0 exactly when the input was
    read and names the three required keys.  A document is written exactly
    when the input was read and the output file can be written.  A written
    document that reports an error carries no comparable sales, and a
    document written on exit status 1 is the missing-fields notice. *)
Theorem exit_status_and_error_documents (output_writable : bool) (input : loaded) :
  (exit_code (run_main output_writable input) = 0
   \/ exit_code (run_main output_writable input) = 1)
  /\ (exit_code (run_main output_writable input) = 0
      <-> exists input_data,
            input = Loaded input_data
            /\ forallb (contains input_data) required_fields = true)
  /\ (written (run_main output_writable input) <> None
      <-> output_writable = true /\ exists input_data, input = Loaded input_data)
  /\ (forall doc,
        written (run_main output_writable input) = Some doc ->
        doc_error doc = true -> doc_comparableSales doc = [])
  /\ (forall doc,
        written (run_main output_writable input) = Some doc ->
        exit_code (run_main output_writable input) = 1 ->
        doc = missing_fields_output).
Proof.
  destruct input as [| | |input_data]; cbn [main].
  1-3: (split; [now right|]; split; [split; [discriminate|intros (d & E & _); discriminate]|];
        split; [split; [now intros []|intros (_ & d & E); discriminate]|];
        split; intros doc; discriminate).
  destruct (forallb (contains input_data) required_fields) eqn:R; cbn [negb exit_code written];
    unfold write; destruct output_writable.
  - split; [now left|]. split; [split; [intros _; now exists input_data|reflexivity]|].
    split; [split; [intros _; split; [reflexivity|now exists input_data]|discriminate]|].
    split; [|intros doc _; discriminate].
    intros doc [= <-]. unfold results_of.
    destruct (snd _); cbn [doc_error doc_comparableSales]; [discriminate|reflexivity].
  - split; [now left|]. split; [split; [intros _; now exists input_data|reflexivity]|].
    split; [split; [now intros []|intros (E & _); discriminate]|].
    split; intros doc; discriminate.
  - split; [now right|].
    split; [split; [discriminate|intros (d & [= <-] & E); congruence]|].
    split; [split; [intros _; split; [reflexivity|now exists input_data]|discriminate]|].
    split; [now intros doc [= <-]|now intros doc [= <-]].
  - split; [now right|].
    split; [split; [discriminate|intros (d & [= <-] & E); congruence]|].
    split; [split; [now intros []|intros (E & _); discriminate]|].
    split; intros doc; discriminate.
Qed.

End MainFacts.

(** ** The Registry of Deeds source *)

Lemma registry_entries_lack_name :
  forallb (fun kv : string * dict string =>
             (Registry.truthy_dict (snd kv) && negb (contains (snd kv) "name"))%bool)
          Registry.COUNTY_REGISTRY_MAP = true.
Proof. reflexivity. Qed.

(** X13. The registry look-up succeeds only for counties that are not
    configured: for every county of [COUNTY_REGISTRY_MAP] (up to letter
    case and surrounding white space) it raises [KeyError('name')], because
    no entry of the map has that key; for any other text it returns the
    generic placeholder. *)
Theorem registry_lookup_fails_for_configured_counties (city : value) (county : string) :
  Registry.find_registry_for_address city (VStr county)
  = if contains Registry.COUNTY_REGISTRY_MAP (Registry.strip (lower county))
    then Raise Registry.KeyError_name
    else Ok (Registry.fallback county).
Proof.
  unfold Registry.find_registry_for_address, contains.
  destruct (get Registry.COUNTY_REGISTRY_MAP (Registry.strip (lower county)))
    as [info|] eqn:G; [|reflexivity].
  apply get_in in G.
  pose proof registry_entries_lack_name as H. rewrite forallb_forall in H.
  specialize (H _ G). cbn [snd] in H. apply andb_true_iff in H as [H1 H2].
  rewrite H1. cbn [negb]. unfold contains in H2.
  now destruct (get info "name").
Qed.

(** X14. The Registry of Deeds source never contributes a record: whatever
    the property type, city, county and subject address, and however the
    URL template formats, the guarded call returns the empty list. *)
Theorem registry_source_contributes_nothing
    (format_search_page : string -> result string)
    (property_type city county subject_address : value) :
  _get_registry_of_deeds_data (Registry.registry_of_deeds format_search_page)
    property_type city county subject_address
  = Ok (Some []).
Proof.
  unfold _get_registry_of_deeds_data, guarded, Registry.registry_of_deeds.
  destruct (Registry.find_registry_for_address city county) as [info|e]; cbn [bind];
    [|reflexivity].
  destruct (negb (Registry.truthy_dict info)); [reflexivity|].
  unfold Registry.MassLandRecordsScraper.
  now destruct (format_search_page _).
Qed.

(** ** The municipal assessor source *)

(** X15. Outside Weymouth and Dedham the municipal assessor source finds
    nothing: Boston, Cambridge and Quincy are sent to scrapers that raise
    [NotImplementedError], every other municipality to the generic scraper
    that returns the empty list, and a city that is not a text makes the
    factory raise; the guarded call returns the empty list in all cases. *)
Theorem assessor_source_is_empty_outside_vision_towns
    (vision_search : string -> value -> outcome)
    (property_type city county : value) :
  vision_town city = false ->
  _get_municipal_assessor_data (Municipal.municipal_assessor vision_search)
    property_type city county
  = Ok (Some []).
Proof.
  unfold vision_town, _get_municipal_assessor_data, guarded,
    Municipal.municipal_assessor, Municipal.create_scraper.
  destruct city as [| z | f | m]; try reflexivity.
  intros H. apply orb_false_iff in H as [Hw Hd].
  set (key := Registry.strip (lower m)) in *.
  unfold Municipal.MUNICIPALITY_PLATFORM_MAP. cbn [get].
  rewrite (String.eqb_sym "weymouth" key), (String.eqb_sym "dedham" key), Hw, Hd.
  destruct (String.eqb "boston" key); [reflexivity|].
  destruct (String.eqb "cambridge" key); [reflexivity|].
  destruct (String.eqb "quincy" key); reflexivity.
Qed.

Lemma assessor_source_is_empty_outside_vision_towns_witness :
  _get_municipal_assessor_data
    (Municipal.municipal_assessor (fun _ _ => Ok (Some [Scenario.dated_sale])))
    (VStr "Retail") (VStr " Boston ") (VStr "Suffolk")
  = Ok (Some []).
Proof.
  apply assessor_source_is_empty_outside_vision_towns. reflexivity.
Defined.

(** X16. The factory never creates an [AxisGISScraper]: no municipality of
    the platform map is assigned to that platform. *)
Theorem factory_never_creates_an_axisgis_scraper (municipality county : value)
    (m : string) :
  Municipal.create_scraper municipality county <> Ok (Municipal.AxisGISScraper m).
Proof.
  unfold Municipal.create_scraper.
  destruct municipality as [| z | f | t]; try discriminate.
  unfold Municipal.MUNICIPALITY_PLATFORM_MAP. cbn [get].
  set (key := Registry.strip (lower t)).
  destruct (String.eqb "boston" key); [discriminate|].
  destruct (String.eqb "cambridge" key); [discriminate|].
  destruct (String.eqb "weymouth" key); [discriminate|].
  destruct (String.eqb "quincy" key); [discriminate|].
  destruct (String.eqb "dedham" key); discriminate.
Qed.

Lemma prefix_refl (s : string) : String.prefix s s = true.
Proof.
  induction s as [|c s IH]; [reflexivity|].
  simpl. now destruct (Ascii.ascii_dec c c).
Qed.

Lemma has_substring_refl (s : string) : has_substring s s = true.
Proof. destruct s; unfold has_substring; fold has_substring; now rewrite prefix_refl. Qed.

Lemma first_contained_spec (items : dict string) (pt_lower : string) :
  match Municipal.first_contained items pt_lower with
  | Some code => exists key, In (key, code) items /\ has_substring key pt_lower = true
  | None => forall key code, In (key, code) items -> has_substring key pt_lower = false
  end.
Proof.
  induction items as [|[k c] items IH]; cbn [Municipal.first_contained].
  - intros key code [].
  - destruct (has_substring k pt_lower) eqn:E.
    + exists k. split; [now left|assumption].
    + destruct (Municipal.first_contained items pt_lower) as [code|].
      * destruct IH as (key & Hin & Hs). exists key. split; [now right|assumption].
      * intros key code [[= <- <-]|Hin]; [assumption|]. now apply (IH key code).
Qed.

(** X17. The Vision use code chosen for a property type is the code of the
    first key of the table, in table order, that occurs in the lower-cased
    type: the exact look-up that comes first never changes the answer.  No
    code is chosen exactly when no key of the table occurs in the type. *)
Theorem vision_code_is_the_first_contained_key (property_type : string) :
  Municipal._map_property_type_to_vision_code property_type
  = Municipal.first_contained Municipal.type_map (lower property_type)
  /\ (Municipal._map_property_type_to_vision_code property_type = None
      <-> forall key code, In (key, code) Municipal.type_map ->
                           has_substring key (lower property_type) = false).
Proof.
  assert (E : Municipal._map_property_type_to_vision_code property_type
              = Municipal.first_contained Municipal.type_map (lower property_type)).
  { unfold Municipal._map_property_type_to_vision_code.
    destruct (get Municipal.type_map (lower property_type)) as [code|] eqn:G;
      [|reflexivity].
    apply get_in in G. revert G. generalize (lower property_type). intros p G.
    repeat (destruct G as [[= <- <-]|G]; [reflexivity|]). destruct G. }
  split; [exact E|]. rewrite E.
  pose proof (first_contained_spec Municipal.type_map (lower property_type)) as S.
  destruct (Municipal.first_contained Municipal.type_map (lower property_type)) as [code|].
  - split; [discriminate|]. intros H. destruct S as (key & Hin & Hs).
    rewrite (H key code Hin) in Hs. discriminate.
  - split; [intros _; exact S|reflexivity].
Qed.

(** ** Prices and areas: formatted numbers read back *)

Lemma digits_value_of_uint_acc (d : Decimal.uint) (acc : positive) :
  PyNum.digits_value (Z.pos acc) (NilEmpty.string_of_uint d)
  = Z.pos (Pos.of_uint_acc d acc).
Proof.
  revert acc. induction d as [|d IH|d IH|d IH|d IH|d IH|d IH|d IH|d IH|d IH|d IH];
    intros acc; cbn [NilEmpty.string_of_uint PyNum.digits_value Pos.of_uint_acc];
    [reflexivity|..];
    rewrite <- IH; f_equal; vm_compute (Z.of_nat _); lia.
Qed.

Lemma digits_value_of_uint (d : Decimal.uint) :
  PyNum.digits_value 0 (NilEmpty.string_of_uint d) = Z.of_N (Pos.of_uint d).
Proof.
  induction d as [|d IH|d IH|d IH|d IH|d IH|d IH|d IH|d IH|d IH|d IH];
    cbn [NilEmpty.string_of_uint PyNum.digits_value Pos.of_uint];
    [reflexivity|exact IH|..];
    vm_compute (Z.of_nat _); cbn [Z.mul Z.add Z.of_N];
    apply digits_value_of_uint_acc.
Qed.

Lemma string_of_uint_digits (d : Decimal.uint) :
  all_chars is_digit (NilEmpty.string_of_uint d) = true.
Proof.
  induction d; cbn [NilEmpty.string_of_uint all_chars]; [reflexivity|..];
    rewrite IHd; reflexivity.
Qed.

(** [str(n)] of a natural number: decimal digits that denote it. *)
Lemma of_Z_digits (n : Z) :
  0 <= n ->
  all_chars is_digit (of_Z n) = true
  /\ of_Z n <> ""
  /\ PyNum.digits_value 0 (of_Z n) = n.
Proof.
  intros H. destruct n as [|p|p]; [repeat split; discriminate| |lia].
  unfold of_Z, Z.to_int, NilZero.string_of_int, NilZero.string_of_uint.
  pose proof (DecimalPos.Unsigned.to_uint_nonnil p) as Hn.
  pose proof (DecimalPos.Unsigned.of_to p) as Hp.
  destruct (Pos.to_uint p) as [|d|d|d|d|d|d|d|d|d|d] eqn:E; [now destruct Hn|..];
    (split; [apply string_of_uint_digits|]; split; [discriminate|];
     rewrite digits_value_of_uint, Hp; reflexivity).
Qed.

Lemma filter_chars_none (p : ascii -> bool) (s : string) :
  all_chars (fun c => negb (p c)) s = true -> filter_chars p s = "".
Proof.
  induction s as [|c s IH]; simpl; [reflexivity|].
  intros H. apply andb_true_iff in H as [Hc Hs].
  apply negb_true_iff in Hc. rewrite Hc. now apply IH.
Qed.

Lemma filter_chars_all (p : ascii -> bool) (s : string) :
  all_chars p s = true -> filter_chars p s = s.
Proof.
  induction s as [|c s IH]; simpl; [reflexivity|].
  intros H. apply andb_true_iff in H as [Hc Hs]. rewrite Hc. now rewrite IH.
Qed.

Lemma append_empty_r (s : string) : s ++ "" = s.
Proof. induction s as [|c s IH]; simpl; [reflexivity|]. now rewrite IH. Qed.

(** Grouping by thousands only inserts commas. *)
Lemma group_thousands_digits (p : ascii -> bool) (ds : string) :
  p ","%char = false -> all_chars p ds = true ->
  filter_chars p (group_thousands ds) = ds.
Proof.
  intros Hc. induction ds as [|c ds IH]; [reflexivity|].
  cbn [group_thousands all_chars]. intros H. apply andb_true_iff in H as [Hd Hs].
  destruct (negb _ && _)%bool; cbn [filter_chars]; rewrite Hd, ?Hc, (IH Hs); reflexivity.
Qed.

Lemma group_thousands_class (ds : string) :
  all_chars is_digit ds = true ->
  all_chars BaseScraper.digit_or_comma (group_thousands ds) = true.
Proof.
  induction ds as [|c ds IH]; [reflexivity|].
  cbn [group_thousands all_chars]. intros H. apply andb_true_iff in H as [Hd Hs].
  assert (Hc : BaseScraper.digit_or_comma c = true).
  { unfold BaseScraper.digit_or_comma. now rewrite Hd. }
  destruct (negb _ && _)%bool; cbn [all_chars]; rewrite Hc, (IH Hs); reflexivity.
Qed.

Lemma group_thousands_length (ds : string) :
  (String.length ds <= String.length (group_thousands ds))%nat.
Proof.
  induction ds as [|c ds IH]; [apply Nat.le_refl|].
  cbn [group_thousands]. destruct (negb _ && _)%bool; simpl; lia.
Qed.

Lemma int_of_digits_of_Z (n : Z) :
  0 <= n ->
  Z.of_nat (String.length (of_Z n)) <= BaseScraper.int_max_str_digits ->
  BaseScraper.int_of_digits (of_Z n) = Ok n.
Proof.
  intros H L. destruct (of_Z_digits n H) as (_ & Hn & Hv).
  unfold BaseScraper.int_of_digits.
  destruct (String.eqb (of_Z n) "") eqn:E; [apply String.eqb_eq in E; contradiction|].
  apply Z.leb_le in L. rewrite Z.leb_antisym in L. apply negb_true_iff in L.
  now rewrite L, Hv.
Qed.

(** X18. A price written with a currency sign, commas between thousands and
    any text without digits around it is read back exactly: for every
    natural number [n] of at most 4300 digits, [_parse_price] of such a
    text returns [n]. *)
Theorem formatted_price_reads_back (n : Z) (before after : string) :
  0 <= n ->
  Z.of_nat (String.length (of_Z n)) <= BaseScraper.int_max_str_digits ->
  all_chars (fun c => negb (is_digit c)) before = true ->
  all_chars (fun c => negb (is_digit c)) after = true ->
  BaseScraper._parse_price (before ++ group_thousands (of_Z n) ++ after) = Ok (Some n).
Proof.
  intros H L Hb Ha. destruct (of_Z_digits n H) as (Hd & _ & _).
  unfold BaseScraper._parse_price.
  rewrite filter_chars_app, filter_chars_app, (filter_chars_none _ _ Hb), (filter_chars_none _ _ Ha).
  rewrite (group_thousands_digits is_digit _ eq_refl Hd).
  cbn [append]. rewrite append_empty_r.
  now rewrite (int_of_digits_of_Z n H L).
Qed.

Lemma formatted_price_reads_back_witness :
  BaseScraper._parse_price ("Sale Price: $" ++ group_thousands (of_Z 1250000) ++ " USD")
  = Ok (Some 1250000).
Proof.
  apply formatted_price_reads_back; [lia|vm_compute; discriminate|reflexivity|reflexivity].
Defined.

Lemma first_run_skips (p : ascii -> bool) (before s : string) :
  all_chars (fun c => negb (p c)) before = true ->
  BaseScraper.first_run p (before ++ s) = BaseScraper.first_run p s.
Proof.
  induction before as [|c b IH]; [reflexivity|].
  cbn [all_chars append BaseScraper.first_run]. intros H.
  apply andb_true_iff in H as [Hc Hb]. apply negb_true_iff in Hc.
  rewrite Hc. now apply IH.
Qed.

Lemma take_while_stops (p : ascii -> bool) (g after : string) :
  all_chars p g = true -> head_is p after = false ->
  BaseScraper.take_while p (g ++ after) = g.
Proof.
  intros Hg Ha. induction g as [|c g IH].
  - destruct after as [|a after]; [reflexivity|]. simpl in *. now rewrite Ha.
  - cbn [all_chars] in Hg. apply andb_true_iff in Hg as [Hc Hg].
    cbn [append BaseScraper.take_while]. rewrite Hc. now rewrite IH.
Qed.

Lemma first_run_found (p : ascii -> bool) (g after : string) :
  g <> "" -> all_chars p g = true -> head_is p after = false ->
  BaseScraper.first_run p (g ++ after) = Some g.
Proof.
  intros Hn Hg Ha. pose proof (take_while_stops p g after Hg Ha) as T.
  destruct g as [|c g]; [now destruct Hn|].
  cbn [all_chars] in Hg. apply andb_true_iff in Hg as [Hc _].
  cbn [append BaseScraper.first_run] in *. now rewrite Hc, T.
Qed.

(** X19. An area written with commas between thousands is read back exactly
    when no digit or comma comes before it and none follows it directly:
    for every natural number [n] of at most 4300 digits, [_parse_area] of
    such a text returns [n]. *)
Theorem formatted_area_reads_back (n : Z) (before after : string) :
  0 <= n ->
  Z.of_nat (String.length (of_Z n)) <= BaseScraper.int_max_str_digits ->
  all_chars (fun c => negb (BaseScraper.digit_or_comma c)) before = true ->
  head_is BaseScraper.digit_or_comma after = false ->
  BaseScraper._parse_area (before ++ group_thousands (of_Z n) ++ after) = Ok (Some n).
Proof.
  intros H L Hb Ha. destruct (of_Z_digits n H) as (Hd & Hn & _).
  unfold BaseScraper._parse_area.
  rewrite (first_run_skips _ _ _ Hb).
  rewrite (first_run_found BaseScraper.digit_or_comma (group_thousands (of_Z n)) after).
  - unfold BaseScraper.remove_commas.
    rewrite (group_thousands_digits (fun c => negb (Ascii.eqb c ",")) _ eq_refl).
    + now rewrite (int_of_digits_of_Z n H L).
    + clear - Hd. induction (of_Z n) as [|c s IH]; [reflexivity|].
      cbn [all_chars] in *. apply andb_true_iff in Hd as [Hc Hs].
      rewrite (IH Hs), andb_true_r.
      destruct (Ascii.eqb_spec c ","); [subst; discriminate Hc|reflexivity].
  - intros E. pose proof (group_thousands_length (of_Z n)) as G. rewrite E in G.
    destruct (of_Z n); [now destruct Hn|simpl in G; lia].
  - now apply group_thousands_class.
  - exact Ha.
Qed.

Lemma formatted_area_reads_back_witness :
  BaseScraper._parse_area ("Living Area: " ++ group_thousands (of_Z 12500) ++ " SF")
  = Ok (Some 12500).
Proof.
  apply formatted_area_reads_back; [lia|vm_compute; discriminate|reflexivity|reflexivity].
Defined.

(** ** Dates: from the assessor's format to the orchestrator's *)

Lemma digit_range (c : ascii) (v : Z) : digit c = Some v -> 0 <= v <= 9.
Proof.
  unfold digit, is_digit, in_range.
  destruct (Nat.leb 48 (ord c)) eqn:A; [|discriminate].
  destruct (Nat.leb (ord c) 57) eqn:B; [|discriminate].
  cbn [andb]. intros [= <-].
  apply Nat.leb_le in A, B. revert A B. generalize (ord c). intros n A B. lia.
Qed.

Lemma digit_in_range (lo hi : Z) (c : ascii) (v : Z) :
  digit_in lo hi c = Some v -> lo <= v <= hi.
Proof.
  unfold digit_in. destruct (digit c) as [d|]; [|discriminate].
  destruct ((lo <=? d) && (d <=? hi))%bool eqn:E; [|discriminate].
  intros [= <-]. apply andb_true_iff in E as [A B].
  apply Z.leb_le in A, B. lia.
Qed.

Lemma two_digits_range (lo1 hi1 lo2 hi2 : Z) (s r : string) (v : Z) :
  two_digits lo1 hi1 lo2 hi2 s = Some (v, r) ->
  10 * lo1 + lo2 <= v <= 10 * hi1 + hi2.
Proof.
  unfold two_digits. destruct s as [|a [|b s]]; try discriminate.
  destruct (digit_in lo1 hi1 a) as [x|] eqn:A; [|discriminate].
  destruct (digit_in lo2 hi2 b) as [y|] eqn:B; [|discriminate].
  intros [= <- _]. apply digit_in_range in A, B. destruct x; lia.
Qed.

Lemma one_digit_range (lo hi : Z) (s r : string) (v : Z) :
  one_digit lo hi s = Some (v, r) -> lo <= v <= hi.
Proof.
  unfold one_digit. destruct s as [|a s]; try discriminate.
  destruct (digit_in lo hi a) as [x|] eqn:A; [|discriminate].
  intros [= <- _]. now apply digit_in_range in A.
Qed.

Lemma space_digit_range (lo hi : Z) (s r : string) (v : Z) :
  space_digit lo hi s = Some (v, r) -> lo <= v <= hi.
Proof.
  unfold space_digit. destruct s as [|a s]; try discriminate.
  destruct (Ascii.eqb_spec a " "); [subst|].
  - apply one_digit_range.
  - destruct a as [[|] [|] [|] [|] [|] [|] [|] [|]]; try discriminate.
    now destruct n.
Qed.

Lemma first_match_found {A} (alts : list alternative) (k : Z -> string -> option A)
    (s : string) (a : A) :
  first_match alts k s = Some a ->
  exists alt v r, In alt alts /\ alt s = Some (v, r) /\ k v r = Some a.
Proof.
  induction alts as [|alt alts IH]; cbn [first_match]; [discriminate|].
  destruct (alt s) as [[v r]|] eqn:E.
  - destruct (k v r) as [a'|] eqn:K.
    + intros [= <-]. exists alt, v, r. split; [now left|split; assumption].
    + intros H. destruct (IH H) as (alt' & v' & r' & Hin & Ha & Hk).
      exists alt', v', r'. split; [now right|split; assumption].
  - intros H. destruct (IH H) as (alt' & v' & r' & Hin & Ha & Hk).
    exists alt', v', r'. split; [now right|split; assumption].
Qed.

Lemma month_found {A} (k : Z -> string -> option A) (s : string) (a : A) :
  first_match month_alternatives k s = Some a ->
  exists m r, 1 <= m <= 12 /\ k m r = Some a.
Proof.
  intros H. destruct (first_match_found _ _ _ _ H) as (alt & v & r & Hin & Ha & Hk).
  exists v, r. split; [|assumption].
  destruct Hin as [<-|[<-|[<-|[]]]].
  - apply two_digits_range in Ha. lia.
  - apply two_digits_range in Ha. lia.
  - apply one_digit_range in Ha. lia.
Qed.

Lemma day_found {A} (k : Z -> string -> option A) (s : string) (a : A) :
  first_match day_alternatives k s = Some a ->
  exists d r, 1 <= d <= 31 /\ k d r = Some a.
Proof.
  intros H. destruct (first_match_found _ _ _ _ H) as (alt & v & r & Hin & Ha & Hk).
  exists v, r. split; [|assumption].
  destruct Hin as [<-|[<-|[<-|[<-|[<-|[]]]]]].
  - apply two_digits_range in Ha. lia.
  - apply two_digits_range in Ha. lia.
  - apply two_digits_range in Ha. lia.
  - apply one_digit_range in Ha. lia.
  - apply space_digit_range in Ha. lia.
Qed.

Lemma match_year_range (s r : string) (y : Z) :
  match_year s = Some (y, r) -> 0 <= y <= 9999.
Proof.
  unfold match_year. destruct s as [|a [|b [|c [|d s]]]]; try discriminate.
  destruct (digit a) as [x|] eqn:A; [|discriminate].
  destruct (digit b) as [x'|] eqn:B; [|discriminate].
  destruct (digit c) as [x''|] eqn:C; [|discriminate].
  destruct (digit d) as [x'''|] eqn:D; [|discriminate].
  intros [= <- _]. apply digit_range in A, B, C, D.
  destruct x, x', x''; lia.
Qed.

(** What [strptime] with ['%m/%d/%Y'] returns is a calendar date of the
    years 1 to 9999. *)
Lemma strptime_mdY_valid (s : string) (d : date) :
  BaseScraper.strptime_mdY s = Ok d ->
  1 <= year d <= 9999 /\ 1 <= month d <= 12 /\ 1 <= day d <= 31
  /\ day d <= days_in_month (year d) (month d).
Proof.
  unfold BaseScraper.strptime_mdY.
  destruct (BaseScraper.match_mdY s) as [[[[y m] dd] rest]|] eqn:M; [|discriminate].
  destruct (negb (String.eqb rest "")); [discriminate|].
  destruct ((1 <=? y) && (dd <=? days_in_month y m))%bool eqn:V; [|discriminate].
  intros [= <-]. cbn [year month day].
  apply andb_true_iff in V as [V1 V2]. apply Z.leb_le in V1, V2.
  unfold BaseScraper.match_mdY in M.
  apply month_found in M as (m' & r1 & Hm & M).
  unfold BaseScraper.expect_slash in M at 1.
  destruct r1 as [|c1 r2]; [discriminate|].
  destruct (Ascii.eqb_spec c1 "/");
    [subst|destruct c1 as [[|] [|] [|] [|] [|] [|] [|] [|]]; try discriminate; now destruct n].
  apply day_found in M as (d' & r3 & Hd & M).
  unfold BaseScraper.expect_slash in M.
  destruct r3 as [|c3 r4]; [discriminate|].
  destruct (Ascii.eqb_spec c3 "/");
    [subst|destruct c3 as [[|] [|] [|] [|] [|] [|] [|] [|]]; try discriminate; now destruct n].
  destruct (match_year r4) as [[y' r5]|] eqn:Y; [|discriminate].
  injection M as <- <- <- <-. apply match_year_range in Y. lia.
Qed.

Lemma Z_in_range (lo n z : Z) :
  0 <= lo -> lo <= z < lo + n -> In z (map Z.of_nat (seq (Z.to_nat lo) (Z.to_nat n))).
Proof.
  intros H0 H. apply in_map_iff. exists (Z.to_nat z). split; [lia|].
  apply in_seq. lia.
Qed.

Ltac read_digits :=
  repeat match goal with
         | |- context [digit_in ?lo ?hi ?c] =>
             let t := eval vm_compute in (digit_in lo hi c) in
             progress change (digit_in lo hi c) with t
         end.

Ltac read_two_digit K :=
  match goal with
  | |- context [BaseScraper.two_digit ?n] =>
      let t := eval vm_compute in (BaseScraper.two_digit n) in
      change (BaseScraper.two_digit n) with t
  end;
  cbv [first_match month_alternatives day_alternatives two_digits one_digit space_digit
       append];
  read_digits; cbv beta iota;
  match type of K with
  | ?k ?c ?r = _ =>
      match goal with
      | |- context [k ?z r] => change z with c
      end
  end;
  rewrite K; reflexivity.

Lemma month_reads_back {A} (k : Z -> string -> option A) (m : Z) (r : string) (a : A) :
  1 <= m <= 12 -> k m r = Some a ->
  first_match month_alternatives k (BaseScraper.two_digit m ++ r) = Some a.
Proof.
  intros Hm K. pose proof (Z_in_range 1 12 m ltac:(lia) ltac:(lia)) as Hin.
  vm_compute in Hin.
  repeat (destruct Hin as [<-|Hin]; [read_two_digit K|]).
  destruct Hin.
Qed.

Lemma day_reads_back {A} (k : Z -> string -> option A) (d : Z) (r : string) (a : A) :
  1 <= d <= 31 -> k d r = Some a ->
  first_match day_alternatives k (BaseScraper.two_digit d ++ r) = Some a.
Proof.
  intros Hd K. pose proof (Z_in_range 1 31 d ltac:(lia) ltac:(lia)) as Hin.
  vm_compute in Hin.
  repeat (destruct Hin as [<-|Hin]; [read_two_digit K|]).
  destruct Hin.
Qed.

Lemma four_digit_years (pads_year : bool) :
  forallb (fun y => match match_year (BaseScraper.year_text pads_year y) with
                    | Some (v, EmptyString) => v =? y
                    | _ => false
                    end)
          (map Z.of_nat (seq (Z.to_nat 1000) (Z.to_nat 9000))) = true.
Proof. destruct pads_year; vm_compute; reflexivity. Qed.

Lemma padded_short_years :
  forallb (fun y => match match_year (BaseScraper.year_text true y) with
                    | Some (v, EmptyString) => v =? y
                    | _ => false
                    end)
          (map Z.of_nat (seq (Z.to_nat 0) (Z.to_nat 1000))) = true.
Proof. vm_compute. reflexivity. Qed.

Lemma short_years :
  forallb (fun y => Nat.leb (String.length (BaseScraper.year_text false y)) 3)
          (map Z.of_nat (seq (Z.to_nat 0) (Z.to_nat 1000))) = true.
Proof. vm_compute. reflexivity. Qed.

Lemma match_year_app (s r : string) (v : Z) :
  match_year s = Some (v, "") -> match_year (s ++ r) = Some (v, r).
Proof.
  unfold match_year. destruct s as [|a [|b [|c [|d s]]]]; try discriminate.
  cbn [append].
  destruct (digit a), (digit b), (digit c), (digit d); try discriminate.
  now intros [= <- ->].
Qed.

Lemma year_reads_back (pads_year : bool) (y : Z) (r : string) :
  1 <= y <= 9999 -> ((1000 <=? y) || pads_year)%bool = true ->
  match_year (BaseScraper.year_text pads_year y ++ r) = Some (y, r).
Proof.
  intros H P.
  assert (F : match match_year (BaseScraper.year_text pads_year y) with
              | Some (v, EmptyString) => v =? y
              | _ => false
              end = true).
  { destruct (1000 <=? y) eqn:E.
    - apply Z.leb_le in E. pose proof (four_digit_years pads_year) as F.
      rewrite forallb_forall in F.
      exact (F y (Z_in_range 1000 9000 y ltac:(lia) ltac:(lia))).
    - apply Z.leb_gt in E. cbn [orb] in P. subst pads_year.
      pose proof padded_short_years as F. rewrite forallb_forall in F.
      exact (F y (Z_in_range 0 1000 y ltac:(lia) ltac:(lia))). }
  destruct (match_year (BaseScraper.year_text pads_year y)) as [[v [|c s]]|] eqn:E;
    try discriminate.
  apply Z.eqb_eq in F. subst v. now apply match_year_app.
Qed.

Lemma short_year_fails (y : Z) (r : string) :
  0 <= y < 1000 -> match_year (BaseScraper.year_text false y ++ String "-" r) = None.
Proof.
  intros H. pose proof short_years as F. rewrite forallb_forall in F.
  specialize (F y (Z_in_range 0 1000 y ltac:(lia) ltac:(lia))). cbv beta in F.
  apply Nat.leb_le in F. unfold match_year.
  destruct (BaseScraper.year_text false y) as [|a [|b [|c [|d s]]]];
    cbn [append String.length] in *;
    [| | | |lia];
    destruct r as [|r1 [|r2 [|r3 r]]]; try reflexivity;
    change (digit "-") with (@None Z);
    repeat match goal with
           | |- context [match digit ?x with _ => _ end] => destruct (digit x)
           end;
    reflexivity.
Qed.

(** The ISO text of a calendar date parses back to the date when the year
    is written in four digits, and does not match the format otherwise. *)
Lemma iso_text_parses (pads_year : bool) (d : date) :
  1 <= year d <= 9999 -> 1 <= month d <= 12 -> 1 <= day d <= 31 ->
  day d <= days_in_month (year d) (month d) ->
  strptime_str (BaseScraper.strftime_Ymd pads_year d)
  = if ((1000 <=? year d) || pads_year)%bool then Ok d else Raise ValueError_format.
Proof.
  destruct d as [y m dd]. cbn [year month day]. intros Hy Hm Hd Hv.
  unfold strptime_str, match_Ymd, BaseScraper.strftime_Ymd. cbn [year month day].
  destruct ((1000 <=? y) || pads_year)%bool eqn:E.
  - change (BaseScraper.year_text pads_year y ++ "-" ++ BaseScraper.two_digit m
            ++ "-" ++ BaseScraper.two_digit dd)
      with (BaseScraper.year_text pads_year y
            ++ String "-" (BaseScraper.two_digit m
                           ++ String "-" (BaseScraper.two_digit dd ++ ""))).
    rewrite (year_reads_back pads_year y _ Hy E). cbn [expect_dash].
    rewrite (month_reads_back _ m _ (y, m, dd, "") Hm).
    + cbn [String.eqb negb].
      assert (V : ((1 <=? y) && (dd <=? days_in_month y m))%bool = true).
      { apply andb_true_iff. split; apply Z.leb_le; lia. }
      now rewrite V.
    + cbn [expect_dash]. now apply day_reads_back.
  - apply orb_false_iff in E as [E ->]. apply Z.leb_gt in E.
    change (BaseScraper.year_text false y ++ "-" ++ BaseScraper.two_digit m
            ++ "-" ++ BaseScraper.two_digit dd)
      with (BaseScraper.year_text false y
            ++ String "-" (BaseScraper.two_digit m ++ "-" ++ BaseScraper.two_digit dd)).
    now rewrite (short_year_fails y _ ltac:(lia)).
Qed.

(** X20. Every date that [_format_date] produces is the ISO text of the
    calendar date it read, and the orchestrator's [strptime] with
    ['%Y-%m-%d'] reads that date back whenever the year is written in four
    digits: always from the year 1000 on, and for an earlier year on a
    platform whose [strftime] pads it with zeros.  Where the platform
    writes an earlier year without leading zeros, the text does not match
    the orchestrator's format. *)
Theorem formatted_date_parses_back (pads_year : bool) (date_text iso : string) :
  BaseScraper._format_date pads_year date_text = Ok (Some iso) ->
  exists d,
    BaseScraper.strptime_mdY (Registry.strip date_text) = Ok d
    /\ iso = BaseScraper.strftime_Ymd pads_year d
    /\ strptime_str iso
       = if ((1000 <=? year d) || pads_year)%bool then Ok d else Raise ValueError_format.
Proof.
  unfold BaseScraper._format_date, BaseScraper.none_on_ValueError.
  destruct (BaseScraper.strptime_mdY (Registry.strip date_text)) as [d|e] eqn:P;
    cbn [bind].
  - intros [= <-]. exists d. split; [reflexivity|]. split; [reflexivity|].
    destruct (strptime_mdY_valid _ _ P) as (Hy & Hm & Hd & Hv).
    now apply iso_text_parses.
  - destruct (is_ValueError e); discriminate.
Qed.

Lemma formatted_date_parses_back_witness :
  exists d,
    BaseScraper.strptime_mdY (Registry.strip " 1/ 5/2024 ") = Ok d
    /\ "2024-01-05" = BaseScraper.strftime_Ymd false d
    /\ strptime_str "2024-01-05"
       = if ((1000 <=? year d) || false)%bool then Ok d else Raise ValueError_format.
Proof.
  apply (formatted_date_parses_back false " 1/ 5/2024 " "2024-01-05"). reflexivity.
Defined.

(** ** MassGIS: the property-type match *)

Lemma any_in_more (keywords more : list string) (text : string) :
  incl keywords more ->
  MassGIS.any_in keywords text = true -> MassGIS.any_in more text = true.
Proof.
  unfold MassGIS.any_in. intros Hi H.
  apply existsb_exists in H as (k & Hk & Hs).
  apply existsb_exists. exists k. split; [now apply Hi|assumption].
Qed.

Lemma commercial_match (property_data : record) (pt target : string) :
  get property_data "propertyType" = Some (VStr pt) ->
  lower target = "commercial" ->
  MassGIS.any_in MassGIS.commercial_keywords (lower pt) = true
  \/ (exists u, get_default property_data "useCode" VNone = VStr u
                /\ u <> "" /\ String.prefix "3" u = true) ->
  MassGIS._matches_property_type property_data target = Ok true.
Proof.
  intros Hp Ht H. unfold MassGIS._matches_property_type. rewrite Hp, Ht.
  destruct (has_substring "commercial" (lower pt)); [reflexivity|].
  destruct H as [H|(u & Hu & Hn & H3)].
  - rewrite H. reflexivity.
  - destruct (MassGIS.any_in MassGIS.commercial_keywords (lower pt)); [reflexivity|].
    cbn [String.eqb Ascii.eqb Bool.eqb andb].
    rewrite Hu. cbn [truthy].
    destruct (String.eqb u "") eqn:E; [apply String.eqb_eq in E; contradiction|].
    cbn [negb MassGIS.matches_use_code]. rewrite H3. reflexivity.
Qed.

(** X21. Whatever counts as retail or as office also counts as commercial:
    if [_matches_property_type] answers True for the target "retail" or
    "office" (in any letter case), it answers True for the target
    "commercial" on the same record. *)
Theorem retail_and_office_count_as_commercial (property_data : record)
    (target commercial : string) :
  lower target = "retail" \/ lower target = "office" ->
  lower commercial = "commercial" ->
  MassGIS._matches_property_type property_data target = Ok true ->
  MassGIS._matches_property_type property_data commercial = Ok true.
Proof.
  intros Ht Hc H.
  unfold MassGIS._matches_property_type in H.
  destruct (get property_data "propertyType") as [[| z | f | pt]|] eqn:Hp;
    try discriminate.
  apply (commercial_match property_data pt commercial Hp Hc).
  destruct Ht as [Ht|Ht]; rewrite Ht in H.
  - destruct (has_substring "retail" (lower pt)) eqn:S.
    { left. apply (any_in_more ["retail"]); [|unfold MassGIS.any_in; cbn; now rewrite S].
      intros k [<-|[]]. cbn. tauto. }
    cbn [String.eqb Ascii.eqb Bool.eqb andb] in H.
    destruct (MassGIS.any_in ["retail"; "store"; "shop"] (lower pt)) eqn:A.
    { left. apply (any_in_more ["retail"; "store"; "shop"]); [|assumption].
      intros k [<-|[<-|[<-|[]]]]; cbn; tauto. }
    right. destruct (get_default property_data "useCode" VNone) as [| z | f | u];
      cbn [truthy] in H; try discriminate;
      try (destruct (negb _); discriminate).
    destruct (String.eqb u "") eqn:E; cbn [negb] in H; [discriminate|].
    exists u. split; [reflexivity|]. split; [intros ->; discriminate E|].
    cbn [MassGIS.matches_use_code String.eqb Ascii.eqb Bool.eqb andb] in H.
    destruct (MassGIS.among u ["300"; "301"; "325"; "327"]) eqn:M; [|discriminate].
    unfold MassGIS.among in M. apply existsb_exists in M as (c & Hin & Hu).
    apply String.eqb_eq in Hu. subst c.
    destruct Hin as [<-|[<-|[<-|[<-|[]]]]]; reflexivity.
  - destruct (has_substring "office" (lower pt)) eqn:S.
    { left. apply (any_in_more ["office"]); [|unfold MassGIS.any_in; cbn; now rewrite S].
      intros k [<-|[]]. cbn. tauto. }
    cbn [String.eqb Ascii.eqb Bool.eqb andb] in H.
    right. destruct (get_default property_data "useCode" VNone) as [| z | f | u];
      cbn [truthy] in H; try discriminate;
      try (destruct (negb _); discriminate).
    destruct (String.eqb u "") eqn:E; cbn [negb] in H; [discriminate|].
    exists u. split; [reflexivity|]. split; [intros ->; discriminate E|].
    cbn [MassGIS.matches_use_code String.eqb Ascii.eqb Bool.eqb andb] in H.
    destruct (MassGIS.among u ["340"; "341"; "343"; "344"]) eqn:M; [|discriminate].
    unfold MassGIS.among in M. apply existsb_exists in M as (c & Hin & Hu).
    apply String.eqb_eq in Hu. subst c.
    destruct Hin as [<-|[<-|[<-|[<-|[]]]]]; reflexivity.
Qed.

Lemma retail_and_office_count_as_commercial_witness :
  MassGIS._matches_property_type
    [("propertyType", VStr "Neighborhood Bldg"); ("useCode", VStr "325")] "Commercial"
  = Ok true.
Proof.
  apply (retail_and_office_count_as_commercial _ "RETAIL").
  - left. reflexivity.
  - reflexivity.
  - reflexivity.
Defined.

(** ** The SERP scraper: merging duplicates *)

Lemma get_absent {V} (d : dict V) (k : string) : ~ In k (keys d) -> get d k = None.
Proof.
  induction d as [|[k' v] d IH]; [reflexivity|].
  cbn [keys map fst get In]. intros H.
  destruct (String.eqb_spec k' k); [tauto|]. apply IH. tauto.
Qed.

Lemma get_merge_dicts (current_sale sale : record) (key : string) :
  wf sale ->
  get (Serp.merge_dicts current_sale sale) key
  = match get sale key with
    | Some v => Some v
    | None => get current_sale key
    end.
Proof.
  unfold Serp.merge_dicts. revert current_sale.
  induction sale as [|[k v] sale IH]; intros current_sale W; [reflexivity|].
  unfold wf in W. cbn [keys map fst] in W. inversion W as [|? ? Hk Hs]; subst.
  cbn [fold_left fst snd get]. rewrite (IH _ Hs).
  destruct (String.eqb_spec k key) as [->|Hne].
  - rewrite (get_absent sale key Hk). apply get_set_same.
  - destruct (get sale key); [reflexivity|]. now apply get_set_other.
Qed.

Lemma has_value_get (d : record) (key : string) :
  Serp.has_value d key = true ->
  get d key = Some (get_default d key VNone).
Proof.
  unfold Serp.has_value, get_default. now destruct (get d key).
Qed.

Lemma prefer_other_key (current_sale sale merged_sale : record) (key key' : string) :
  key' <> key ->
  get (Serp.prefer_non_none current_sale sale merged_sale key') key = get merged_sale key.
Proof.
  intros H. unfold Serp.prefer_non_none.
  destruct (_ && _)%bool; [now apply get_set_other|].
  destruct (_ && _)%bool; [now apply get_set_other|reflexivity].
Qed.

Lemma has_value_ext (d d' : record) (key : string) :
  get d key = get d' key -> Serp.has_value d key = Serp.has_value d' key.
Proof. unfold Serp.has_value, get_default. now intros ->. Qed.

(** The second loop of the merge, key by key. *)
Lemma prefer_fold (current_sale sale : record) (ks : list string)
    (merged_sale : record) (key : string) :
  get (fold_left (Serp.prefer_non_none current_sale sale) ks merged_sale) key
  = if (existsb (String.eqb key) ks && negb (Serp.has_value merged_sale key)
        && Serp.has_value current_sale key)%bool
    then Some (get_default current_sale key VNone)
    else if (existsb (String.eqb key) ks && negb (Serp.has_value merged_sale key)
             && Serp.has_value sale key)%bool
    then Some (get_default sale key VNone)
    else get merged_sale key.
Proof.
  revert merged_sale. induction ks as [|k ks IH]; intros merged_sale; [reflexivity|].
  cbn [fold_left existsb]. rewrite IH.
  destruct (String.eqb_spec key k) as [<-|Hne].
  - cbn [orb andb]. unfold Serp.prefer_non_none.
    destruct (Serp.has_value merged_sale key) eqn:M; cbn [negb andb].
    + rewrite M. cbn [negb]. now rewrite !andb_false_r.
    + destruct (Serp.has_value current_sale key) eqn:C.
      * assert (S : Serp.has_value (set merged_sale key (get_default current_sale key VNone))
                      key = true).
        { unfold Serp.has_value, get_default at 1. rewrite get_set_same. exact C. }
        rewrite S. cbn [negb]. rewrite !andb_false_r. apply get_set_same.
      * destruct (Serp.has_value sale key) eqn:S'.
        -- assert (S : Serp.has_value (set merged_sale key (get_default sale key VNone))
                         key = true).
           { unfold Serp.has_value, get_default at 1. rewrite get_set_same. exact S'. }
           rewrite S. cbn [negb]. rewrite !andb_false_r. apply get_set_same.
        -- rewrite M. cbn [negb]. now rewrite !andb_false_r.
  - cbn [orb].
    assert (Hk : k <> key) by congruence.
    rewrite (has_value_ext _ merged_sale key
               (prefer_other_key current_sale sale merged_sale key k Hk)).
    now rewrite (prefer_other_key current_sale sale merged_sale key k Hk).
Qed.

Lemma in_keys_get {V} (d : dict V) (k : string) :
  existsb (String.eqb k) (keys d) = match get d k with Some _ => true | None => false end.
Proof.
  induction d as [|[k' v] d IH]; [reflexivity|].
  cbn [keys map fst existsb get]. rewrite (String.eqb_sym k k').
  destruct (String.eqb k' k); [reflexivity|]. exact IH.
Qed.

(** X22. When the SERP scraper replaces a stored record by its merge with a
    new one, the merged record takes every field from the new record unless
    the field is absent or None there and has a value in the stored record:
    no value of either record is lost to a None, and where both records
    have a value the new one wins. *)
Theorem serp_merge_prefers_the_new_values (current_sale sale : record) (key : string) :
  wf sale ->
  get (Serp.combine_sales current_sale sale) key
  = if Serp.has_value sale key then get sale key
    else if Serp.has_value current_sale key then get current_sale key
    else match get sale key with
         | Some v => Some v
         | None => get current_sale key
         end.
Proof.
  intros W. unfold Serp.combine_sales. rewrite prefer_fold, in_keys_get.
  pose proof (get_merge_dicts current_sale sale key W) as G.
  assert (HM : Serp.has_value (Serp.merge_dicts current_sale sale) key
               = if Serp.has_value sale key then true
                 else match get sale key with
                      | Some _ => false
                      | None => Serp.has_value current_sale key
                      end).
  { unfold Serp.has_value, get_default. rewrite G.
    destruct (get sale key) as [[| | |]|]; reflexivity. }
  rewrite HM, G.
  destruct (Serp.has_value sale key) eqn:S.
  - rewrite (has_value_get _ _ S). cbn [negb]. now rewrite !andb_false_r.
  - destruct (Serp.has_value current_sale key) eqn:C.
    + rewrite (has_value_get _ _ C).
      destruct (get sale key); cbn [negb andb]; reflexivity.
    + destruct (get sale key); cbn [negb andb];
        rewrite ?andb_false_r; reflexivity.
Qed.

Lemma serp_merge_prefers_the_new_values_witness :
  get (Serp.combine_sales
         [("address", VStr "5 Elm Rd"); ("salePrice", VInt 450000);
          ("confidenceScore", VFloat 0.7)]
         [("address", VStr "5 ELM RD."); ("salePrice", VNone);
          ("saleDate", VStr "2025-03-02"); ("confidenceScore", VFloat 0.5)])
      "salePrice"
  = Some (VInt 450000).
Proof.
  rewrite serp_merge_prefers_the_new_values; [reflexivity|].
  repeat constructor; cbn; intuition discriminate.
Defined.

Lemma combine_keeps_address (current_sale sale : record) (a : string) :
  wf sale -> get sale "address" = Some (VStr a) ->
  get (Serp.combine_sales current_sale sale) "address" = Some (VStr a).
Proof.
  intros W H. unfold Serp.combine_sales. rewrite prefer_fold.
  pose proof (get_merge_dicts current_sale sale "address" W) as G. rewrite H in G.
  assert (HM : Serp.has_value (Serp.merge_dicts current_sale sale) "address" = true).
  { unfold Serp.has_value, get_default. now rewrite G. }
  rewrite HM. cbn [negb]. now rewrite !andb_false_r.
Qed.

Lemma add_sale_keys (m m' : dict record) (sale : record) :
  wf sale ->
  Forall (fun kv => serp_key (snd kv) = Some (fst kv)) m ->
  Serp.add_sale m sale = Ok m' ->
  Forall (fun kv => serp_key (snd kv) = Some (fst kv)) m'
  /\ keys m' = match serp_key sale with
               | Some k => set_add k (keys m)
               | None => keys m
               end.
Proof.
  intros W Hm. unfold Serp.add_sale, serp_key at 2.
  destruct (get sale "address") as [[| z | f | a]|] eqn:A; cbn [truthy_opt truthy].
  - cbn [negb]. now intros [= <-].
  - destruct (negb (z =? 0)); cbn [negb]; [discriminate|now intros [= <-]].
  - destruct (negb (PrimFloat.eqb f 0)); cbn [negb]; [discriminate|now intros [= <-]].
  - destruct (String.eqb a "") eqn:E; cbn [negb]; [now intros [= <-]|].
    assert (Ks : serp_key sale = Some (Serp.norm_address a)).
    { unfold serp_key. now rewrite A, E. }
    destruct (get m (Serp.norm_address a)) as [current_sale|] eqn:G.
    + assert (Kin : set_add (Serp.norm_address a) (keys m) = keys m).
      { unfold set_add. rewrite in_keys_get, G. reflexivity. }
      destruct (if _ <? _ then _ else _) as [[|]|e]; cbn [bind]; try discriminate.
      * intros [= <-]. split.
        -- apply Forall_set; [assumption|]. cbn [fst snd]. unfold serp_key.
           now rewrite (combine_keeps_address current_sale sale a W A), E.
        -- now rewrite keys_set.
      * intros [= <-]. split; [assumption|now rewrite Kin].
    + intros [= <-]. split.
      * apply Forall_set; assumption.
      * now rewrite keys_set.
  - cbn [negb]. now intros [= <-].
Qed.

Lemma add_sales_keys (sales : list record) (m m' : dict record) :
  Forall wf sales ->
  Forall (fun kv => serp_key (snd kv) = Some (fst kv)) m ->
  Serp.add_sales sales m = Ok m' ->
  Forall (fun kv => serp_key (snd kv) = Some (fst kv)) m'
  /\ keys m' = fold_left (fun a k => set_add k a) (somes (map serp_key sales)) (keys m).
Proof.
  intros W. revert m. induction W as [|sale sales Ws W IH]; intros m Hm H.
  - injection H as <-. split; [assumption|reflexivity].
  - cbn [Serp.add_sales] in H.
    destruct (Serp.add_sale m sale) as [m1|e] eqn:A; cbn [bind] in H; [|discriminate].
    destruct (add_sale_keys m m1 sale Ws Hm A) as [H1 K1].
    destruct (IH m1 H1 H) as [H2 K2]. split; [assumption|].
    rewrite K2, K1. cbn [map somes].
    destruct (serp_key sale); reflexivity.
Qed.

(** X23. What the SERP scraper's [_remove_duplicates] returns holds exactly
    one record for each distinct key of the input records that have a
    non-empty address, in the order in which the keys first appear; records
    without an address are dropped. *)
Theorem serp_keeps_one_record_per_key (sales_data out : list record) :
  Forall wf sales_data ->
  Serp._remove_duplicates sales_data = Ok out ->
  map serp_key out = map Some (distinct (somes (map serp_key sales_data))).
Proof.
  intros W. unfold Serp._remove_duplicates.
  destruct (Serp.add_sales sales_data []) as [m|e] eqn:A; cbn [bind]; [|discriminate].
  intros [= <-].
  destruct (add_sales_keys sales_data [] m W (Forall_nil _) A) as [Hm K].
  cbn [keys map] in K. rewrite first_appearances in K. rewrite <- K.
  clear - Hm. unfold values, keys.
  induction Hm as [|[k r] m H _ IH]; [reflexivity|].
  cbn [map fst snd] in *. now rewrite H, IH.
Qed.

Lemma serp_keeps_one_record_per_key_witness :
  map serp_key
      (match Serp._remove_duplicates Cases.serp_hits with
       | Ok out => out
       | Raise _ => []
       end)
  = map Some (distinct (somes (map serp_key Cases.serp_hits))).
Proof.
  apply serp_keeps_one_record_per_key.
  - repeat constructor; cbn; intuition discriminate.
  - vm_compute. reflexivity.
Defined.

(** ** The SERP scraper's recency filter *)

Lemma recent_step_is_filter_step (cutoff_year : Z) (sale : record) :
  Serp.recent_step cutoff_year sale = filter_step cutoff_year sale.
Proof.
  unfold Serp.recent_step, filter_step, cap_confidence, get_default at 1 2.
  destruct (get sale "saleDate") as [v|]; cbn [truthy].
  - destruct (truthy v); [|now destruct (PyNum.min _ _)].
    destruct (strptime v); [reflexivity|].
    destruct (is_ValueError e); [|reflexivity].
    now destruct (PyNum.min _ _).
  - now destruct (PyNum.min _ _).
Qed.

Lemma mapM_ext {A B} (f g : A -> result B) (l : list A) :
  (forall x, f x = g x) -> mapM f l = mapM g l.
Proof.
  intros H. induction l as [|x l IH]; [reflexivity|].
  cbn [mapM]. now rewrite H, IH.
Qed.

(** X24. The SERP scraper's [_filter_recent_sales] and the orchestrator's
    are the same function, so the orchestrator's filter leaves what the
    SERP scraper has filtered as it is: same records, same scores. *)
Theorem serp_filter_agrees_with_the_orchestrator (now : date) (years_back : Z)
    (sales_data out : list record) :
  Serp._filter_recent_sales now sales_data years_back = Ok out ->
  Recency._filter_recent_sales now sales_data years_back = Ok out
  /\ Recency._filter_recent_sales now out years_back = Ok out.
Proof.
  unfold Serp._filter_recent_sales, Recency._filter_recent_sales.
  rewrite (mapM_ext _ _ sales_data (recent_step_is_filter_step (year now - years_back))).
  fold (kept).
  destruct (mapM (filter_step (year now - years_back)) sales_data) as [steps|e] eqn:M;
    cbn [bind]; [|discriminate].
  intros [= <-]. split; [reflexivity|].
  fold (kept steps).
  rewrite kept_again; [cbn [bind]; now rewrite kept_of_kept|].
  apply mapM_ok_inv in M. clear - M.
  induction M as [|c [c' b] comps steps H M IH]; cbn [filter]; [constructor|].
  cbn [snd]. destruct b; [|assumption].
  constructor; [|assumption]. cbn [fst]. now apply (filter_step_again _ c).
Qed.

Lemma serp_filter_agrees_with_the_orchestrator_witness :
  Recency._filter_recent_sales Scenario.today Cases.mixed_dates 3
  = Ok Cases.mixed_dates_filtered
  /\ Recency._filter_recent_sales Scenario.today Cases.mixed_dates_filtered 3
     = Ok Cases.mixed_dates_filtered.
Proof.
  apply serp_filter_agrees_with_the_orchestrator. vm_compute. reflexivity.
Defined.

(** ** The sources sentence of the summary *)

Lemma set_add_Forall (P : string -> Prop) (x : string) (l : list string) :
  P x -> Forall P l -> Forall P (set_add x l).
Proof.
  intros Hx Hl. unfold set_add. destruct (existsb _ l); [assumption|].
  apply Forall_app. split; [assumption|now repeat constructor].
Qed.

(** X25. The merged label is never listed as a data source: no name that
    the summary collects for its sources sentence contains the text
    "Multiple Sources". *)
Theorem sources_sentence_never_lists_the_merged_label (comps : list record)
    (sources_set : list string) :
  note_sources [] comps = Ok sources_set ->
  Forall (fun name => has_substring "Multiple Sources" name = false) sources_set.
Proof.
  assert (G : forall l s0 s,
             Forall (fun name => has_substring "Multiple Sources" name = false) s0 ->
             note_sources s0 l = Ok s ->
             Forall (fun name => has_substring "Multiple Sources" name = false) s).
  { induction l as [|comp l IH]; intros s0 s H0 H.
    - injection H as <-. exact H0.
    - cbn [note_sources] in H.
      destruct (note_source s0 comp) as [s1|e] eqn:N; cbn [bind] in H; [|discriminate].
      apply (IH s1 s); [|exact H]. clear - H0 N.
      unfold note_source in N.
      destruct (get_default comp "source" (VStr "Unknown")) as [| z | f | name];
        try discriminate.
      destruct (negb (has_substring "Multiple Sources" _)) eqn:E; injection N as <-;
        [|exact H0].
      apply set_add_Forall; [|exact H0]. now apply negb_true_iff in E. }
  intros H. exact (G comps [] sources_set (Forall_nil _) H).
Qed.

Lemma sources_sentence_never_lists_the_merged_label_witness :
  Forall (fun name => has_substring "Multiple Sources" name = false)
         ["MassGIS Property Viewer"; "Bing Search Result"].
Proof.
  apply (sources_sentence_never_lists_the_merged_label
           [ Scenario.dated_sale;
             Scenario.priced (VInt 1) "Multiple Sources - Bing Search Result, MassGIS";
             Scenario.undated_sale "8 Elm Rd" 0.5 ]).
  reflexivity.
Defined.

(** ** The four sources together *)

(** X26. With the registry look-up and the assessor factory as they are, a
    search for any city other than Weymouth and Dedham draws its raw
    records from MassGIS and the search engines alone: the other two
    sources are called and contribute nothing. *)
Theorem only_massgis_and_serp_contribute (now : date)
    (vision_search : string -> value -> outcome)
    (format_search_page : string -> result string)
    (massgis : value -> value -> outcome)
    (serp : value -> value -> value -> value -> outcome)
    (input_data : record) :
  truthy (get_default input_data "subjectCity" (VStr "")) = true ->
  truthy (get_default input_data "subjectCounty" (VStr "")) = true ->
  vision_town (get_default input_data "subjectCity" (VStr "")) = false ->
  gather_comparable_sales now
    (Municipal.municipal_assessor vision_search)
    (Registry.registry_of_deeds format_search_page) massgis serp input_data
  = (source_names,
     pipeline now input_data (get_default input_data "subjectAddress" (VStr ""))
       (records_of (massgis (get_default input_data "subjectCity" (VStr ""))
                            (get_default input_data "subjectPropertyType"
                                         (VStr "Commercial Property")))
        ++ records_of (serp (get_default input_data "subjectPropertyType"
                                         (VStr "Commercial Property"))
                            (get_default input_data "subjectCity" (VStr ""))
                            (get_default input_data "subjectCounty" (VStr ""))
                            (get_default input_data "subjectState" (VStr "MA"))))%list).
Proof.
  intros Tc Tk V. unfold gather_comparable_sales. rewrite Tc, Tk. cbn [negb orb].
  set (property_type := get_default input_data "subjectPropertyType" _).
  set (city := get_default input_data "subjectCity" _) in *.
  set (county := get_default input_data "subjectCounty" _) in *.
  assert (R : _get_registry_of_deeds_data (Registry.registry_of_deeds format_search_page)
                property_type city county
                (get_default input_data "subjectAddress" (VStr ""))
              = Ok (Some [])).
  { unfold _get_registry_of_deeds_data, guarded, Registry.registry_of_deeds.
    destruct (Registry.find_registry_for_address city county) as [info|e]; cbn [bind];
      [|reflexivity].
    destruct (negb (Registry.truthy_dict info)); [reflexivity|].
    unfold Registry.MassLandRecordsScraper.
    now destruct (format_search_page _). }
  assert (A : _get_municipal_assessor_data (Municipal.municipal_assessor vision_search)
                property_type city county
              = Ok (Some [])).
  { clear - V. unfold vision_town in V.
    unfold _get_municipal_assessor_data, guarded, Municipal.municipal_assessor,
      Municipal.create_scraper.
    destruct city as [| z | f | m]; try reflexivity.
    apply orb_false_iff in V as [Hw Hd].
    set (key := Registry.strip (lower m)) in *.
    unfold Municipal.MUNICIPALITY_PLATFORM_MAP. cbn [get].
    rewrite (String.eqb_sym "weymouth" key), (String.eqb_sym "dedham" key), Hw, Hd.
    destruct (String.eqb "boston" key); [reflexivity|].
    destruct (String.eqb "cambridge" key); [reflexivity|].
    destruct (String.eqb "quincy" key); reflexivity. }
  rewrite R, A. f_equal. f_equal.
  unfold _get_massgis_data, _get_serp_data.
  change (Ok (Some [])) with (guarded (Ok (Some (@nil record)))).
  now rewrite collect_guarded.
Qed.

Lemma only_massgis_and_serp_contribute_witness :
  gather_comparable_sales Scenario.today
    (Municipal.municipal_assessor (fun _ _ => Ok (Some [Scenario.dated_sale])))
    (Registry.registry_of_deeds (fun url => Ok url))
    (fun _ _ => Ok (Some Cases.equally_good)) Scenario.nothing4 Scenario.subject
  = (source_names,
     pipeline Scenario.today Scenario.subject (VStr "")
       (Cases.equally_good ++ [])%list).
Proof.
  apply (only_massgis_and_serp_contribute Scenario.today
           (fun _ _ => Ok (Some [Scenario.dated_sale])) (fun url => Ok url)
           (fun _ _ => Ok (Some Cases.equally_good)) Scenario.nothing4 Scenario.subject);
    reflexivity.
Defined.

(** ** Lower case and surrounding white space *)

Lemma lower_char_again (c : ascii) :
  lower_char (lower_char c) = lower_char c /\ is_space (lower_char c) = is_space c.
Proof.
  destruct c as [[|] [|] [|] [|] [|] [|] [|] [|]]; split; reflexivity.
Qed.

Lemma lower_again (s : string) : lower (lower s) = lower s.
Proof.
  unfold lower. induction s as [|c s IH]; [reflexivity|].
  cbn [map_chars]. now rewrite (proj1 (lower_char_again c)), IH.
Qed.

Lemma lower_lstrip (s : string) : lower (PyNum.lstrip s) = PyNum.lstrip (lower s).
Proof.
  induction s as [|c s IH]; [reflexivity|].
  cbn [PyNum.lstrip lower map_chars]. rewrite (proj2 (lower_char_again c)).
  destruct (is_space c); [exact IH|reflexivity].
Qed.

Lemma lower_rstrip (s : string) : lower (PyNum.rstrip s) = PyNum.rstrip (lower s).
Proof.
  induction s as [|c s IH]; [reflexivity|].
  cbn [PyNum.rstrip lower map_chars]. fold (lower s).
  rewrite (proj2 (lower_char_again c)), <- IH, lower_empty.
  destruct (is_space c && String.eqb (PyNum.rstrip s) "")%bool; reflexivity.
Qed.

Lemma rstrip_again (s : string) : PyNum.rstrip (PyNum.rstrip s) = PyNum.rstrip s.
Proof.
  induction s as [|c s IH]; [reflexivity|].
  cbn [PyNum.rstrip].
  destruct (is_space c && String.eqb (PyNum.rstrip s) "")%bool eqn:E; [reflexivity|].
  cbn [PyNum.rstrip]. now rewrite IH, E.
Qed.

Lemma lstrip_again (s : string) : PyNum.lstrip (PyNum.lstrip s) = PyNum.lstrip s.
Proof.
  induction s as [|c s IH]; [reflexivity|].
  cbn [PyNum.lstrip]. destruct (is_space c) eqn:E; [exact IH|].
  cbn [PyNum.lstrip]. now rewrite E.
Qed.

Lemma rstrip_lstrip (s : string) :
  PyNum.rstrip s = s -> PyNum.rstrip (PyNum.lstrip s) = PyNum.lstrip s.
Proof.
  induction s as [|c s IH]; [reflexivity|].
  intros H. cbn [PyNum.lstrip]. destruct (is_space c) eqn:E; [|exact H].
  apply IH. cbn [PyNum.rstrip] in H. rewrite E in H. cbn [andb] in H.
  destruct (String.eqb (PyNum.rstrip s) ""); [discriminate|]. now injection H.
Qed.

Lemma strip_again (s : string) : Registry.strip (Registry.strip s) = Registry.strip s.
Proof.
  unfold Registry.strip.
  rewrite (rstrip_lstrip (PyNum.rstrip s) (rstrip_again s)).
  apply lstrip_again.
Qed.

(** X27. [normalize_text] is idempotent: a value that it has normalized is
    left as it is by a second pass. *)
Theorem normalize_text_is_idempotent (text : value) :
  LocalGIS.normalize_text (LocalGIS.normalize_text text) = LocalGIS.normalize_text text.
Proof.
  destruct text as [| z | f | s]; try reflexivity.
  cbn [LocalGIS.normalize_text]. f_equal. unfold Registry.strip at 2.
  rewrite lower_lstrip, lower_rstrip, lower_again.
  apply strip_again.
Qed.

(* ================================================================== *)
(** * The score of a merged record, by its merge group *)

Lemma get_default_set {V} (d : dict V) (k k' : string) (v dflt : V) :
  get_default (set d k v) k' dflt = if String.eqb k k' then v else get_default d k' dflt.
Proof.
  unfold get_default. destruct (String.eqb_spec k k') as [<-|N].
  - now rewrite get_set_same.
  - now rewrite get_set_other.
Qed.

Lemma group_by_address_members (comps : list record) (g g' : dict (list record))
    (k : string) :
  k <> "" ->
  group_by_address comps g = Ok g' ->
  get_default g' k []
  = (get_default g k [] ++ filter (fun x => String.eqb (key_of x) k) comps)%list.
Proof.
  intros Hk. revert g. induction comps as [|comp rest IH]; intros g H.
  - simpl in H. injection H as <-. now rewrite app_nil_r.
  - cbn [group_by_address] in H. fold (address_key comp) in H.
    cbn [filter]. unfold key_of at 1.
    destruct (address_key comp) as [n|e]; cbn [bind] in H; [|discriminate].
    destruct (String.eqb n "") eqn:E.
    + apply String.eqb_eq in E. subst n.
      destruct (String.eqb_spec "" k) as [F|_]; [now destruct Hk|]. now apply IH.
    + rewrite (IH _ H), get_default_set.
      destruct (String.eqb n k) eqn:N.
      * apply String.eqb_eq in N. subst n. now rewrite <- app_assoc.
      * reflexivity.
Qed.

Lemma get_of_entry {V} (d : dict V) (k : string) (v : V) :
  wf d -> In (k, v) d -> get d k = Some v.
Proof.
  unfold wf, keys. induction d as [|[k' v'] d IH]; intros Hn Hin; [now destruct Hin|].
  cbn [map fst] in Hn. apply NoDup_cons_iff in Hn as [Hk Hn]. cbn [get].
  destruct Hin as [[= -> ->]|Hin]; [now rewrite String.eqb_refl|].
  destruct (String.eqb_spec k' k) as [->|_]; [|now apply IH].
  destruct Hk. apply in_map_iff. now exists (k, v).
Qed.

Lemma merge_group_parts (group : list record) (r : record) :
  merge_group group = Ok (Some r) ->
  exists seed others sources b,
    sort_group group = Ok (seed :: others)
    /\ sources_of group sources
    /\ get b "confidenceScore" = get seed "confidenceScore"
    /\ finish b sources = Ok r.
Proof.
  unfold merge_group. destruct group as [|c cs]; [discriminate|].
  destruct (sort_group (c :: cs)) as [[|seed others]|e] eqn:Es; cbn [bind]; try discriminate.
  destruct (primary_source seed) as [p|e] eqn:Ep; cbn [bind]; [|discriminate].
  destruct (merge_others others seed [p]) as [[b s]|e] eqn:Em; cbn [bind fst snd];
    [|discriminate].
  destruct (finish b s) as [r'|e] eqn:Ef; cbn [bind]; [|discriminate].
  intros H. inversion H; subst r'.
  pose proof (sorted_desc_perm _ _ _ _ Es) as Hp.
  destruct (merge_others_facts others seed [p] b s Em) as [Hc [Hnd Hq]].
  { repeat constructor. simpl. tauto. }
  exists seed, others, s, b. repeat split; auto.
  - intros Hin. apply Hq in Hin as [[<-|[]]|[x [Hx Hpx]]].
    + exists seed. split; [|assumption].
      apply (Permutation_in _ (Permutation_sym Hp)). now left.
    + exists x. split; [|assumption].
      apply (Permutation_in _ (Permutation_sym Hp)). now right.
  - intros [x [Hx Hpx]]. apply Hq.
    apply (Permutation_in _ Hp) in Hx as [<-|Hx].
    + left. left. congruence.
    + right. exists x. auto.
Qed.

(** Every record that the merge returns is what [merge_group] makes of the
    input records with its normalized address. *)
Lemma merged_from_its_group (comps out : list record) (r : record) :
  _deduplicate_and_enhance comps = Ok out ->
  In r out ->
  key_of r <> "" /\ merge_group (merge_group_of r comps) = Ok (Some r).
Proof.
  intros H Hr. unfold _deduplicate_and_enhance in H.
  destruct (group_by_address comps []) as [g|e] eqn:Eg; cbn [bind] in H; [|discriminate].
  destruct (mapM merge_group (values g)) as [merged|e] eqn:Em; cbn [bind] in H;
    [|discriminate].
  injection H as <-.
  destruct (group_by_address_keys comps [] g Eg (Forall_nil _)) as (Hg & ks & _ & K).
  assert (W : wf g).
  { unfold wf. rewrite K, first_appearances. apply distinct_nodup. }
  destruct (somes_in _ _ _ r Em Hr) as (grp & Hin & M).
  unfold values in Hin. apply in_map_iff in Hin as ([k grp'] & E & Hin).
  cbn [snd] in E. subst grp'.
  rewrite Forall_forall in Hg. pose proof (Hg _ Hin) as Ok_.
  destruct (merge_group_key grp k (Some r) Ok_ M) as (r' & [= <-] & Kr).
  destruct Ok_ as (Hk & _). cbn [fst] in Hk.
  assert (Er : key_of r = k) by (unfold key_of; now rewrite Kr).
  split; [now rewrite Er|].
  pose proof (group_by_address_members comps [] g k Hk Eg) as G.
  unfold get_default at 1 in G. rewrite (get_of_entry g k grp W Hin) in G.
  unfold merge_group_of. rewrite Er. cbn in G. now rewrite <- G.
Qed.

(** C3.  For records whose confidenceScore is a number in [0, 1] or absent,
    take any record that the merge returns and its merge group, the input
    records with its normalized address: the record is what [merge_group]
    makes of that group, its seed is the head of the sorted group, and when
    the group names more than one primary source its confidenceScore is at
    least 0 and at most 0.95; when the group names a single source, its
    confidenceScore is the seed's, untouched. *)
Theorem merged_score_is_capped_when_corroborated (comps out : list record) :
  Forall unit_score comps ->
  _deduplicate_and_enhance comps = Ok out ->
  Forall (fun r =>
            exists seed others sources,
              key_of r <> ""
              /\ merge_group (merge_group_of r comps) = Ok (Some r)
              /\ sort_group (merge_group_of r comps) = Ok (seed :: others)
              /\ sources_of (merge_group_of r comps) sources
              /\ ((1 < List.length sources)%nat -> score_within 0 0.95 r)
              /\ ((List.length sources <= 1)%nat ->
                  get r "confidenceScore" = get seed "confidenceScore")) out.
Proof.
  intros Hu H. apply Forall_forall. intros r Hr.
  destruct (merged_from_its_group comps out r H Hr) as [Hk Hmg].
  destruct (merge_group_parts _ r Hmg) as (seed & others & sources & b & Hs & Hsrc & Hc & Hf).
  assert (Hseed : In seed comps).
  { apply sorted_desc_perm in Hs.
    assert (In seed (merge_group_of r comps)) as Hin
      by (apply (Permutation_in _ (Permutation_sym Hs)); now left).
    unfold merge_group_of in Hin. now apply filter_In in Hin. }
  assert (Hub : unit_score b).
  { unfold unit_score. rewrite Hc. rewrite Forall_forall in Hu. now apply (Hu seed). }
  destruct (finish_score b sources r Hub Hf) as [Hmulti Hsingle].
  exists seed, others, sources.
  repeat (split; [assumption|]).
  intros Hl. rewrite <- Hc. now apply Hsingle.
Qed.

Lemma merged_score_is_capped_when_corroborated_witness :
  let comps :=
    [ Scenario.priced (VInt 500000) "Vision Government Solutions - Boston Assessor";
      Scenario.built (VInt 1990) "MassGIS Property Viewer";
      Scenario.undated_sale "9 Elm Rd" 1 ] in
  Forall (fun r =>
            exists seed others sources,
              key_of r <> ""
              /\ merge_group (merge_group_of r comps) = Ok (Some r)
              /\ sort_group (merge_group_of r comps) = Ok (seed :: others)
              /\ sources_of (merge_group_of r comps) sources
              /\ ((1 < List.length sources)%nat -> score_within 0 0.95 r)
              /\ ((List.length sources <= 1)%nat ->
                  get r "confidenceScore" = get seed "confidenceScore"))
    [ [ ("address", VStr "123 Main St"); ("salePrice", VInt 500000);
        ("source", VStr "Multiple Sources - MassGIS Property Viewer, Vision Government Solutions");
        ("confidenceScore", VFloat 0.7); ("yearBuilt", VInt 1990) ];
      Scenario.undated_sale "9 Elm Rd" 1 ].
Proof.
  intros comps.
  apply (merged_score_is_capped_when_corroborated comps).
  - repeat constructor.
  - vm_compute. reflexivity.
Defined.

(** A record that no other source corroborates keeps a confidenceScore of
    1.0, above the 0.95 cap. *)
Lemma single_source_score_exceeds_the_cap :
  let comps := [Scenario.undated_sale "9 Elm Rd" 1] in
  Forall unit_score comps
  /\ exists r,
       _deduplicate_and_enhance comps = Ok [r]
       /\ get r "confidenceScore" = Some (VFloat 1)
       /\ PrimFloat.leb 1 0.95 = false
       /\ ~ score_within 0 0.95 r.
Proof.
  split.
  - repeat constructor.
  - exists (Scenario.undated_sale "9 Elm Rd" 1).
    split; [vm_compute; reflexivity|].
    split; [reflexivity|]. split; [reflexivity|].
    intros [_ H]. discriminate H.
Qed.
